(** * NodeModal: the node editor of the graph view

    A model of [src/features/modals/NodeModal/index.tsx]: the scalar coercion
    [parsePrimitive], the path-addressed mutator [setValueAtPath], the
    population of the edit form, the save handler [handleSave], and the two
    helpers of view mode, [normalizeNodeData] and [jsonPathToString].

    JavaScript values live in an explicit heap, because [setValueAtPath]
    mutates the object it is given and rebinds its cursor.  Numbers are
    IEEE 754 binary64 values ([spec_float] with precision 53), with
    [Number(v)] and [String(n)] after ECMA-262.  Objects are records of
    own properties: of the prototype chain only the setter of [__proto__]
    is modelled, and what else depends on it is marked as outside the
    model, as is a write to the [length] of an array.  A run that ends
    outside the model stands for nothing: the properties of the program
    are stated for runs that end inside it.  The own properties of an
    object are kept in insertion order, which is JavaScript's order of
    enumeration when no key is an array index; with such keys, a document
    of the model and the document of the program are the same up to the
    order of the fields.  The serialized document is modelled by the
    value [JSON.parse] gives for it. *)

From Stdlib Require Import ZArith Ascii String List Bool Lia.
From Stdlib Require Import SpecFloat DecimalString.
From stdpp Require Import base option list sets gmap strings.

Set Warnings "-register-all".
Set Warnings "-clear-no-such-hyp".

Local Open Scope string_scope.
Local Open Scope list_scope.

(** ** JavaScript numbers *)

Module JSNumber.

Definition number := spec_float.

#[global] Instance number_eq_dec : EqDecision number.
Proof. solve_decision. Defined.

Definition prec : Z := 53.
Definition emax : Z := 1024.

Definition NaN : number := S754_nan.
Definition Infinity : number := S754_infinity false.

Definition isNaN (n : number) : bool :=
  match n with S754_nan => true | _ => false end.

(** The Number value of the real [m * 10^e] (with [0 <= m]), rounded to
    nearest, ties to even.  A negative exponent divides with 64 extra bits
    and a sticky bit, which leaves the rounding of the 53-bit mantissa
    exact. *)
Definition round_Z (neg : bool) (m e : Z) : number :=
  match m with
  | Zpos p => binary_round prec emax neg p e
  | _ => S754_zero neg
  end.

Definition of_decimal (neg : bool) (m e : Z) : number :=
  if (0 <=? e)%Z then round_Z neg (m * 10 ^ e) 0
  else
    let d := (10 ^ (- e))%Z in
    let sh := (64 + Z.log2_up d)%Z in
    let n := (m * 2 ^ sh)%Z in
    let sticky := if (n mod d =? 0)%Z then 0%Z else 1%Z in
    round_Z neg (2 * (n / d) + sticky) (- sh - 1).

(** *** [Number(v)]: StringToNumber (ECMA-262, 7.1.4.1.1) *)

Definition digit_val (base : Z) (c : ascii) : option Z :=
  let n := Z.of_nat (nat_of_ascii c) in
  let d :=
    if ((48 <=? n) && (n <=? 57))%Z then Some (n - 48)%Z
    else if ((97 <=? n) && (n <=? 102))%Z then Some (n - 87)%Z
    else if ((65 <=? n) && (n <=? 70))%Z then Some (n - 55)%Z
    else None in
  match d with
  | Some k => if (k <? base)%Z then Some k else None
  | None => None
  end.

(** Reads the longest prefix of digits: its value on top of [acc], the
    number of digits read, and the rest of the string. *)
Fixpoint read_digits (base : Z) (s : string) (acc : Z) (cnt : Z) : Z * Z * string :=
  match s with
  | String c s' =>
      match digit_val base c with
      | Some d => read_digits base s' (acc * base + d)%Z (cnt + 1)%Z
      | None => (acc, cnt, s)
      end
  | EmptyString => (acc, cnt, s)
  end.

Definition is_space (c : ascii) : bool :=
  let n := nat_of_ascii c in
  (Nat.eqb n 9 || Nat.eqb n 10 || Nat.eqb n 11 || Nat.eqb n 12 || Nat.eqb n 13
   || Nat.eqb n 32)%bool.

Fixpoint skip_space (s : string) : string :=
  match s with
  | String c s' => if is_space c then skip_space s' else s
  | EmptyString => s
  end.

Fixpoint rev_string (s acc : string) : string :=
  match s with
  | String c s' => rev_string s' (String c acc)
  | EmptyString => acc
  end.

Definition trim (s : string) : string :=
  rev_string (skip_space (rev_string (skip_space s) "")) "".

(** [ExponentPart_opt] followed by the end of the literal. *)
Definition read_exponent (s : string) : option Z :=
  match s with
  | EmptyString => Some 0%Z
  | String c s' =>
      if (Ascii.eqb c "e" || Ascii.eqb c "E")%bool then
        let '(neg, s'') :=
          match s' with
          | String "-" t => (true, t)
          | String "+" t => (false, t)
          | _ => (false, s')
          end in
        match read_digits 10 s'' 0 0 with
        | (v, cnt, EmptyString) =>
            if (0 <? cnt)%Z then Some (if neg then - v else v)%Z else None
        | _ => None
        end
      else None
  end.

(** [StrUnsignedDecimalLiteral] *)
Definition unsigned_decimal (neg : bool) (s : string) : number :=
  if String.eqb s "Infinity" then S754_infinity neg
  else
    let '(ip, n_ip, rest) := read_digits 10 s 0 0 in
    match rest with
    | String "." rest' =>
        let '(m, n_all, rest'') := read_digits 10 rest' ip n_ip in
        if (0 <? n_all)%Z then
          match read_exponent rest'' with
          | Some e => of_decimal neg m (e - (n_all - n_ip))
          | None => NaN
          end
        else NaN
    | _ =>
        if (0 <? n_ip)%Z then
          match read_exponent rest with
          | Some e => of_decimal neg ip e
          | None => NaN
          end
        else NaN
    end.

(** [NonDecimalIntegerLiteral]: [0x], [0o], [0b] prefixes. *)
Definition non_decimal (s : string) : option number :=
  match s with
  | String "0" (String c s') =>
      let base :=
        if (Ascii.eqb c "x" || Ascii.eqb c "X")%bool then Some 16%Z
        else if (Ascii.eqb c "o" || Ascii.eqb c "O")%bool then Some 8%Z
        else if (Ascii.eqb c "b" || Ascii.eqb c "B")%bool then Some 2%Z
        else None in
      match base with
      | Some b =>
          match read_digits b s' 0 0 with
          | (v, cnt, EmptyString) =>
              Some (if (0 <? cnt)%Z then of_decimal false v 0 else NaN)
          | _ => Some NaN
          end
      | None => None
      end
  | _ => None
  end.

Definition Number (v : string) : number :=
  let s := trim v in
  match s with
  | EmptyString => S754_zero false
  | String "-" s' => unsigned_decimal true s'
  | String "+" s' => unsigned_decimal false s'
  | _ =>
      match non_decimal s with
      | Some n => n
      | None => unsigned_decimal false s
      end
  end.

(** *** [String(n)]: Number::toString with radix 10 (ECMA-262, 6.1.6.1.20) *)

Definition string_of_Z (z : Z) : string :=
  NilZero.string_of_uint (N.to_uint (Z.to_N z)).

Fixpoint zeros (n : nat) : string :=
  match n with O => "" | S n' => String "0" (zeros n') end.

(** The least [j >= lo] with [q <= p * 10^j], searched with fuel. *)
Fixpoint scale_up (fuel : nat) (p q : Z) (j : Z) : Z :=
  match fuel with
  | O => j
  | S fuel' => if (q <=? p * 10 ^ j)%Z then j else scale_up fuel' p q (j + 1)%Z
  end.

(** [decade p q] is the [n] with [10^(n-1) <= p/q < 10^n]. *)
Definition decade (p q : Z) : Z :=
  if (q <=? p)%Z then Z.of_nat (String.length (string_of_Z (p / q)))
  else (1 - scale_up 400 p q 1)%Z.

(** Candidates [(s, n)] with [k] digits next to [p/q], kept when they
    convert back to [x]; the nearer one first. *)
Definition candidates (x : number) (p q n0 k : Z) : list (Z * Z) :=
  let e := (n0 - k)%Z in
  let '(num, den) := if (0 <=? e)%Z then (p, q * 10 ^ e)%Z else (p * 10 ^ (- e), q)%Z in
  let lo := (num / den)%Z in
  let r := (num mod den)%Z in
  let hi := if (lo + 1 =? 10 ^ k)%Z then (10 ^ (k - 1), n0 + 1)%Z else (lo + 1, n0)%Z in
  let lo_first := orb (2 * r <? den)%Z (andb (2 * r =? den)%Z (Z.even lo)) in
  let ordered := if lo_first then [(lo, n0); hi] else [hi; (lo, n0)] in
  filter (fun '(s, n) => bool_decide (of_decimal false s (n - k) = x)) ordered.

Fixpoint shortest (fuel : nat) (x : number) (p q n0 k : Z) : Z * Z * Z :=
  match fuel with
  | O => (0, n0, k)%Z
  | S fuel' =>
      match candidates x p q n0 k with
      | (s, n) :: _ => (s, n, k)
      | [] => shortest fuel' x p q n0 (k + 1)%Z
      end
  end.

Definition render (s n k : Z) : string :=
  let ds := string_of_Z s in
  if ((k <=? n) && (n <=? 21))%Z then (ds ++ zeros (Z.to_nat (n - k)))%string
  else if ((0 <? n) && (n <=? 21))%Z then
    (substring 0 (Z.to_nat n) ds ++ "."
       ++ substring (Z.to_nat n) (Z.to_nat (k - n)) ds)%string
  else if ((-6 <? n) && (n <=? 0))%Z then ("0." ++ zeros (Z.to_nat (- n)) ++ ds)%string
  else
    let ex :=
      ((if (0 <=? n - 1)%Z then "e+" else "e-") ++ string_of_Z (Z.abs (n - 1)))%string in
    if (k =? 1)%Z then (ds ++ ex)%string
    else (substring 0 1 ds ++ "." ++ substring 1 (Z.to_nat (k - 1)) ds ++ ex)%string.

Definition to_string (x : number) : string :=
  match x with
  | S754_nan => "NaN"
  | S754_zero _ => "0"
  | S754_infinity neg => if neg then "-Infinity" else "Infinity"
  | S754_finite neg m e =>
      let '(p, q) := if (0 <=? e)%Z then (Zpos m * 2 ^ e, 1)%Z else (Zpos m, 2 ^ (- e))%Z in
      let n0 := decade p q in
      let '(s, n, k) := shortest 17 (S754_finite false m e) p q n0 1 in
      ((if neg then "-" else "") ++ render s n k)%string
  end.

Definition of_N (n : N) : number := of_decimal false (Z.of_N n) 0.

End JSNumber.

(** ** JavaScript values and the heap *)

Module JS.
Import JSNumber.

Abbreviation loc := nat.

(** Primitive values. *)
Inductive prim :=
  | PUndefined
  | PNull
  | PBool (b : bool)
  | PNumber (n : number)
  | PString (s : string).

(** A value is a primitive or a reference to an object of the heap. *)
Inductive value :=
  | VPrim (p : prim)
  | VObject (l : loc).

Coercion VPrim : prim >-> value.

#[global] Instance prim_eq_dec : EqDecision prim.
Proof. solve_decision. Defined.
#[global] Instance value_eq_dec : EqDecision value.
Proof. solve_decision. Defined.

(** Own properties in insertion order.  JavaScript enumerates the keys
    that are array indices first, in ascending order, and the other keys
    in insertion order after them: the two orders are the same for an
    object none of whose keys is an array index.  Arrays carry their
    elements (a hole reads as [undefined], and is stored as such) and,
    like any object, named properties. *)
Abbreviation props := (list (string * value)).

Inductive object :=
  | Obj (ps : props)
  | Arr (es : list value) (ps : props).

Abbreviation heap := (list object).

Inductive error := TypeError | RangeError | SyntaxError.

(** [Unmodelled] marks behaviour outside this model: the prototype chain
    (an inherited [__proto__]), the [length] of an array written through a
    property key, and dangling references.  The heap that comes with it
    stands for nothing: the code goes on from there (a read of an
    inherited [__proto__] yields [Object.prototype], which the mutator may
    then write to), and the model does not follow it. *)
Inductive result (A : Type) :=
  | Ok (a : A)
  | Throw (e : error)
  | Unmodelled.
Arguments Ok {A} a.
Arguments Throw {A} e.
Arguments Unmodelled {A}.

(** Computations on the heap: the heap is threaded through, also past a
    throw, because what was mutated before it stays mutated. *)
Definition M (A : Type) : Type := heap -> result A * heap.

Definition ret {A} (a : A) : M A := fun h => (Ok a, h).
Definition throw {A} (e : error) : M A := fun h => (Throw e, h).
Definition unmodelled {A} : M A := fun h => (Unmodelled, h).
Definition bind {A B} (m : M A) (k : A -> M B) : M B :=
  fun h =>
    match m h with
    | (Ok a, h') => k a h'
    | (Throw e, h') => (Throw e, h')
    | (Unmodelled, h') => (Unmodelled, h')
    end.

Notation "'let*' x ':=' m 'in' k" := (bind m (fun x => k))
  (at level 10, x name, m at level 100, k at level 200).
Notation "'do' m 'then' k" := (bind m (fun _ => k))
  (at level 10, m at level 100, k at level 200).

(** Runs [f] on the elements of a list, from left to right. *)
Definition traverse {A B} (f : A -> M B) : list A -> M (list B) :=
  fix go (l : list A) : M (list B) :=
    match l with
    | [] => ret []
    | x :: l' =>
        let* y := f x in
        let* ys := go l' in
        ret (y :: ys)
    end.

(** *** Association lists *)

Fixpoint alookup {A} (k : string) (ps : list (string * A)) : option A :=
  match ps with
  | [] => None
  | (k', v) :: ps' => if String.eqb k k' then Some v else alookup k ps'
  end.

(** Overwrites the binding of [k] in place, or appends a new one. *)
Fixpoint aset {A} (k : string) (v : A) (ps : list (string * A)) : list (string * A) :=
  match ps with
  | [] => [(k, v)]
  | (k', v') :: ps' =>
      if String.eqb k k' then (k, v) :: ps' else (k', v') :: aset k v ps'
  end.

(** *** Property keys *)

(** A key is an array index when it is the canonical decimal rendering of
    an integer below [2^32 - 1]. *)
Definition array_index (k : string) : option nat :=
  match read_digits 10 k 0 0 with
  | (v, cnt, EmptyString) =>
      if ((0 <? cnt)%Z && String.eqb (string_of_Z v) k && (v <? 2 ^ 32 - 1)%Z)%bool
      then Some (Z.to_nat v) else None
  | _ => None
  end.

Definition proto_key : string := "__proto__".
Definition length_key : string := "length".

Definition is_nullish (v : value) : bool :=
  match v with
  | VPrim PUndefined | VPrim PNull => true
  | _ => false
  end.

(** [typeof v === "object"]: the heap holds no functions, and [typeof null]
    is ["object"] too. *)
Definition typeof_object (v : value) : bool :=
  match v with
  | VObject _ | VPrim PNull => true
  | _ => false
  end.

(** A named read.  A property that is not an own property reads as
    [undefined]: the inherited ones are methods, which the callers below
    overwrite like [undefined] (they are not [null] and not of type
    ["object"]), except [__proto__], which is an object: the prototype,
    which the heap does not hold.  That read is outside the model. *)
Definition named_get (k : string) (ps : props) : result value :=
  match alookup k ps with
  | Some v => Ok v
  | None => if String.eqb k proto_key then Unmodelled else Ok (VPrim PUndefined)
  end.

(** [o[k]].  On [undefined] and [null] the read throws.  On another
    primitive it yields a primitive (a character, a length) or
    [undefined]; the callers below overwrite all of these alike, so they
    read as [undefined] here. *)
Definition get_prop (o : value) (k : string) : M value :=
  fun h =>
    match o with
    | VPrim PUndefined | VPrim PNull => (Throw TypeError, h)
    | VPrim _ => (if String.eqb k proto_key then Unmodelled else Ok (VPrim PUndefined), h)
    | VObject l =>
        match h !! l with
        | Some (Obj ps) => (named_get k ps, h)
        | Some (Arr es ps) =>
            match array_index k with
            | Some i => (Ok (nth i es (VPrim PUndefined)), h)
            | None =>
                if String.eqb k length_key
                then (Ok (VPrim (PNumber (of_N (N.of_nat (length es))))), h)
                else (named_get k ps, h)
            end
        | None => (Unmodelled, h)
        end
    end.

(** Writes element [i], extending the array with holes when needed. *)
Definition set_elem (i : nat) (v : value) (es : list value) : list value :=
  if (i <? length es)%nat then <[i:=v]> es
  else es ++ replicate (i - length es) (VPrim PUndefined) ++ [v].

(** A named write.  Assigning a primitive other than [null] to an
    inherited [__proto__] is ignored by its setter.  A new key is put
    last, which is where JavaScript enumerates it unless it is an array
    index. *)
Definition named_set (k : string) (v : value) (ps : props) : result props :=
  if (String.eqb k proto_key && negb (bool_decide (is_Some (alookup k ps))))%bool then
    match v with
    | VPrim PNull | VObject _ => Unmodelled
    | VPrim _ => Ok ps
    end
  else Ok (aset k v ps).

(** [o[k] = v] in strict mode (the file is an ES module): assigning to a
    property of a primitive throws. *)
Definition set_prop (o : value) (k : string) (v : value) : M unit :=
  fun h =>
    match o with
    | VPrim _ => (if String.eqb k proto_key then
                    match o with
                    | VPrim PUndefined | VPrim PNull => Throw TypeError
                    | _ => Unmodelled
                    end
                  else Throw TypeError, h)
    | VObject l =>
        match h !! l with
        | Some (Obj ps) =>
            match named_set k v ps with
            | Ok ps' => (Ok tt, <[l:=Obj ps']> h)
            | Throw e => (Throw e, h)
            | Unmodelled => (Unmodelled, h)
            end
        | Some (Arr es ps) =>
            match array_index k with
            | Some i => (Ok tt, <[l:=Arr (set_elem i v es) ps]> h)
            | None =>
                if String.eqb k length_key then (Unmodelled, h)
                else
                  match named_set k v ps with
                  | Ok ps' => (Ok tt, <[l:=Arr es ps']> h)
                  | Throw e => (Throw e, h)
                  | Unmodelled => (Unmodelled, h)
                  end
            end
        | None => (Unmodelled, h)
        end
    end.

(** Allocation of a fresh object at the end of the heap. *)
Definition new_object (o : object) : M value :=
  fun h => (Ok (VObject (length h)), h ++ [o]).

(** [Array.isArray(v)] *)
Definition isArray (v : value) : M bool :=
  fun h =>
    match v with
    | VObject l =>
        match h !! l with
        | Some (Arr _ _) => (Ok true, h)
        | Some (Obj _) => (Ok false, h)
        | None => (Unmodelled, h)
        end
    | VPrim _ => (Ok false, h)
    end.

(** [String(p)] on a primitive. *)
Definition String_ (p : prim) : string :=
  match p with
  | PUndefined => "undefined"
  | PNull => "null"
  | PBool true => "true"
  | PBool false => "false"
  | PNumber n => to_string n
  | PString s => s
  end.

End JS.

(** ** JSON documents *)

Module JSON.
Import JSNumber JS.

(** The value a JSON text denotes.  The fields of an object are kept in
    the order of the text, which is the order in which [JSON.parse] makes
    them properties; JavaScript's own enumeration order (array-index keys
    first) is not modelled. *)
Inductive json :=
  | JNull
  | JBool (b : bool)
  | JNumber (n : number)
  | JString (s : string)
  | JArray (items : list json)
  | JObject (fields : list (string * json)).

(** The serialized document, up to what [JSON.parse] makes of it: the
    empty string, a non-empty text that [JSON.parse] rejects, or a text
    that parses to [j] (the pretty-printing is not part of the model). *)
Inductive text :=
  | TextEmpty
  | TextMalformed
  | TextJson (j : json).

(** [JSON.parse] builds a fresh object graph for the value of the text. *)
Fixpoint alloc (j : json) : M value :=
  match j with
  | JNull => ret (VPrim PNull)
  | JBool b => ret (VPrim (PBool b))
  | JNumber n => ret (VPrim (PNumber n))
  | JString s => ret (VPrim (PString s))
  | JArray items =>
      let* es := traverse alloc items in
      new_object (Arr es [])
  | JObject fields =>
      let* ps := traverse (fun kv => let* v := alloc kv.2 in ret (kv.1, v)) fields in
      new_object (Obj ps)
  end.

Definition parse (t : text) : M value :=
  match t with
  | TextJson j => alloc j
  | TextEmpty | TextMalformed => throw SyntaxError
  end.

(** [JSON.stringify]: a number that is not finite renders as [null], the
    negative zero as [0]. *)
Definition ser_number (n : number) : json :=
  match n with
  | S754_finite _ _ _ => JNumber n
  | S754_zero _ => JNumber (S754_zero false)
  | _ => JNull
  end.

Definition ser_prim (p : prim) : option json :=
  match p with
  | PUndefined => None
  | PNull => Some JNull
  | PBool b => Some (JBool b)
  | PNumber n => Some (ser_number n)
  | PString s => Some (JString s)
  end.

Section Serialize.
Variable rec : value -> result (option json).

(** Elements of an array: [undefined] (and a hole) renders as [null]. *)
Fixpoint ser_items (es : list value) : result (list json) :=
  match es with
  | [] => Ok []
  | v :: es' =>
      match rec v with
      | Ok o =>
          match ser_items es' with
          | Ok js => Ok (default JNull o :: js)
          | Throw e => Throw e
          | Unmodelled => Unmodelled
          end
      | Throw e => Throw e
      | Unmodelled => Unmodelled
      end
  end.

(** Properties of an object, in the order they are stored in (see
    [props]): one whose value is [undefined] is left out. *)
Fixpoint ser_fields (ps : props) : result (list (string * json)) :=
  match ps with
  | [] => Ok []
  | (k, v) :: ps' =>
      match rec v with
      | Ok o =>
          match ser_fields ps' with
          | Ok fs => Ok (match o with Some j => (k, j) :: fs | None => fs end)
          | Throw e => Throw e
          | Unmodelled => Unmodelled
          end
      | Throw e => Throw e
      | Unmodelled => Unmodelled
      end
  end.
End Serialize.

(** The named properties of an array are not serialized.  A chain of
    nested objects longer than the heap revisits an object, which is the
    cyclic structure [JSON.stringify] rejects with a [TypeError]. *)
Fixpoint ser (fuel : nat) (h : heap) (v : value) : result (option json) :=
  match v with
  | VPrim p => Ok (ser_prim p)
  | VObject l =>
      match fuel with
      | O => Throw TypeError
      | S fuel' =>
          match h !! l with
          | Some (Arr es _) =>
              match ser_items (ser fuel' h) es with
              | Ok js => Ok (Some (JArray js))
              | Throw e => Throw e
              | Unmodelled => Unmodelled
              end
          | Some (Obj ps) =>
              match ser_fields (ser fuel' h) ps with
              | Ok fs => Ok (Some (JObject fs))
              | Throw e => Throw e
              | Unmodelled => Unmodelled
              end
          | None => Unmodelled
          end
      end
  end.

(** [JSON.stringify(v, null, 2)]; [None] is the [undefined] it returns for
    [undefined]. *)
Definition stringify (v : value) : M (option text) :=
  fun h =>
    match ser (length h) h v with
    | Ok o => (Ok (TextJson <$> o), h)
    | Throw e => (Throw e, h)
    | Unmodelled => (Unmodelled, h)
    end.

(** [JSON.parse(s)] of what [JSON.stringify] returned; [undefined] is
    converted to the text ["undefined"], which is rejected. *)
Definition parse_opt (s : option text) : M value :=
  match s with
  | Some t => parse t
  | None => throw SyntaxError
  end.

(** What [JSON.stringify] makes of the value of a text: the same value
    with every negative zero written as [0], and every number that is not
    finite (read from a numeral that overflows, as [1e999]) as [null]. *)
Fixpoint normalize (j : json) : json :=
  match j with
  | JNumber n => ser_number n
  | JArray items => JArray (map normalize items)
  | JObject fields => JObject (map (fun kv => (kv.1, normalize kv.2)) fields)
  | _ => j
  end.

(** A number that [JSON.stringify] writes as it is: a finite number other
    than the negative zero. *)
Definition exact_number (n : number) : bool :=
  match n with
  | S754_finite _ _ _ | S754_zero false => true
  | _ => false
  end.

(** A document all of whose numbers are written as they are. *)
Fixpoint exact_numbers (j : json) : bool :=
  match j with
  | JNumber n => exact_number n
  | JArray items => forallb exact_numbers items
  | JObject fields => forallb (fun kv => exact_numbers kv.2) fields
  | _ => true
  end.

(** [denotes h v j fp]: in the heap [h] the value [v] is a tree of objects
    and arrays, held at the locations [fp] and at no location twice, that
    serializes to [j]. *)
Inductive denotes (h : heap) : value -> json -> gset loc -> Prop :=
  | denotes_prim (p : prim) (j : json) :
      ser_prim p = Some j ->
      denotes h (VPrim p) j ∅
  | denotes_arr (l : loc) (es : list value) (ps : props) (js : list json) (fp : gset loc) :
      h !! l = Some (Arr es ps) ->
      denotes_list h es js fp ->
      l ∉ fp ->
      denotes h (VObject l) (JArray js) ({[l]} ∪ fp)
  | denotes_obj (l : loc) (ps : props) (fs : list (string * json)) (fp : gset loc) :
      h !! l = Some (Obj ps) ->
      ps.*1 = fs.*1 ->
      denotes_list h ps.*2 fs.*2 fp ->
      l ∉ fp ->
      denotes h (VObject l) (JObject fs) ({[l]} ∪ fp)
with denotes_list (h : heap) : list value -> list json -> gset loc -> Prop :=
  | denotes_nil : denotes_list h [] [] ∅
  | denotes_cons (v : value) (j : json) (fp1 : gset loc)
      (vs : list value) (js : list json) (fp2 : gset loc) :
      denotes h v j fp1 ->
      denotes_list h vs js fp2 ->
      fp1 ## fp2 ->
      denotes_list h (v :: vs) (j :: js) (fp1 ∪ fp2).

Scheme denotes_mut := Minimality for denotes Sort Prop
  with denotes_list_mut := Minimality for denotes_list Sort Prop.

(** [fresh_tree h h' v j]: from [h], [v] was built as a tree for [j] in
    new objects at the end of the heap. *)
Definition fresh_tree (h h' : heap) (v : value) (j : json) : Prop :=
  exists (hj : heap) (fp : gset loc),
    h' = h ++ hj /\ denotes h' v j fp /\ forall l, l ∈ fp -> length h <= l.

End JSON.

(** ** The node modal *)

Module NodeModal.
Import JSNumber JS JSON.

(** *** [parsePrimitive] *)

Definition parsePrimitive (v : string) : prim :=
  if String.eqb v "true" then PBool true
  else if String.eqb v "false" then PBool false
  else if String.eqb v "null" then PNull
  else if String.eqb v "" then PString ""
  else
    let n := Number v in
    if (negb (isNaN n) && String.eqb (String_ (PNumber n)) v)%bool then PNumber n
    else PString v.

(** *** [setValueAtPath] *)

(** A path segment: an array index or an object key. *)
Inductive segment :=
  | SegNum (n : N)
  | SegStr (s : string).

Definition is_number (seg : segment) : bool :=
  match seg with SegNum _ => true | SegStr _ => false end.

(** The property key [o[seg]] uses. *)
Definition ToPropertyKey (seg : segment) : string :=
  match seg with
  | SegNum n => to_string (of_N n)
  | SegStr s => s
  end.

(** [typeof nextSeg === "number" ? [] : {}] *)
Definition container_for (nextSeg : segment) : object :=
  if is_number nextSeg then Arr [] [] else Obj [].

(** The loop over all segments but the last, with the final assignment.
    [cur] is the local cursor of the source. *)
Fixpoint walk (cur : value) (path : list segment) (replacement : value) : M unit :=
  match path with
  | [] => ret tt
  | [last] => set_prop cur (ToPropertyKey last) replacement
  | seg :: ((nextSeg :: _) as rest) =>
      let key := ToPropertyKey seg in
      if is_number seg then
        let* arr := isArray cur in
        let* cur := (if arr then ret cur else new_object (Arr [] [])) in
        let* c := get_prop cur key in
        do (if is_nullish c then
              let* fresh := new_object (container_for nextSeg) in
              set_prop cur key fresh
            else ret tt) then
        let* cur := get_prop cur key in
        walk cur rest replacement
      else
        let* c := get_prop cur key in
        let* replace :=
          (if is_nullish c then ret true
           else let* c' := get_prop cur key in ret (negb (typeof_object c'))) in
        do (if replace : bool then
              let* fresh := new_object (container_for nextSeg) in
              set_prop cur key fresh
            else ret tt) then
        let* cur := get_prop cur key in
        walk cur rest replacement
  end.

Definition setValueAtPath (obj : value) (path : option (list segment))
    (replacement : value) : M value :=
  match path with
  | None | Some [] => ret replacement
  | Some p => do walk obj p replacement then ret obj
  end.

(** *** Node snapshots and the edit form *)

(** Modelled from the spec: the row and node types of [types/graph], which
    is not part of the sources at hand.  A row has an optional key, a
    scalar value and a type tag; a node has its rows and its path.  The
    fields [value] and [text] of the source are [value_] and [text_]. *)
Record NodeRow := {
  key : option string;
  value_ : prim;
  type : string;
}.

Record NodeData := {
  text_ : list NodeRow;
  path : option (list segment);
}.

(** [Record<string, string>]: an object used as a map. *)
Abbreviation record := (list (string * string)).

(** [values[k] = v] with a string [v]; the inherited setter of
    [__proto__] ignores it. *)
Definition record_set (k v : string) (f : record) : record :=
  if (String.eqb k proto_key && negb (bool_decide (is_Some (alookup k f))))%bool then f
  else aset k v f.

Definition hasOwnProperty (f : record) (k : string) : bool :=
  bool_decide (is_Some (alookup k f)).

(** [!k] on an optional key. *)
Definition falsy_key (k : option string) : bool :=
  match k with
  | Some s => String.eqb s ""
  | None => true
  end.

(** [r.type !== "array" && r.type !== "object"] *)
Definition scalar_row (r : NodeRow) : bool :=
  (negb (String.eqb (type r) "array") && negb (String.eqb (type r) "object"))%bool.

(** [String(v ?? "")] *)
Definition display (v : prim) : string :=
  match v with
  | PUndefined | PNull => ""
  | _ => String_ v
  end.

(** The body of [forEach] in the effect. *)
Definition populate_row (values : record) (r : NodeRow) : record :=
  match key r with
  | Some k =>
      if (scalar_row r && negb (falsy_key (key r)))%bool
      then record_set k (display (value_ r)) values
      else values
  | None => values
  end.

(** The effect that populates the form when editing starts or the node
    changes. *)
Definition populate (isEditing : bool) (nodeData : option NodeData) : record :=
  match nodeData with
  | Some nd =>
      if negb isEditing then []
      else
        match text_ nd with
        | [r] =>
            if falsy_key (key r) then [("", display (value_ r))]
            else fold_left populate_row [r] []
        | rows => fold_left populate_row rows []
        end
  | None => []
  end.

(** *** [handleSave] *)

(** The callback of [map] that builds the new rows. *)
Definition new_row (form : record) (r : NodeRow) : NodeRow :=
  match key r with
  | Some k =>
      if (scalar_row r && negb (falsy_key (key r)) && hasOwnProperty form k)%bool
      then {| key := key r; value_ := PString (default "" (alookup k form)); type := type r |}
      else r
  | None =>
      if hasOwnProperty form ""
      then {| key := key r; value_ := PString (default "" (alookup "" form)); type := type r |}
      else r
  end.

(** [Object.entries(form).forEach(([k, v]) => { obj[k] = parsePrimitive(v); })] *)
Fixpoint fill (obj : value) (entries : record) : M unit :=
  match entries with
  | [] => ret tt
  | (k, v) :: rest =>
      do set_prop obj k (VPrim (parsePrimitive v)) then
      fill obj rest
  end.

(** The replacement value of the node. *)
Definition build_replacement (nodeData : NodeData) (form : record)
    (newRows : list NodeRow) : M value :=
  let scalar_node :=
    match text_ nodeData with
    | [r] => bool_decide (key r = None)
    | _ => false
    end in
  if scalar_node then
    let v :=
      match alookup "" form with
      | Some s => s
      | None => display (default PUndefined (value_ <$> head newRows))
      end in
    ret (VPrim (parsePrimitive v))
  else
    let* obj := new_object (Obj []) in
    do fill obj form then
    ret obj.

(** [raw ? JSON.parse(raw) : {}] *)
Definition load_root (raw : text) : M value :=
  match raw with
  | TextEmpty => new_object (Obj [])
  | _ => parse raw
  end.

Definition nonempty_path (p : option (list segment)) : bool :=
  match p with
  | Some (_ :: _) => true
  | _ => false
  end.

(** The remainder of the [try] block once the root is parsed: the
    replacement, the deep clone, the mutation and the text to store. *)
Definition persist_from (root : value) (nodeData : NodeData) (form : record)
    (newRows : list NodeRow) : M text :=
  let* replacement := build_replacement nodeData form newRows in
  let* s := stringify root in
  let* newRoot := parse_opt s in
  let* final := setValueAtPath newRoot (path nodeData) replacement in
  let toSave := if nonempty_path (path nodeData) then final else replacement in
  let* out := stringify toSave in
  match out with
  | Some t => ret t
  | None => unmodelled
  end.

Definition persist (raw : text) (nodeData : NodeData) (form : record)
    (newRows : list NodeRow) : M text :=
  let* root := load_root raw in
  persist_from root nodeData form newRows.

(** The mutator as [handleSave] runs it, under the comment [operate on a
    deep clone]: on [JSON.parse(JSON.stringify(root))]. *)
Definition install (root : value) (path : option (list segment))
    (replacement : value) : M value :=
  let* s := stringify root in
  let* newRoot := parse_opt s in
  setValueAtPath newRoot path replacement.

(** What the handlers do to the stores, in order. *)
Inductive event :=
  | UpdateSelectedNode (nd : NodeData)
  | GetJson
  | SetJson (t : text)
  | ConsoleError (e : error)
  | SetIsEditing (b : bool).

(** The component state with the two stores it talks to.

    Modelled from the spec: the selection store ([useGraph]) holds the
    selected node and offers an operation that replaces it; the document
    store ([useJson]) holds the text, read with [getJson] and replaced
    with [setJson].  Neither store is part of the sources at hand. *)
Record state := {
  selectedNode : option NodeData;
  json_text : text;
  isEditing : bool;
  form : record;
  trace : list event;
}.

(** [{ ...nodeData, text: newRows }] *)
Definition updated_node (form : record) (nodeData : NodeData) : NodeData :=
  {| text_ := map (new_row form) (text_ nodeData); path := path nodeData |}.

Definition handleSave (st : state) : option state :=
  match selectedNode st with
  | None => Some st
  | Some nodeData =>
      let updated := updated_node (form st) nodeData in
      let before := trace st ++ [UpdateSelectedNode updated; GetJson] in
      match fst (persist (json_text st) nodeData (form st) (text_ updated) []) with
      | Ok t =>
          Some {| selectedNode := Some updated; json_text := t; isEditing := false;
                  form := form st;
                  trace := before ++ [SetJson t; SetIsEditing false] |}
      | Throw e =>
          Some {| selectedNode := Some updated; json_text := json_text st;
                  isEditing := false; form := form st;
                  trace := before ++ [ConsoleError e; SetIsEditing false] |}
      | Unmodelled => None
      end
  end.

(** *** The edit session *)

(** The effect runs after a render in which [isEditing] or the selected
    node changed. *)
Definition effect (st : state) : state :=
  {| selectedNode := selectedNode st; json_text := json_text st;
     isEditing := isEditing st;
     form := populate (isEditing st) (selectedNode st);
     trace := trace st |}.

(** The Edit button is disabled while editing or without a node. *)
Definition startEditing (st : state) : state :=
  if (isEditing st || negb (bool_decide (is_Some (selectedNode st))))%bool then st
  else
    effect {| selectedNode := selectedNode st; json_text := json_text st;
              isEditing := true; form := form st;
              trace := trace st ++ [SetIsEditing true] |}.

Definition cancelEditing (st : state) : state :=
  effect {| selectedNode := selectedNode st; json_text := json_text st;
            isEditing := false; form := form st;
            trace := trace st ++ [SetIsEditing false] |}.

(** [setForm(prev => ({ ...prev, [key]: value }))] *)
Definition handleChange (k v : string) (st : state) : state :=
  {| selectedNode := selectedNode st; json_text := json_text st;
     isEditing := isEditing st; form := aset k v (form st);
     trace := trace st |}.

(** A click on Save: the handler, then the effect when the handler
    changed the state (it does not without a node). *)
Definition save (st : state) : option state :=
  match selectedNode st with
  | None => handleSave st
  | Some _ => effect <$> handleSave st
  end.

(** [nodeData.text?.length === 1 && !nodeData.text[0].key]: the node is
    shown as a single value. *)
Definition single_value (nd : NodeData) : bool :=
  match text_ nd with
  | [r] => falsy_key (key r)
  | _ => false
  end.

(** The rows that put their key in the form. *)
Definition contributes (k : string) (r : NodeRow) : Prop :=
  scalar_row r = true /\ key r = Some k /\ k <> "".

(** The keys of the form as the specification words them: the keys of the
    rows that are neither objects nor arrays, or the empty key alone for a
    single keyless row. *)
Definition spec_form_keys (nd : NodeData) : list string :=
  match text_ nd with
  | [ {| key := None |} ] => [""]
  | rows => omap key (filter (fun r => scalar_row r = true) rows)
  end.

End NodeModal.

(** ** Paths into a document *)

Module Document.
Import JSNumber JS JSON NodeModal.

(** The child of a value under a segment: a numeric segment selects the
    element of an array whose index is the key of the segment, a string
    segment selects the field of an object. *)
Definition child (j : json) (seg : segment) : option json :=
  match seg, j with
  | SegNum _, JArray items =>
      match array_index (ToPropertyKey seg) with
      | Some i => items !! i
      | None => None
      end
  | SegStr s, JObject fields => alookup s fields
  | _, _ => None
  end.

(** The value a path leads to. *)
Fixpoint lookup_json (j : json) (p : list segment) : option json :=
  match p with
  | [] => Some j
  | seg :: rest =>
      match child j seg with
      | Some c => lookup_json c rest
      | None => None
      end
  end.

(** The document with the value at an existing path replaced. *)
Fixpoint update_json (j : json) (p : list segment) (r : json) : option json :=
  match p with
  | [] => Some r
  | seg :: rest =>
      match child j seg with
      | Some c =>
          match update_json c rest r with
          | Some c' =>
              match seg, j with
              | SegNum _, JArray items =>
                  match array_index (ToPropertyKey seg) with
                  | Some i => Some (JArray (<[i:=c']> items))
                  | None => None
                  end
              | SegStr s, JObject fields => Some (JObject (aset s c' fields))
              | _, _ => None
              end
          | None => None
          end
      | None => None
      end
  end.

(** The field a keyed row stands for. *)
Definition row_field (r : NodeRow) : option (string * json) :=
  match key r, ser_prim (value_ r) with
  | Some k, Some j => Some (k, j)
  | _, _ => None
  end.

(** The value a node with scalar rows stands for: the value of its single
    keyless row, or the object of its keyed rows. *)
Definition node_json (nd : NodeData) : option json :=
  match text_ nd with
  | [ {| key := None; value_ := v |} ] => ser_prim v
  | rows => JObject <$> mapM row_field rows
  end.

(** A row whose value is given back by the coercion of its own text. *)
Definition stable_row (r : NodeRow) : Prop :=
  scalar_row r = true /\ parsePrimitive (display (value_ r)) = value_ r.

(** The keys of the keyed rows of a node: none is [__proto__], no two are
    the same, and the empty key is the key of a lone row at most. *)
Definition plain_keys (rows : list NodeRow) : Prop :=
  NoDup (omap key rows)
  /\ Forall (fun r => key r <> Some proto_key) rows
  /\ (Forall (fun r => key r <> Some "") rows \/ length rows = 1).

(** The segments of an optional path. *)
Definition path_segments (p : option (list segment)) : list segment := default [] p.

(** The form entry and the property a keyed row gives rise to. *)
Definition row_entry (r : NodeRow) : string * string :=
  (default "" (key r), display (value_ r)).

Definition row_prop (r : NodeRow) : string * value :=
  (default "" (key r), VPrim (value_ r)).

(** A keyed row of a plain node. *)
Definition keyed_row (r : NodeRow) : Prop :=
  exists k, key r = Some k /\ k <> proto_key /\ stable_row r.

(** The properties of an object all of whose values are scalars. *)
Definition scalar_props (ps : props) : Prop :=
  Forall (fun kv => exists p j, kv.2 = VPrim p /\ ser_prim p = Some j) ps.

End Document.

(** ** What a computation may write to *)

Module Frame.
Import JS.

(** The values an object holds. *)
Definition obj_values (o : object) : list value :=
  match o with
  | Obj ps => ps.*2
  | Arr es ps => es ++ ps.*2
  end.

(** A value that does not refer below [n]. *)
Definition above (n : nat) (v : value) : Prop :=
  match v with
  | VObject l => n <= l
  | VPrim _ => True
  end.

(** The objects from [n] on refer to objects from [n] on only. *)
Definition closed (n : nat) (h : heap) : Prop :=
  forall (l : loc) (o : object), n <= l -> h !! l = Some o -> Forall (above n) (obj_values o).

(** [h'] has grown from [h] with the objects below [n] as they were. *)
Definition same_below (n : nat) (h h' : heap) : Prop :=
  length h <= length h' /\ forall l, l < n -> h' !! l = h !! l.

(** [keeps n m Q]: from a heap closed from [n] on, [m] leaves the objects
    below [n] as they are, and when it returns the heap is still closed and
    the result satisfies [Q]. *)
Definition keeps {A} (n : nat) (m : M A) (Q : A -> Prop) : Prop :=
  forall (h h' : heap) (res : result A),
    n <= length h -> closed n h -> m h = (res, h') ->
    same_below n h h' /\ forall a, res = Ok a -> closed n h' /\ Q a.

(** The same without the promise on the heap afterwards. *)
Definition spares {A} (n : nat) (m : M A) : Prop :=
  forall (h h' : heap) (res : result A),
    n <= length h -> closed n h -> m h = (res, h') -> same_below n h h'.

(** A computation that leaves the heap as it is. *)
Definition reads {A} (m : M A) : Prop :=
  forall (h h' : heap) (res : result A), m h = (res, h') -> h' = h.





End Frame.

(** ** Sample documents and nodes *)

Module Examples.
Import JSNumber JS JSON NodeModal.

(** The document of the overwrite example, [{"x": [1, 2, 3]}]. *)
Definition x123 : json :=
  JObject [("x", JArray [JNumber (of_N 1); JNumber (of_N 2); JNumber (of_N 3)])].

(** A node with an empty key and the key [a]. *)
Definition two_rows : NodeData :=
  {| text_ := [ {| key := Some ""; value_ := PNumber (of_N 1); type := "number" |};
                {| key := Some "a"; value_ := PNumber (of_N 2); type := "number" |} ];
     path := Some [] |}.

(** A node of one string that reads as a number, and its document. *)
Definition user_age : NodeData :=
  {| text_ := [ {| key := Some "age"; value_ := PString "42"; type := "string" |} ];
     path := Some [SegStr "user"] |}.

Definition user_doc : json := JObject [("user", JObject [("age", JString "42")])].

(** A node of one number, and its document. *)
Definition user_years : NodeData :=
  {| text_ := [ {| key := Some "years"; value_ := PNumber (of_N 42); type := "number" |} ];
     path := Some [SegStr "user"] |}.

Definition user_years_doc : json := JObject [("user", JObject [("years", JNumber (of_N 42))])].

(** A node with a scalar row and an array row, whatever the summary [v]
    the array row shows, under the key [a] of its document. *)
Definition nested_node (v : prim) : NodeData :=
  {| text_ := [ {| key := Some "b"; value_ := PNumber (of_N 1); type := "number" |};
                {| key := Some "c"; value_ := v; type := "array" |} ];
     path := Some [SegStr "a"] |}.

Definition nested_doc : json :=
  JObject [("a", JObject [("b", JNumber (of_N 1));
                          ("c", JArray [JNumber (of_N 1); JNumber (of_N 2)])])].

(** A node whose only row is [null]. *)
Definition null_node : NodeData :=
  {| text_ := [ {| key := Some "a"; value_ := PNull; type := "null" |} ];
     path := Some [] |}.

(** The session on a node before editing starts. *)
Definition viewing (nd : NodeData) (t : text) : state :=
  {| selectedNode := Some nd; json_text := t; isEditing := false; form := []; trace := [] |}.

End Examples.

(** ** What the modal shows *)

Module Display.
Import JSNumber JS JSON NodeModal.

Definition dquote : string := String "034"%char "".
Definition backslash : string := String "092"%char "".
Definition newline : string := String "010"%char "".

(** [Array.prototype.join] on an array of strings. *)
Fixpoint join (sep : string) (l : list string) : string :=
  match l with
  | [] => ""
  | [s] => s
  | s :: l' => (s ++ sep ++ join sep l')%string
  end.

(** *** [jsonPathToString] *)

(** The callback of [map], followed by the [String] that [join] applies:
    a number is written in decimal, a string between double quotes as it
    is. *)
Definition show_segment (seg : segment) : string :=
  match seg with
  | SegNum n => to_string (of_N n)
  | SegStr s => (dquote ++ s ++ dquote)%string
  end.

Definition jsonPathToString (path : option (list segment)) : string :=
  match path with
  | None | Some [] => "$"
  | Some p => ("$[" ++ join "][" (map show_segment p) ++ "]")%string
  end.

(** One pair of brackets for each segment. *)
Definition brackets (p : list segment) : string :=
  fold_right (fun seg acc => ("[" ++ show_segment seg ++ "]" ++ acc)%string) "" p.

(** *** The text [JSON.stringify(v, null, 2)] writes *)

Definition hex_digit (n : nat) : string :=
  match String.get n "0123456789abcdef" with
  | Some c => String c ""
  | None => ""
  end.

(** QuoteJSONString (ECMA-262, 25.5.2.3) on one character.  Strings are
    taken as UTF-8, in which no lone surrogate occurs. *)
Definition quote_char (c : ascii) : string :=
  let n := nat_of_ascii c in
  if Nat.eqb n 8 then (backslash ++ "b")%string
  else if Nat.eqb n 9 then (backslash ++ "t")%string
  else if Nat.eqb n 10 then (backslash ++ "n")%string
  else if Nat.eqb n 12 then (backslash ++ "f")%string
  else if Nat.eqb n 13 then (backslash ++ "r")%string
  else if Nat.eqb n 34 then (backslash ++ dquote)%string
  else if Nat.eqb n 92 then (backslash ++ backslash)%string
  else if (n <? 32)%nat then
    (backslash ++ "u00" ++ hex_digit (n / 16) ++ hex_digit (n mod 16))%string
  else String c "".

Fixpoint quote_body (s : string) : string :=
  match s with
  | EmptyString => ""
  | String c s' => (quote_char c ++ quote_body s')%string
  end.

Definition quote (s : string) : string := (dquote ++ quote_body s ++ dquote)%string.

(** SerializeJSONProperty with a gap of two spaces, at the indentation
    [indent]. *)
Fixpoint render (indent : string) (j : json) : string :=
  let inner := (indent ++ "  ")%string in
  let sep := ("," ++ newline ++ inner)%string in
  match j with
  | JNull => "null"
  | JBool b => if b then "true" else "false"
  | JNumber n =>
      match n with
      | S754_finite _ _ _ | S754_zero _ => to_string n
      | _ => "null"
      end
  | JString s => quote s
  | JArray items =>
      match items with
      | [] => "[]"
      | _ => ("[" ++ newline ++ inner ++ join sep (map (render inner) items)
                ++ newline ++ indent ++ "]")%string
      end
  | JObject fields =>
      match fields with
      | [] => "{}"
      | _ => ("{" ++ newline ++ inner
                ++ join sep (map (fun kv => (quote kv.1 ++ ": " ++ render inner kv.2)%string)
                               fields)
                ++ newline ++ indent ++ "}")%string
      end
  end.

(** The characters of a text [JSON.stringify] wrote. *)
Definition written (t : text) : option string :=
  match t with
  | TextJson j => Some (render "" j)
  | _ => None
  end.

(** *** [normalizeNodeData] *)

(** The callback of [forEach]. *)
Definition show_row (obj : value) (row : NodeRow) : M unit :=
  if scalar_row row then
    match key row with
    | Some k => if falsy_key (key row) then ret tt else set_prop obj k (VPrim (value_ row))
    | None => ret tt
    end
  else ret tt.

Fixpoint forEach {A} (f : A -> M unit) (l : list A) : M unit :=
  match l with
  | [] => ret tt
  | x :: l' => do f x then forEach f l'
  end.

Definition normalizeNodeData (nodeRows : list NodeRow) : M string :=
  match nodeRows with
  | [] => ret "{}"
  | r :: others =>
      if (bool_decide (others = []) && falsy_key (key r))%bool then ret (String_ (value_ r))
      else
        let* obj := new_object (Obj []) in
        do forEach (show_row obj) nodeRows then
        let* out := stringify obj in
        match out ≫= written with
        | Some s => ret s
        | None => unmodelled
        end
  end.

(** The key under which a row is shown: the key of a row that is neither
    an array nor an object, when it is not empty. *)
Definition field_key (r : NodeRow) : option string :=
  if (scalar_row r && negb (falsy_key (key r)))%bool then key r else None.

(** The field a row is shown as; [JSON.stringify] leaves out a value that
    is [undefined]. *)
Definition shown_field (r : NodeRow) : option (string * json) :=
  match field_key r, ser_prim (value_ r) with
  | Some k, Some j => Some (k, j)
  | _, _ => None
  end.

(** *** Edit mode *)

(** [Object.keys(form).length === 0]: the notice that the node has no
    editable attribute is shown. *)
Definition no_editable_attributes (f : record) : bool :=
  Nat.eqb (length f.*1) 0.

End Display.

(** ** Edits of a document *)

Module Edits.
Import JSNumber JS JSON NodeModal Document.

(** Two paths that part at some segment, with different property keys. *)
Definition diverge (p q : list segment) : Prop :=
  exists (common : list segment) (s s' : segment) (r r' : list segment),
    p = common ++ s :: r /\ q = common ++ s' :: r'
    /\ ToPropertyKey s <> ToPropertyKey s'.

(** The value that holds [j] under a chain of keys. *)
Fixpoint nest (ks : list string) (j : json) : json :=
  match ks with
  | [] => j
  | k :: ks' => JObject [(k, nest ks' j)]
  end.

Definition scalar_json (j : json) : bool :=
  match j with
  | JArray _ | JObject _ => false
  | _ => true
  end.

(** What the coercion of a text serializes to. *)
Definition coerce_json (v : string) : json :=
  default JNull (ser_prim (parsePrimitive v)).

(** What the replacement of a node serializes to. *)
Definition replacement_json (nd : NodeData) (f : record) : json :=
  match text_ nd with
  | [ {| key := None; value_ := v |} ] =>
      coerce_json (default (display v) (alookup "" f))
  | _ => JObject (map (fun kv => (kv.1, coerce_json kv.2)) f)
  end.

(** A run of changes typed into the form. *)
Definition typing (edits : list (string * string)) (st : state) : state :=
  fold_left (fun st kv => handleChange kv.1 kv.2 st) edits st.

(** A well-formed form: no key twice, and no [__proto__]. *)
Definition wf_form (f : record) : Prop :=
  NoDup f.*1 /\ Forall (fun k => k <> proto_key) f.*1.

(** A segment whose key is an ordinary property: not [__proto__], and not
    the [length] of an array. *)
Definition plain_segment (seg : segment) : Prop :=
  ToPropertyKey seg <> proto_key /\ ToPropertyKey seg <> length_key.

(** The container the mutator makes for a segment, once the segment has
    been given the value [v]: an array with holes before an index, an
    array with a named property, or an object. *)
Definition link (seg : segment) (v : value) : object :=
  if is_number seg then
    match array_index (ToPropertyKey seg) with
    | Some i => Arr (replicate i (VPrim PUndefined) ++ [v]) []
    | None => Arr [] [(ToPropertyKey seg, v)]
    end
  else Obj [(ToPropertyKey seg, v)].

(** What a segment is given on the way along a path: the container at
    [n] for the next segment, or the replacement at the end. *)
Definition first_target (rest : list segment) (n : loc) (r : value) : value :=
  match rest with
  | [] => r
  | _ :: _ => VObject n
  end.

(** The containers of a path laid out in the heap: the one of [seg] at
    [l], those of the further segments from [n] on. *)
Fixpoint chain_at (h : heap) (l : loc) (seg : segment) (rest : list segment) (n : loc)
    (r : value) : Prop :=
  h !! l = Some (link seg (first_target rest n r))
  /\ match rest with
     | [] => True
     | s :: rs => chain_at h n s rs (S n) r
     end.

(** The value that holds [j] under a path, in containers made for the
    path: an index puts it after holes, which serialize as [null]; a
    numeric segment that is no index puts it in a named property of an
    array, which is not serialized. *)
Fixpoint nest_path (p : list segment) (j : json) : json :=
  match p with
  | [] => j
  | seg :: rest =>
      if is_number seg then
        match array_index (ToPropertyKey seg) with
        | Some i => JArray (replicate i JNull ++ [nest_path rest j])
        | None => JArray []
        end
      else JObject [(ToPropertyKey seg, nest_path rest j)]
  end.

(** [JSON.parse(JSON.stringify(root))] *)
Definition deep_clone (root : value) : M value :=
  let* s := stringify root in
  parse_opt s.

End Edits.

(** * Properties *)

Import JSNumber JS JSON NodeModal Document Frame Examples.

(** ** Evaluating heap computations *)

Ltac heap_len := repeat rewrite ?length_insert, ?length_app; cbn [length]; lia.

Ltac heap_lookup :=
  repeat first
    [ rewrite list_lookup_insert_eq by heap_len
    | rewrite list_lookup_insert_ne by heap_len
    | rewrite lookup_app_l by heap_len
    | rewrite list_lookup_middle by heap_len ].

Ltac eval_keys :=
  repeat match goal with
  | |- context [array_index ?k] =>
      let v := eval vm_compute in (array_index k) in
      replace (array_index k) with v by (vm_compute; reflexivity)
  end.

Ltac heap_run :=
  unfold bind, get_prop, set_prop, isArray, new_object, ret;
  repeat (heap_lookup; eval_keys; cbn;
          repeat rewrite ?length_insert, ?length_app; cbn [length];
          rewrite ?Nat.add_1_r).

(** ** The scalar coercion *)

(** What the coercion returns, by the shape of the result. *)
Lemma parsePrimitive_cases (v : string) :
  match parsePrimitive v with
  | PBool b => v = if b then "true" else "false"
  | PNull => v = "null"
  | PNumber n => n = Number v /\ isNaN n = false /\ to_string n = v
  | PString s => s = v
  | PUndefined => False
  end.
Proof.
  unfold parsePrimitive.
  destruct (String.eqb_spec v "true") as [->|_]; [reflexivity|].
  destruct (String.eqb_spec v "false") as [->|_]; [reflexivity|].
  destruct (String.eqb_spec v "null") as [->|_]; [reflexivity|].
  destruct (String.eqb_spec v "") as [->|_]; [reflexivity|].
  destruct (isNaN (Number v)) eqn:Hnan; cbn [negb andb]; [reflexivity|].
  cbn [String_].
  destruct (String.eqb_spec (to_string (Number v)) v) as [E|_]; [|reflexivity].
  auto.
Qed.

(** C8: the coercion is a total function into the JSON scalars, it
    satisfies the table of the specification, a number is returned only for
    a text that its own rendering reproduces, and any other text is
    returned as it is. *)
Theorem parsePrimitive_table :
  parsePrimitive "true" = PBool true
  /\ parsePrimitive "false" = PBool false
  /\ parsePrimitive "null" = PNull
  /\ parsePrimitive "" = PString ""
  /\ parsePrimitive "42" = PNumber (of_N 42)
  /\ parsePrimitive "3.14" = PNumber (of_decimal false 314 (-2))
  /\ parsePrimitive "007" = PString "007"
  /\ parsePrimitive "abc" = PString "abc"
  /\ forall v : string,
       match parsePrimitive v with
       | PBool b => v = if b then "true" else "false"
       | PNull => v = "null"
       | PNumber n => n = Number v /\ isNaN n = false /\ to_string n = v
       | PString s => s = v
       | PUndefined => False
       end.
Proof.
  repeat (split; [vm_compute; reflexivity |]).
  exact parsePrimitive_cases.
Qed.

(** The numbers of the table are the binary64 values next to 42 and
    3.14. *)
Example number_42 : of_N 42 = S754_finite false 5910974510923776 (-47).
Proof. vm_compute. reflexivity. Qed.

Example number_3_14 : of_decimal false 314 (-2) = S754_finite false 7070651414971679 (-51).
Proof. vm_compute. reflexivity. Qed.

(** Texts that [Number] accepts and the coercion keeps as strings, and
    texts in exponent form that it takes as numbers. *)
Example parsePrimitive_strings :
  map parsePrimitive ["1.0"; " 42"; "0x10"; "1e5"; "-0"; ".5"; "NaN"]
  = map PString ["1.0"; " 42"; "0x10"; "1e5"; "-0"; ".5"; "NaN"].
Proof. vm_compute. reflexivity. Qed.

Example parsePrimitive_numbers :
  map parsePrimitive ["1e+21"; "1e-7"; "-1.5"; "Infinity"]
  = [PNumber (of_decimal false 1 21); PNumber (of_decimal false 1 (-7));
     PNumber (of_decimal true 15 (-1)); PNumber Infinity].
Proof. vm_compute. reflexivity. Qed.

(** ** The mutator on given roots *)

(** The key of a small index is its decimal rendering. *)
Lemma ToPropertyKey_0 : ToPropertyKey (SegNum 0) = "0".
Proof. vm_compute. reflexivity. Qed.

Lemma ToPropertyKey_2 : ToPropertyKey (SegNum 2) = "2".
Proof. vm_compute. reflexivity. Qed.

(** C7: in the empty object, the path ["a", 2, "b"] creates an array under
    [a], an object at its index 2, and puts the replacement under [b] of
    that object. *)
Theorem setValueAtPath_creates_containers (h : heap) (l : loc) (r : value) :
  h !! l = Some (Obj []) ->
  exists (h' : heap) (la lo : loc),
    setValueAtPath (VObject l) (Some [SegStr "a"; SegNum 2; SegStr "b"]) r h
      = (Ok (VObject l), h')
    /\ get_prop (VObject l) "a" h' = (Ok (VObject la), h')
    /\ isArray (VObject la) h' = (Ok true, h')
    /\ get_prop (VObject la) (ToPropertyKey (SegNum 2)) h' = (Ok (VObject lo), h')
    /\ isArray (VObject lo) h' = (Ok false, h')
    /\ get_prop (VObject lo) "b" h' = (Ok r, h').
Proof.
  intros Hl.
  assert (Hlt : l < length h) by (eapply lookup_lt_Some; eauto).
  exists (<[S (length h) := Obj [("b", r)]]>
            (<[length h := Arr [VPrim PUndefined; VPrim PUndefined; VObject (S (length h))] []]>
               (<[l := Obj [("a", VObject (length h))]]> (h ++ [Arr [] []]) ++ [Obj []]))),
    (length h), (S (length h)).
  rewrite ToPropertyKey_2.
  split.
  { unfold setValueAtPath, walk. rewrite ToPropertyKey_2.
    cbn [ToPropertyKey is_number]. unfold bind, get_prop. rewrite Hl.
    heap_run. rewrite Hl. heap_run. reflexivity. }
  repeat split; heap_run; reflexivity.
Qed.

Lemma setValueAtPath_creates_containers_witness :
  exists (h' : heap) (la lo : loc),
    setValueAtPath (VObject 0) (Some [SegStr "a"; SegNum 2; SegStr "b"])
        (VPrim (PString "v")) [Obj []]
      = (Ok (VObject 0), h')
    /\ get_prop (VObject 0) "a" h' = (Ok (VObject la), h')
    /\ isArray (VObject la) h' = (Ok true, h')
    /\ get_prop (VObject la) (ToPropertyKey (SegNum 2)) h' = (Ok (VObject lo), h')
    /\ isArray (VObject lo) h' = (Ok false, h')
    /\ get_prop (VObject lo) "b" h' = (Ok (VPrim (PString "v")), h').
Proof.
  apply (setValueAtPath_creates_containers [Obj []] 0 (VPrim (PString "v"))).
  reflexivity.
Defined.

(** C1: a string segment that meets an array descends into the array; the
    array stays where it was, the replacement becomes a named property of
    it, and the serialized root is what it was before the call. *)
Theorem setValueAtPath_keeps_array (r : value) :
  exists (root : value) (lx : loc) (h' : heap),
    (let* root := parse (TextJson x123) in
     let* final := setValueAtPath root (Some [SegStr "x"; SegStr "y"]) r in
     ret (root, final)) [] = (Ok (root, root), h')
    /\ get_prop root "x" h' = (Ok (VObject lx), h')
    /\ isArray (VObject lx) h' = (Ok true, h')
    /\ get_prop (VObject lx) "0" h' = (Ok (VPrim (PNumber (of_N 1))), h')
    /\ get_prop (VObject lx) "y" h' = (Ok r, h')
    /\ stringify root h' = (Ok (Some (TextJson x123)), h').
Proof.
  exists (VObject 1), 0,
    [Arr [VPrim (PNumber (of_N 1)); VPrim (PNumber (of_N 2)); VPrim (PNumber (of_N 3))]
         [("y", r)];
     Obj [("x", VObject 0)]].
  repeat split; vm_compute; reflexivity.
Qed.

(** C2: with a numeric first segment over a root that is not an array, the
    fresh array is bound to the cursor only.  The replacement ends up in
    objects that nothing refers to, and the root is returned as it was. *)
Theorem setValueAtPath_detached_array (h : heap) (obj r : value) :
  isArray obj h = (Ok false, h) ->
  setValueAtPath obj (Some [SegNum 0; SegStr "a"]) r h
    = (Ok obj, h ++ [Arr [VObject (S (length h))] []; Obj [("a", r)]]).
Proof.
  intros Harr. unfold setValueAtPath, walk. rewrite ToPropertyKey_0.
  cbn [ToPropertyKey is_number]. unfold bind at 1 2. rewrite Harr.
  heap_run.
  rewrite <- app_assoc. cbn [app].
  rewrite insert_app_r_alt by lia. rewrite Nat.sub_diag. cbn [list_insert].
  rewrite insert_app_r_alt by lia.
  replace (S (length h) - length h) with 1 by lia. reflexivity.
Qed.

Lemma setValueAtPath_detached_array_witness :
  setValueAtPath (VObject 0) (Some [SegNum 0; SegStr "a"]) (VPrim (PString "v")) [Obj []]
    = (Ok (VObject 0), [Obj []; Arr [VObject 2] []; Obj [("a", VPrim (PString "v"))]]).
Proof.
  apply (setValueAtPath_detached_array [Obj []] (VObject 0) (VPrim (PString "v"))).
  reflexivity.
Defined.

(** By itself the mutator writes into the object it is given, as its
    comment says ([Mutates obj]): it does not leave every object of the
    heap as it was.  The copy is made by [handleSave], which hands it a
    clone (see [install]). *)
Example setValueAtPath_mutates_its_argument :
  ~ (forall (h h' : heap) (obj r v : value) (p : list segment),
       p <> [] ->
       setValueAtPath obj (Some p) r h = (Ok v, h') ->
       forall (l : loc) (o : object), h !! l = Some o -> h' !! l = Some o).
Proof.
  intros H.
  specialize (H [Obj []] [Obj [("a", VPrim (PBool true))]] (VObject 0)
                (VPrim (PBool true)) (VObject 0) [SegStr "a"]).
  assert (Hp : [SegStr "a"] <> []) by discriminate.
  specialize (H Hp eq_refl 0 (Obj []) eq_refl).
  discriminate H.
Qed.

(** ** The edit form *)

Lemma aset_keys {A} (k k' : string) (v : A) (f : list (string * A)) :
  k' ∈ (aset k v f).*1 <-> k' = k \/ k' ∈ f.*1.
Proof.
  induction f as [|[k0 v0] f IH]; cbn.
  - rewrite list_elem_of_singleton, elem_of_nil. tauto.
  - destruct (String.eqb_spec k k0) as [->|Hne]; cbn.
    + rewrite !elem_of_cons. tauto.
    + rewrite !elem_of_cons, IH. tauto.
Qed.

Lemma record_set_keys (k k' v : string) (f : record) :
  k <> proto_key ->
  k' ∈ (record_set k v f).*1 <-> k' = k \/ k' ∈ f.*1.
Proof.
  intros Hk. unfold record_set.
  destruct (String.eqb_spec k proto_key) as [E|_]; [contradiction|].
  cbn [andb]. apply aset_keys.
Qed.

Lemma populate_row_keys (rows : list NodeRow) (acc : record) (k : string) :
  Forall (fun r => key r <> Some proto_key) rows ->
  k ∈ (fold_left populate_row rows acc).*1
  <-> k ∈ acc.*1 \/ exists r, r ∈ rows /\ contributes k r.
Proof.
  revert acc. induction rows as [|r rows IH]; intros acc Hproto; cbn [fold_left].
  - split; [auto|]. intros [H|(r & Hr & _)]; [exact H|]. inversion Hr.
  - apply Forall_cons in Hproto as [Hr Hrows].
    rewrite (IH _ Hrows). unfold populate_row at 1, contributes.
    destruct (key r) as [kr|] eqn:Hkey.
    + cbn [falsy_key]. destruct (scalar_row r) eqn:Hsc; cbn [andb].
      * destruct (String.eqb_spec kr "") as [->|Hne]; cbn [negb].
        -- split.
           ++ intros [H|(r' & Hin & H')]; [auto|]. right. exists r'.
              split; [right; exact Hin | exact H'].
           ++ intros [H|(r' & Hin & H')]; [auto|].
              apply elem_of_cons in Hin as [->|Hin].
              ** destruct H' as (_ & E & Hk). rewrite Hkey in E.
                 injection E as <-. contradiction.
              ** right. exists r'. auto.
        -- rewrite record_set_keys by congruence.
           split.
           ++ intros [[->|H]|(r' & Hin & H')]; [| auto |].
              ** right. exists r. split; [left|]; auto.
              ** right. exists r'. split; [right; exact Hin | exact H'].
           ++ intros [H|(r' & Hin & H')]; [auto|].
              apply elem_of_cons in Hin as [->|Hin].
              ** destruct H' as (_ & E & _). rewrite Hkey in E.
                 injection E as <-. auto.
              ** right. exists r'. auto.
      * split.
        -- intros [H|(r' & Hin & H')]; [auto|]. right. exists r'.
           split; [right; exact Hin | exact H'].
        -- intros [H|(r' & Hin & H')]; [auto|].
           apply elem_of_cons in Hin as [->|Hin].
           ++ destruct H' as (E & _). congruence.
           ++ right. exists r'. auto.
    + split.
      * intros [H|(r' & Hin & H')]; [auto|]. right. exists r'.
        split; [right; exact Hin | exact H'].
      * intros [H|(r' & Hin & H')]; [auto|].
        apply elem_of_cons in Hin as [->|Hin].
        -- destruct H' as (_ & E & _). congruence.
        -- right. exists r'. auto.
Qed.

(** C9, as the claim has it, fails on a node with a row whose key is the
    empty string next to another row: that row is left out of the form. *)
Lemma startEditing_skips_empty_key :
  ~ (forall (st : state) (nd : NodeData),
       selectedNode st = Some nd ->
       isEditing st = false ->
       forall k : string, k ∈ (form (startEditing st)).*1 <-> k ∈ spec_form_keys nd).
Proof.
  intros H.
  specialize (H (viewing two_rows TextEmpty) two_rows eq_refl eq_refl "").
  apply proj2 in H.
  assert (Hin : "" ∈ spec_form_keys two_rows) by (vm_compute; left).
  apply H in Hin. vm_compute in Hin.
  apply list_elem_of_singleton in Hin. discriminate Hin.
Qed.

(** C9, amended: the keys of the form are the non-empty keys of the rows
    that are neither objects nor arrays, or the empty key alone when the
    node is a single row whose key is absent or empty. *)
Theorem startEditing_form_keys (st : state) (nd : NodeData) :
  selectedNode st = Some nd ->
  isEditing st = false ->
  Forall (fun r => key r <> Some proto_key) (text_ nd) ->
  forall k : string,
    k ∈ (form (startEditing st)).*1
    <-> if single_value nd then k = ""
        else exists r, r ∈ text_ nd /\ scalar_row r = true /\ key r = Some k /\ k <> "".
Proof.
  intros Hsel Hed Hproto k.
  unfold startEditing. rewrite Hsel, Hed. cbn [orb negb effect form isEditing selectedNode].
  replace (bool_decide (is_Some (Some nd))) with true
    by (symmetry; apply bool_decide_eq_true; eauto).
  cbn [negb effect form isEditing selectedNode populate].
  assert (Hgen : k ∈ (fold_left populate_row (text_ nd) []).*1
                 <-> exists r, r ∈ text_ nd /\ contributes k r).
  { rewrite populate_row_keys by exact Hproto. cbn. rewrite elem_of_nil. tauto. }
  unfold single_value.
  destruct (text_ nd) as [|r [|r' rows]] eqn:Hrows; try exact Hgen.
  destruct (falsy_key (key r)); [|exact Hgen].
  cbn. rewrite list_elem_of_singleton. reflexivity.
Qed.

Lemma startEditing_form_keys_witness :
  "a" ∈ (form (startEditing (viewing two_rows TextEmpty))).*1.
Proof.
  apply (startEditing_form_keys (viewing two_rows TextEmpty) two_rows eq_refl eq_refl).
  - repeat constructor; discriminate.
  - cbn. eexists. split; [right; left|]. repeat split. discriminate.
Defined.

(** ** Saving *)

(** C5, as the claim has it, fails on the empty text: it is not valid
    JSON, and the save goes through with an empty object as the root. *)
Lemma save_on_empty_text_writes :
  ~ (forall st st' : state,
       (forall j, json_text st <> TextJson j) ->
       save st = Some st' ->
       json_text st' = json_text st).
Proof.
  intros H.
  specialize (H (startEditing (viewing two_rows TextEmpty))).
  vm_compute in H.
  specialize (H _ ltac:(intros j; discriminate) eq_refl).
  discriminate H.
Qed.

(** C5, amended: on a selected node, when the text is not empty and
    [JSON.parse] rejects it, the error is logged, the text is neither
    replaced nor written, the form is emptied and editing ends. *)
Theorem save_on_malformed_text (st : state) (nd : NodeData) :
  selectedNode st = Some nd ->
  json_text st = TextMalformed ->
  exists st' : state,
    save st = Some st'
    /\ json_text st' = json_text st
    /\ trace st' = trace st ++ [UpdateSelectedNode (updated_node (form st) nd); GetJson;
                                ConsoleError SyntaxError; SetIsEditing false]
    /\ (forall t, SetJson t ∉ [UpdateSelectedNode (updated_node (form st) nd); GetJson;
                               ConsoleError SyntaxError; SetIsEditing false])
    /\ form st' = []
    /\ isEditing st' = false.
Proof.
  intros Hsel Htext. unfold save, handleSave. rewrite Hsel, Htext.
  cbn. eexists. split; [reflexivity|]. cbn.
  split; [reflexivity|]. split; [rewrite <- app_assoc; reflexivity|].
  split; [|split; reflexivity].
  intros t Hin. repeat (apply elem_of_cons in Hin as [Hin|Hin]; [discriminate Hin|]).
  inversion Hin.
Qed.

Lemma save_on_malformed_text_witness :
  exists st' : state,
    save (startEditing (viewing two_rows TextMalformed)) = Some st'
    /\ json_text st' = TextMalformed
    /\ form st' = []
    /\ isEditing st' = false.
Proof.
  destruct (save_on_malformed_text (startEditing (viewing two_rows TextMalformed)) two_rows
              eq_refl eq_refl) as (st' & Hs & Ht & _ & _ & Hf & He).
  exists st'. auto.
Defined.

(** C10: the selection store is updated before the text is read, outside
    the guarded region; when the text is rejected the selection store keeps
    the edited rows and the document store its old text. *)
Theorem save_updates_selection_first :
  (forall (st st' : state) (nd : NodeData),
     selectedNode st = Some nd ->
     handleSave st = Some st' ->
     selectedNode st' = Some (updated_node (form st) nd)
     /\ exists rest,
          trace st' = trace st ++ UpdateSelectedNode (updated_node (form st) nd)
                                    :: GetJson :: rest)
  /\ (forall (st : state) (nd : NodeData),
        selectedNode st = Some nd ->
        json_text st = TextMalformed ->
        exists st',
          save st = Some st'
          /\ selectedNode st' = Some (updated_node (form st) nd)
          /\ json_text st' = json_text st)
  /\ exists st st' : state,
       save st = Some st'
       /\ json_text st = TextMalformed
       /\ json_text st' = TextMalformed
       /\ (text_ <$> selectedNode st)
          = Some [ {| key := Some ""; value_ := PNumber (of_N 1); type := "number" |};
                   {| key := Some "a"; value_ := PNumber (of_N 2); type := "number" |} ]
       /\ (text_ <$> selectedNode st')
          = Some [ {| key := Some ""; value_ := PNumber (of_N 1); type := "number" |};
                   {| key := Some "a"; value_ := PString "5"; type := "number" |} ].
Proof.
  split; [|split].
  - intros st st' nd Hsel Hsave. unfold handleSave in Hsave. rewrite Hsel in Hsave.
    destruct (fst (persist _ _ _ _ _)); inversion Hsave; subst; clear Hsave; cbn.
    + split; [reflexivity|]. eexists. rewrite <- app_assoc. reflexivity.
    + split; [reflexivity|]. eexists. rewrite <- app_assoc. reflexivity.
  - intros st nd Hsel Htext. unfold save, handleSave. rewrite Hsel, Htext. cbn.
    eexists. split; [reflexivity|]. cbn. auto.
  - exists (handleChange "a" "5" (startEditing (viewing two_rows TextMalformed))).
    eexists. split; [vm_compute; reflexivity|]. cbn. repeat split; reflexivity.
Qed.

(** ** Documents in the heap *)

(** Induction over a document with the hypothesis on every item. *)
Lemma json_induction (P : json -> Prop) :
  P JNull ->
  (forall b, P (JBool b)) ->
  (forall n, P (JNumber n)) ->
  (forall s, P (JString s)) ->
  (forall items, Forall P items -> P (JArray items)) ->
  (forall fields, Forall (fun kv => P kv.2) fields -> P (JObject fields)) ->
  forall j, P j.
Proof.
  intros Hnull Hbool Hnum Hstr Harr Hobj.
  fix IH 1. intros [ | b | n | s | items | fields ].
  - exact Hnull.
  - apply Hbool.
  - apply Hnum.
  - apply Hstr.
  - apply Harr. induction items as [|x items IHitems]; constructor; [apply IH | exact IHitems].
  - apply Hobj. induction fields as [|[k x] fields IHfields]; constructor;
      [apply IH | exact IHfields].
Qed.

Lemma ser_number_idem (n : number) : normalize (ser_number n) = ser_number n.
Proof. destruct n; reflexivity. Qed.

Lemma normalize_idem (j : json) : normalize (normalize j) = normalize j.
Proof.
  induction j as [ | b | n | s | items IH | fields IH ] using json_induction;
    cbn [normalize]; try reflexivity.
  - apply ser_number_idem.
  - f_equal. rewrite map_map. apply map_ext_Forall. exact IH.
  - f_equal. rewrite map_map. apply map_ext_Forall.
    eapply Forall_impl; [exact IH|]. intros [k x] Hx. cbn in *. congruence.
Qed.

(** [JSON.stringify] writes a document as it was read exactly when each of
    its numbers is finite and not the negative zero. *)
Lemma normalize_exact (j : json) : exact_numbers j = true <-> normalize j = j.
Proof.
  induction j as [ | b | x | s | items IH | fields IH ] using json_induction;
    cbn [exact_numbers normalize]; try (split; reflexivity).
  - destruct x as [[]| | |]; cbn; split; intros E; try discriminate; reflexivity.
  - split; intros E.
    + f_equal. induction IH as [|j items Hj _ IHitems]; [reflexivity|].
      cbn in E. apply andb_true_iff in E as [E1 E2]. cbn [map]. f_equal; [apply Hj|]; auto.
    + injection E as E. induction IH as [|j items Hj _ IHitems]; [reflexivity|].
      cbn [map] in E. injection E as E1 E2. cbn. apply andb_true_iff.
      split; [apply Hj|]; auto.
  - split; intros E.
    + f_equal. induction IH as [|[k j] fields Hj _ IHfields]; [reflexivity|].
      cbn in E. apply andb_true_iff in E as [E1 E2]. cbn [map]. f_equal; [|auto].
      cbn in *. f_equal. apply Hj. exact E1.
    + injection E as E. induction IH as [|[k j] fields Hj _ IHfields]; [reflexivity|].
      cbn [map] in E. injection E as E1 E2. cbn. apply andb_true_iff.
      split; [apply Hj|]; auto.
Qed.

(** The locations of a tree are locations of the heap. *)
Lemma denotes_dom (h : heap) (v : value) (j : json) (fp : gset loc) :
  denotes h v j fp -> forall l, l ∈ fp -> l < length h.
Proof.
  revert v j fp.
  apply (denotes_mut h (fun _ _ fp => forall l, l ∈ fp -> l < length h)
                       (fun _ _ fp => forall l, l ∈ fp -> l < length h)).
  - intros p j _ l Hl. set_solver.
  - intros l es ps js fp Hl _ IH _ l' Hl'.
    apply elem_of_union in Hl' as [Hl'|Hl']; [|auto].
    apply elem_of_singleton in Hl' as ->. eapply lookup_lt_Some; eauto.
  - intros l ps fs fp Hl _ _ IH _ l' Hl'.
    apply elem_of_union in Hl' as [Hl'|Hl']; [|auto].
    apply elem_of_singleton in Hl' as ->. eapply lookup_lt_Some; eauto.
  - intros l Hl. set_solver.
  - intros v j fp1 vs js fp2 _ IH1 _ IH2 _ l Hl.
    apply elem_of_union in Hl as [Hl|Hl]; auto.
Qed.

Lemma denotes_list_dom (h : heap) (vs : list value) (js : list json) (fp : gset loc) :
  denotes_list h vs js fp -> forall l, l ∈ fp -> l < length h.
Proof.
  induction 1 as [|v j fp1 vs js fp2 Hv _ IH _]; intros l Hl; [set_solver|].
  apply elem_of_union in Hl as [Hl|Hl]; [|auto].
  eapply denotes_dom; eauto.
Qed.

(** A tree only depends on the objects at its own locations. *)
Lemma denotes_frame (h h' : heap) (v : value) (j : json) (fp : gset loc) :
  denotes h v j fp ->
  (forall l, l ∈ fp -> h' !! l = h !! l) ->
  denotes h' v j fp.
Proof.
  revert v j fp.
  apply (denotes_mut h
           (fun v j fp => (forall l, l ∈ fp -> h' !! l = h !! l) -> denotes h' v j fp)
           (fun vs js fp => (forall l, l ∈ fp -> h' !! l = h !! l) -> denotes_list h' vs js fp)).
  - intros p j Hp _. constructor. exact Hp.
  - intros l es ps js fp Hl _ IH Hnin Hagree.
    econstructor; [rewrite Hagree; [exact Hl | set_solver] | | exact Hnin].
    apply IH. intros l' Hl'. apply Hagree. set_solver.
  - intros l ps fs fp Hl Hkeys _ IH Hnin Hagree.
    econstructor; [rewrite Hagree; [exact Hl | set_solver] | exact Hkeys | | exact Hnin].
    apply IH. intros l' Hl'. apply Hagree. set_solver.
  - intros _. constructor.
  - intros v j fp1 vs js fp2 _ IH1 _ IH2 Hdisj Hagree.
    constructor; [apply IH1 | apply IH2 | exact Hdisj];
      intros l Hl; apply Hagree; set_solver.
Qed.

Lemma denotes_list_frame (h h' : heap) (vs : list value) (js : list json) (fp : gset loc) :
  denotes_list h vs js fp ->
  (forall l, l ∈ fp -> h' !! l = h !! l) ->
  denotes_list h' vs js fp.
Proof.
  induction 1 as [|v j fp1 vs js fp2 Hv _ IH Hdisj]; intros Hagree; [constructor|].
  constructor; [ | apply IH | exact Hdisj].
  - eapply denotes_frame; [exact Hv|]. intros l Hl. apply Hagree. set_solver.
  - intros l Hl. apply Hagree. set_solver.
Qed.

(** A set of locations of the heap has no more elements than the heap. *)
Lemma footprint_size (h : heap) (fp : gset loc) :
  (forall l, l ∈ fp -> l < length h) -> size fp <= length h.
Proof.
  intros Hdom.
  rewrite <- (size_set_seq (C := gset nat) 0 (length h)).
  apply subseteq_size. intros l Hl. apply elem_of_set_seq. split; [lia|].
  cbn. apply Hdom. exact Hl.
Qed.

(** Serializing a tree gives the document it denotes, with fuel for its
    locations. *)
Lemma denotes_ser (h : heap) (v : value) (j : json) (fp : gset loc) :
  denotes h v j fp -> forall f, size fp <= f -> ser f h v = Ok (Some j).
Proof.
  revert v j fp.
  apply (denotes_mut h
           (fun v j fp => forall f, size fp <= f -> ser f h v = Ok (Some j))
           (fun vs js fp =>
              forall f, size fp <= f ->
                ser_items (ser f h) vs = Ok js
                /\ forall ks, length ks = length vs ->
                     ser_fields (ser f h) (zip ks vs) = Ok (zip ks js))).
  - intros p j Hp f _. destruct f; cbn; rewrite Hp; reflexivity.
  - intros l es ps js fp Hl _ IH Hnin f Hf.
    rewrite size_union, size_singleton in Hf by (apply disjoint_singleton_l; exact Hnin).
    destruct f as [|f]; [lia|]. cbn. rewrite Hl.
    destruct (IH f ltac:(lia)) as [-> _]. reflexivity.
  - intros l ps fs fp Hl Hkeys _ IH Hnin f Hf.
    rewrite size_union, size_singleton in Hf by (apply disjoint_singleton_l; exact Hnin).
    destruct f as [|f]; [lia|]. cbn. rewrite Hl.
    destruct (IH f ltac:(lia)) as [_ Hfields].
    specialize (Hfields ps.*1 ltac:(rewrite !length_fmap; reflexivity)).
    rewrite zip_fst_snd in Hfields. rewrite Hfields.
    rewrite Hkeys, zip_fst_snd. reflexivity.
  - intros f _. split; [reflexivity|]. intros [|k ks]; [reflexivity | discriminate].
  - intros v j fp1 vs js fp2 _ IH1 _ IH2 Hdisj f Hf.
    rewrite size_union in Hf by exact Hdisj.
    destruct (IH2 f ltac:(lia)) as [Hitems Hfields].
    split.
    + cbn. rewrite IH1 by lia. rewrite Hitems. reflexivity.
    + intros [|k ks] Hlen; [discriminate|]. cbn.
      rewrite IH1 by lia. rewrite Hfields by (cbn in Hlen; lia). reflexivity.
Qed.

Lemma denotes_stringify (h : heap) (v : value) (j : json) (fp : gset loc) :
  denotes h v j fp -> stringify v h = (Ok (Some (TextJson j)), h).
Proof.
  intros Hden. unfold stringify.
  rewrite (denotes_ser h v j fp Hden); [reflexivity|].
  apply footprint_size. eapply denotes_dom; eauto.
Qed.

(** *** Allocation *)

Lemma bind_Ok {A B} (m : M A) (k : A -> M B) (h h' : heap) (a : A) :
  m h = (Ok a, h') -> bind m k h = k a h'.
Proof. intros E. unfold bind. rewrite E. reflexivity. Qed.

Lemma traverse_cons {A B} (f : A -> M B) (x : A) (l : list A) :
  traverse f (x :: l)
  = (let* y := f x in let* ys := traverse f l in ret (y :: ys)).
Proof. reflexivity. Qed.

Lemma denotes_extend (h hj : heap) (v : value) (j : json) (fp : gset loc) :
  denotes h v j fp -> denotes (h ++ hj) v j fp.
Proof.
  intros Hden. eapply denotes_frame; [exact Hden|].
  intros l Hl. apply lookup_app_l. eapply denotes_dom; eauto.
Qed.

Lemma denotes_list_extend (h hj : heap) (vs : list value) (js : list json) (fp : gset loc) :
  denotes_list h vs js fp -> denotes_list (h ++ hj) vs js fp.
Proof.
  intros Hden. eapply denotes_list_frame; [exact Hden|].
  intros l Hl. apply lookup_app_l. eapply denotes_list_dom; eauto.
Qed.

Lemma alloc_fresh_tree (j : json) (h : heap) :
  exists (v : value) (h' : heap),
    alloc j h = (Ok v, h') /\ fresh_tree h h' v (normalize j).
Proof.
  revert h.
  induction j as [ | b | n | s | items IH | fields IH ] using json_induction; intros h.
  - exists (VPrim PNull), h. split; [reflexivity|]. exists [], ∅.
    rewrite app_nil_r. repeat split; [constructor; reflexivity | set_solver].
  - exists (VPrim (PBool b)), h. split; [reflexivity|]. exists [], ∅.
    rewrite app_nil_r. repeat split; [constructor; reflexivity | set_solver].
  - exists (VPrim (PNumber n)), h. split; [reflexivity|]. exists [], ∅.
    rewrite app_nil_r. repeat split; [constructor; reflexivity | set_solver].
  - exists (VPrim (PString s)), h. split; [reflexivity|]. exists [], ∅.
    rewrite app_nil_r. repeat split; [constructor; reflexivity | set_solver].
  - assert (Hitems : forall h, exists vs hj fp,
               traverse alloc items h = (Ok vs, h ++ hj)
               /\ denotes_list (h ++ hj) vs (map normalize items) fp
               /\ forall l, l ∈ fp -> length h <= l).
    { clear h. induction IH as [|x items Hx _ IHitems]; intros h.
      - exists [], [], ∅. rewrite app_nil_r. repeat split; [constructor | set_solver].
      - destruct (Hx h) as (v & h1 & Hv & hj1 & fp1 & -> & Hden1 & Hfp1).
        destruct (IHitems (h ++ hj1)) as (vs & hj2 & fp2 & Hvs & Hden2 & Hfp2).
        exists (v :: vs), (hj1 ++ hj2), (fp1 ∪ fp2).
        rewrite traverse_cons, (bind_Ok _ _ _ _ _ Hv), (bind_Ok _ _ _ _ _ Hvs). unfold ret.
        rewrite app_assoc. split; [reflexivity|]. split.
        + cbn [map]. constructor; [apply denotes_extend; exact Hden1 | exact Hden2 |].
          intros l Hl1 Hl2. apply Hfp2 in Hl2.
          eapply denotes_dom in Hl1; [|exact Hden1]. lia.
        + intros l Hl. apply elem_of_union in Hl as [Hl|Hl]; [auto|].
          apply Hfp2 in Hl. rewrite length_app in Hl. lia. }
    destruct (Hitems h) as (vs & hj & fp & Hvs & Hden & Hfp).
    exists (VObject (length (h ++ hj))), ((h ++ hj) ++ [Arr vs []]).
    split; [cbn [alloc]; rewrite (bind_Ok _ _ _ _ _ Hvs); reflexivity|].
    exists (hj ++ [Arr vs []]), ({[length (h ++ hj)]} ∪ fp).
    rewrite app_assoc. split; [reflexivity|]. split.
    + cbn [normalize]. econstructor.
      * apply list_lookup_middle. reflexivity.
      * apply denotes_list_extend. exact Hden.
      * intros Hin. eapply denotes_list_dom in Hin; [|exact Hden]. lia.
    + intros l Hl. apply elem_of_union in Hl as [Hl|Hl]; [|auto].
      apply elem_of_singleton in Hl as ->. rewrite length_app. lia.
  - assert (Hfields : forall h, exists ps hj fp,
               traverse (fun kv => let* v := alloc kv.2 in ret (kv.1, v)) fields h
                 = (Ok ps, h ++ hj)
               /\ ps.*1 = fields.*1
               /\ denotes_list (h ++ hj) ps.*2 (map normalize fields.*2) fp
               /\ forall l, l ∈ fp -> length h <= l).
    { clear h. induction IH as [|[k x] fields Hx _ IHfields]; intros h.
      - exists [], [], ∅. rewrite app_nil_r.
        repeat split; [constructor | set_solver].
      - cbn in Hx.
        destruct (Hx h) as (v & h1 & Hv & hj1 & fp1 & -> & Hden1 & Hfp1).
        destruct (IHfields (h ++ hj1)) as (ps & hj2 & fp2 & Hps & Hkeys & Hden2 & Hfp2).
        exists ((k, v) :: ps), (hj1 ++ hj2), (fp1 ∪ fp2).
        rewrite traverse_cons. cbn [fst snd].
        rewrite (bind_Ok _ _ _ _ (k, v) (bind_Ok _ _ _ _ _ Hv)), (bind_Ok _ _ _ _ _ Hps).
        unfold ret.
        rewrite app_assoc. split; [reflexivity|]. split; [cbn; congruence|]. split.
        + cbn. constructor; [apply denotes_extend; exact Hden1 | exact Hden2 |].
          intros l Hl1 Hl2. apply Hfp2 in Hl2.
          eapply denotes_dom in Hl1; [|exact Hden1]. lia.
        + intros l Hl. apply elem_of_union in Hl as [Hl|Hl]; [auto|].
          apply Hfp2 in Hl. rewrite length_app in Hl. lia. }
    destruct (Hfields h) as (ps & hj & fp & Hps & Hkeys & Hden & Hfp).
    exists (VObject (length (h ++ hj))), ((h ++ hj) ++ [Obj ps]).
    split; [cbn [alloc]; rewrite (bind_Ok _ _ _ _ _ Hps); reflexivity|].
    exists (hj ++ [Obj ps]), ({[length (h ++ hj)]} ∪ fp).
    rewrite app_assoc. split; [reflexivity|]. split.
    + cbn [normalize]. econstructor.
      * apply list_lookup_middle. reflexivity.
      * rewrite Hkeys. rewrite <- !list_fmap_compose. reflexivity.
      * apply denotes_list_extend.
        replace ((map (fun kv => (kv.1, normalize kv.2)) fields).*2)
          with (map normalize fields.*2); [exact Hden|].
        rewrite <- !list_fmap_compose. reflexivity.
      * intros Hin. eapply denotes_list_dom in Hin; [|exact Hden]. lia.
    + intros l Hl. apply elem_of_union in Hl as [Hl|Hl]; [|auto].
      apply elem_of_singleton in Hl as ->. rewrite length_app. lia.
Qed.

(** *** Writing at an existing path *)

(** Two association lists with the same keys bind a key at the same
    position, and [aset] overwrites that position. *)
Lemma aset_at {A B} (k : string) (l1 : list (string * A)) (l2 : list (string * B)) (c : B) :
  l1.*1 = l2.*1 ->
  alookup k l2 = Some c ->
  exists i : nat,
    l2.*2 !! i = Some c
    /\ alookup k l1 = l1.*2 !! i
    /\ (forall v, (aset k v l1).*1 = l1.*1 /\ (aset k v l1).*2 = <[i:=v]> l1.*2)
    /\ (forall v, (aset k v l2).*1 = l2.*1 /\ (aset k v l2).*2 = <[i:=v]> l2.*2).
Proof.
  revert l1. induction l2 as [|[k2 x2] l2 IH]; intros l1 Hkeys Hlook; [discriminate|].
  destruct l1 as [|[k1 x1] l1]; [discriminate|].
  cbn in Hkeys. injection Hkeys as -> Hkeys. cbn in Hlook |- *.
  destruct (String.eqb_spec k k2) as [->|Hk].
  - injection Hlook as ->. exists 0. cbn. repeat split; reflexivity.
  - destruct (IH l1 Hkeys Hlook) as (i & Hi & Hl1 & Hs1 & Hs2).
    exists (S i). cbn. split; [exact Hi|]. split; [exact Hl1|].
    split; intros v; [destruct (Hs1 v) as [-> ->] | destruct (Hs2 v) as [-> ->]];
      split; reflexivity.
Qed.

(** One item of a list of trees can be taken out and put back changed,
    when the rest of the list is left as it was. *)
Lemma denotes_list_focus (h : heap) (vs : list value) (js : list json) (fp : gset loc)
    (i : nat) (c : json) :
  denotes_list h vs js fp ->
  js !! i = Some c ->
  exists (vc : value) (fpi fpo : gset loc),
    vs !! i = Some vc
    /\ denotes h vc c fpi
    /\ fpi ## fpo
    /\ fp = fpi ∪ fpo
    /\ forall (h' : heap) (vc' : value) (c' : json) (fpi' : gset loc),
         denotes h' vc' c' fpi' ->
         fpi' ## fpo ->
         (forall l, l ∈ fpo -> h' !! l = h !! l) ->
         denotes_list h' (<[i:=vc']> vs) (<[i:=c']> js) (fpi' ∪ fpo).
Proof.
  intros Hden. revert i.
  induction Hden as [|v j fp1 vs js fp2 Hv Hvs IH Hdisj]; intros i Hi; [discriminate|].
  destruct i as [|i].
  - injection Hi as ->. exists v, fp1, fp2.
    split; [reflexivity|]. split; [exact Hv|]. split; [exact Hdisj|]. split; [reflexivity|].
    intros h' vc' c' fpi' Hc' Hdisj' Hagree. cbn.
    constructor; [exact Hc' | | exact Hdisj'].
    eapply denotes_list_frame; eauto.
  - destruct (IH i Hi) as (vc & fpi & fpo & Hvc & Hc & Hio & -> & Hput).
    exists vc, fpi, (fp1 ∪ fpo).
    split; [exact Hvc|]. split; [exact Hc|]. split; [set_solver|]. split; [set_solver|].
    intros h' vc' c' fpi' Hc' Hdisj' Hagree. cbn.
    replace (fpi' ∪ (fp1 ∪ fpo)) with (fp1 ∪ (fpi' ∪ fpo)) by set_solver.
    constructor.
    + eapply denotes_frame; [exact Hv|]. intros l Hl. apply Hagree. set_solver.
    + apply Hput; [exact Hc' | set_solver |]. intros l Hl. apply Hagree. set_solver.
    + set_solver.
Qed.

Lemma ser_prim_scalar (p : prim) (j : json) :
  ser_prim p = Some j ->
  match j with JArray _ | JObject _ => False | _ => True end.
Proof.
  destruct p as [ | | b | n | s ]; cbn; intros E; try discriminate;
    injection E as <-; try exact I.
  destruct n; exact I.
Qed.

Lemma denotes_arr_inv (h : heap) (v : value) (items : list json) (fp : gset loc) :
  denotes h v (JArray items) fp ->
  exists l es ps fpc,
    v = VObject l /\ h !! l = Some (Arr es ps) /\ denotes_list h es items fpc
    /\ (l ∉ fpc) /\ fp = {[l]} ∪ fpc.
Proof.
  inversion 1 as [p j Hp | |]; subst; [|eauto 10].
  apply ser_prim_scalar in Hp. contradiction.
Qed.

Lemma denotes_obj_inv (h : heap) (v : value) (fields : list (string * json)) (fp : gset loc) :
  denotes h v (JObject fields) fp ->
  exists l ps fpc,
    v = VObject l /\ h !! l = Some (Obj ps) /\ ps.*1 = fields.*1
    /\ denotes_list h ps.*2 fields.*2 fpc /\ (l ∉ fpc) /\ fp = {[l]} ∪ fpc.
Proof.
  inversion 1 as [p j Hp | |]; subst; [|eauto 10].
  apply ser_prim_scalar in Hp. contradiction.
Qed.

(** A tree for an array or an object is a reference. *)
Lemma denotes_container (h : heap) (v : value) (j c : json) (fp : gset loc) (seg : segment) :
  denotes h v j fp -> child j seg = Some c -> exists l, v = VObject l.
Proof.
  intros Hden Hc. destruct Hden as [p j Hp | |]; eauto.
  apply ser_prim_scalar in Hp.
  destruct seg, j; cbn in Hc; try discriminate; contradiction.
Qed.

Lemma update_json_child (j : json) (seg : segment) (rest : list segment) (r j' : json) :
  update_json j (seg :: rest) r = Some j' ->
  exists c c', child j seg = Some c /\ update_json c rest r = Some c'.
Proof.
  cbn [update_json]. destruct (child j seg) as [c|]; [|discriminate].
  destruct (update_json c rest r) as [c'|] eqn:E; [|discriminate]. intros _. eauto.
Qed.

Lemma walk_last (cur : value) (seg : segment) (r : value) :
  walk cur [seg] r = set_prop cur (ToPropertyKey seg) r.
Proof. reflexivity. Qed.

Lemma walk_step (cur : value) (seg nextSeg : segment) (rest : list segment) (r : value) :
  walk cur (seg :: nextSeg :: rest) r
  = let key := ToPropertyKey seg in
    if is_number seg then
      let* arr := isArray cur in
      let* cur := (if arr then ret cur else new_object (Arr [] [])) in
      let* c := get_prop cur key in
      do (if is_nullish c then
            let* fresh := new_object (container_for nextSeg) in
            set_prop cur key fresh
          else ret tt) then
      let* cur := get_prop cur key in
      walk cur (nextSeg :: rest) r
    else
      let* c := get_prop cur key in
      let* replace :=
        (if is_nullish c then ret true
         else let* c' := get_prop cur key in ret (negb (typeof_object c'))) in
      do (if replace : bool then
            let* fresh := new_object (container_for nextSeg) in
            set_prop cur key fresh
          else ret tt) then
      let* cur := get_prop cur key in
      walk cur (nextSeg :: rest) r.
Proof. reflexivity. Qed.

(** The mutator on a path that exists: the cursor follows the path
    without a write, and the last assignment replaces the value at the
    path. *)
Lemma walk_existing (p : list segment) :
  forall (v : value) (j : json) (fp : gset loc) (h : heap) (r : value) (jr : json)
         (fpr : gset loc) (j' : json),
    p <> [] ->
    denotes h v j fp ->
    denotes h r jr fpr ->
    fp ## fpr ->
    update_json j p jr = Some j' ->
    exists (h' : heap) (fp' : gset loc),
      walk v p r h = (Ok tt, h')
      /\ denotes h' v j' fp'
      /\ fp' ⊆ fp ∪ fpr
      /\ forall l, l ∉ fp -> h' !! l = h !! l.
Proof.
  induction p as [|seg rest IH]; intros v j fp h r jr fpr j' Hne Hv Hr Hdisj Hupd;
    [contradiction|].
  destruct (update_json_child _ _ _ _ _ Hupd) as (c & c' & Hchild & Hrest).
  cbn [update_json] in Hupd. rewrite Hchild, Hrest in Hupd.
  destruct seg as [n|s], j as [ | | | | items | fields ]; try discriminate; cbn [child] in Hchild.
  - (* a numeric segment into an array *)
    destruct (array_index (ToPropertyKey (SegNum n))) as [i|] eqn:Hidx; [|discriminate].
    injection Hupd as <-.
    destruct (denotes_arr_inv _ _ _ _ Hv) as (l & es & ps & fpc & -> & Hl & Hes & Hnin & ->).
    destruct (denotes_list_focus _ _ _ _ _ _ Hes Hchild)
      as (vc & fpi & fpo & Hvc & Hc & Hio & -> & Hput).
    assert (Hlt : l < length h) by (eapply lookup_lt_Some; eauto).
    assert (Hi : i < length es) by (eapply lookup_lt_Some; eauto).
    destruct rest as [|nextSeg rest].
    + cbn in Hrest. injection Hrest as <-.
      exists (<[l:=Arr (<[i:=r]> es) ps]> h), ({[l]} ∪ (fpr ∪ fpo)).
      split; [|split; [|split]].
      * rewrite walk_last. unfold set_prop. rewrite Hl, Hidx. unfold set_elem.
        destruct (Nat.ltb_spec i (length es)); [reflexivity | lia].
      * econstructor.
        -- apply list_lookup_insert_eq. exact Hlt.
        -- apply Hput.
           ++ eapply denotes_frame; [exact Hr|]. intros l' Hl'.
              apply list_lookup_insert_ne. set_solver.
           ++ set_solver.
           ++ intros l' Hl'. apply list_lookup_insert_ne. set_solver.
        -- set_solver.
      * set_solver.
      * intros l' Hl'. apply list_lookup_insert_ne. set_solver.
    + destruct (update_json_child _ _ _ _ _ Hrest) as (cc & _ & Hcc & _).
      destruct (denotes_container _ _ _ _ _ _ Hc Hcc) as (lc & ->).
      destruct (IH (VObject lc) c fpi h r jr fpr c' ltac:(discriminate) Hc Hr
                  ltac:(set_solver) Hrest) as (h' & fpi' & Hwalk & Hc' & Hsub & Hframe).
      exists h', ({[l]} ∪ (fpi' ∪ fpo)).
      split; [|split; [|split]].
      * rewrite walk_step. cbn [is_number].
        assert (Hget : get_prop (VObject l) (ToPropertyKey (SegNum n)) h
                       = (Ok (VObject lc), h)).
        { unfold get_prop. rewrite Hl, Hidx. erewrite nth_lookup_Some; eauto. }
        assert (Harr : isArray (VObject l) h = (Ok true, h))
          by (unfold isArray; rewrite Hl; reflexivity).
        rewrite (bind_Ok _ _ _ _ _ Harr). unfold ret at 1.
        rewrite (bind_Ok _ _ h h (VObject l) eq_refl).
        rewrite (bind_Ok _ _ _ _ _ Hget). cbn [is_nullish].
        rewrite (bind_Ok _ _ h h tt eq_refl).
        rewrite (bind_Ok _ _ _ _ _ Hget). exact Hwalk.
      * econstructor.
        -- rewrite Hframe by set_solver. exact Hl.
        -- rewrite <- (list_insert_id es i (VObject lc)) by exact Hvc.
           apply Hput; [exact Hc' | set_solver |].
           intros l' Hl'. apply Hframe. set_solver.
        -- set_solver.
      * set_solver.
      * intros l' Hl'. apply Hframe. set_solver.
  - (* a string segment into an object *)
    injection Hupd as <-.
    destruct (denotes_obj_inv _ _ _ _ Hv) as (l & ps & fpc & -> & Hl & Hkeys & Hps & Hnin & ->).
    destruct (aset_at s ps fields c Hkeys Hchild) as (i & Hi & Hlook & Hset1 & Hset2).
    destruct (denotes_list_focus _ _ _ _ _ _ Hps Hi)
      as (vc & fpi & fpo & Hvc & Hc & Hio & -> & Hput).
    assert (Hlt : l < length h) by (eapply lookup_lt_Some; eauto).
    rewrite Hvc in Hlook.
    destruct rest as [|nextSeg rest].
    + cbn in Hrest. injection Hrest as <-.
      exists (<[l:=Obj (aset s r ps)]> h), ({[l]} ∪ (fpr ∪ fpo)).
      split; [|split; [|split]].
      * rewrite walk_last. unfold set_prop. rewrite Hl. cbn [ToPropertyKey].
        unfold named_set. rewrite Hlook.
        replace (bool_decide (is_Some (Some vc))) with true
          by (symmetry; apply bool_decide_eq_true; eauto).
        rewrite andb_false_r. reflexivity.
      * econstructor.
        -- apply list_lookup_insert_eq. exact Hlt.
        -- destruct (Hset1 r) as [-> _]. destruct (Hset2 jr) as [-> _]. exact Hkeys.
        -- destruct (Hset1 r) as [_ ->]. destruct (Hset2 jr) as [_ ->].
           apply Hput.
           ++ eapply denotes_frame; [exact Hr|]. intros l' Hl'.
              apply list_lookup_insert_ne. set_solver.
           ++ set_solver.
           ++ intros l' Hl'. apply list_lookup_insert_ne. set_solver.
        -- set_solver.
      * set_solver.
      * intros l' Hl'. apply list_lookup_insert_ne. set_solver.
    + destruct (update_json_child _ _ _ _ _ Hrest) as (cc & _ & Hcc & _).
      destruct (denotes_container _ _ _ _ _ _ Hc Hcc) as (lc & ->).
      destruct (IH (VObject lc) c fpi h r jr fpr c' ltac:(discriminate) Hc Hr
                  ltac:(set_solver) Hrest) as (h' & fpi' & Hwalk & Hc' & Hsub & Hframe).
      exists h', ({[l]} ∪ (fpi' ∪ fpo)).
      split; [|split; [|split]].
      * rewrite walk_step. cbn [is_number ToPropertyKey].
        assert (Hget : get_prop (VObject l) s h = (Ok (VObject lc), h)).
        { unfold get_prop, named_get. rewrite Hl, Hlook. reflexivity. }
        rewrite (bind_Ok _ _ _ _ _ Hget). cbn [is_nullish].
        rewrite (bind_Ok _ _ h h false
                   (bind_Ok _ _ _ _ _ Hget)).
        rewrite (bind_Ok _ _ h h tt eq_refl).
        rewrite (bind_Ok _ _ _ _ _ Hget). exact Hwalk.
      * econstructor.
        -- rewrite Hframe by set_solver. exact Hl.
        -- destruct (Hset2 c') as [-> _]. exact Hkeys.
        -- destruct (Hset2 c') as [_ ->].
           rewrite <- (list_insert_id ps.*2 i (VObject lc)) by exact Hvc.
           apply Hput; [exact Hc' | set_solver |].
           intros l' Hl'. apply Hframe. set_solver.
        -- set_solver.
      * set_solver.
      * intros l' Hl'. apply Hframe. set_solver.
Qed.

(** *** The replacement value *)

Lemma parsePrimitive_defined (v : string) : exists j, ser_prim (parsePrimitive v) = Some j.
Proof.
  pose proof (parsePrimitive_cases v) as H.
  destruct (parsePrimitive v); [contradiction | | | |]; cbn; eauto.
Qed.

Lemma scalar_props_aset (k : string) (p : prim) (j : json) (ps : props) :
  ser_prim p = Some j -> scalar_props ps -> scalar_props (aset k (VPrim p) ps).
Proof.
  intros Hp. induction 1 as [|[k' v'] ps Hkv Hps IH]; cbn.
  - constructor; [eauto | constructor].
  - destruct (String.eqb k k'); constructor; eauto.
Qed.

(** An object of scalars is a tree of one location. *)
Lemma scalar_props_denotes (h : heap) (ps : props) :
  scalar_props ps ->
  exists fs, ps.*1 = fs.*1 /\ denotes_list h ps.*2 fs.*2 ∅.
Proof.
  induction 1 as [|[k v] ps (p & j & Hv & Hp) _ (fs & Hkeys & Hden)].
  - exists []. split; [reflexivity | constructor].
  - cbn in Hv. subst v. exists ((k, j) :: fs). cbn. split; [congruence|].
    replace (∅ : gset loc) with ((∅ : gset loc) ∪ ∅) by set_solver.
    constructor; [constructor; exact Hp | exact Hden | set_solver].
Qed.

Lemma fill_scalar_props (l : loc) (entries : record) :
  forall (h : heap) (ps : props) (h' : heap),
    h !! l = Some (Obj ps) ->
    scalar_props ps ->
    fill (VObject l) entries h = (Ok tt, h') ->
    exists ps', h' = <[l:=Obj ps']> h /\ scalar_props ps'.
Proof.
  induction entries as [|[k v] entries IH]; intros h ps h' Hl Hps Hfill.
  - cbn in Hfill. injection Hfill as <-. exists ps.
    split; [symmetry; apply list_insert_id; exact Hl | exact Hps].
  - cbn [fill] in Hfill. unfold bind at 1 in Hfill. unfold set_prop in Hfill.
    rewrite Hl in Hfill.
    destruct (named_set k (VPrim (parsePrimitive v)) ps) as [ps1| |] eqn:Hset;
      try discriminate.
    assert (Hps1 : scalar_props ps1).
    { unfold named_set in Hset.
      destruct (parsePrimitive_defined v) as (j & Hj).
      destruct (_ && _)%bool.
      - destruct (parsePrimitive v); try discriminate; injection Hset as <-; exact Hps.
      - injection Hset as <-. eapply scalar_props_aset; eauto. }
    assert (Hlt : l < length h) by (eapply lookup_lt_Some; eauto).
    destruct (IH (<[l:=Obj ps1]> h) ps1 h'
                ltac:(apply list_lookup_insert_eq; exact Hlt) Hps1 Hfill)
      as (ps' & -> & Hps').
    exists ps'. split; [apply list_insert_insert_eq | exact Hps'].
Qed.

(** The replacement is a scalar, or a fresh object of scalars at the end
    of the heap. *)
Lemma build_replacement_denotes (nd : NodeData) (f : record) (rows : list NodeRow)
    (h h1 : heap) (repl : value) :
  build_replacement nd f rows h = (Ok repl, h1) ->
  exists (hj : heap) (jr : json) (fpr : gset loc),
    h1 = h ++ hj /\ denotes h1 repl jr fpr /\ forall l, l ∈ fpr -> length h <= l.
Proof.
  unfold build_replacement. destruct (match text_ nd with [r] => _ | _ => false end).
  - intros E. injection E as <- <-.
    destruct (parsePrimitive_defined
                match alookup "" f with
                | Some s => s
                | None => display (default PUndefined (value_ <$> head rows))
                end) as (jr & Hjr).
    exists [], jr, ∅. rewrite app_nil_r.
    split; [reflexivity|]. split; [constructor; exact Hjr | set_solver].
  - unfold bind at 1. unfold new_object at 1. unfold bind at 1.
    destruct (fill (VObject (length h)) f (h ++ [Obj []])) as [[[]| |] h'] eqn:Hfill;
      try discriminate.
    intros E. injection E as <- <-.
    destruct (fill_scalar_props _ _ _ [] _ (list_lookup_middle h [] (Obj []) _ eq_refl)
                ltac:(constructor) Hfill) as (ps' & -> & Hps').
    destruct (scalar_props_denotes (<[length h:=Obj ps']> (h ++ [Obj []])) ps' Hps')
      as (fs & Hkeys & Hden).
    exists [Obj ps'], (JObject fs), ({[length h]} ∪ ∅).
    split; [|split].
    + rewrite insert_app_r_alt by lia. rewrite Nat.sub_diag. reflexivity.
    + econstructor; [|exact Hkeys|exact Hden|set_solver].
      apply list_lookup_insert_eq. rewrite length_app. cbn. lia.
    + intros l Hl. assert (l = length h) by set_solver. lia.
Qed.

(** *** Saving with an empty path *)

Lemma load_root_denotes (raw : text) (h h0 : heap) (root : value) :
  load_root raw h = (Ok root, h0) ->
  exists j0 fp0, denotes h0 root j0 fp0.
Proof.
  destruct raw as [ | | j]; cbn; [| discriminate |].
  - unfold new_object. intros E. injection E as <- <-.
    exists (JObject []), ({[length h]} ∪ ∅).
    econstructor; [apply list_lookup_middle; reflexivity | reflexivity | constructor | set_solver].
  - intros E. destruct (alloc_fresh_tree j h) as (v & h' & Hv & hj & fp & -> & Hden & _).
    rewrite Hv in E. injection E as <- <-. eauto.
Qed.

Lemma setValueAtPath_no_path (obj r : value) (p : option (list segment)) (h : heap) :
  nonempty_path p = false -> setValueAtPath obj p r h = (Ok r, h).
Proof. destruct p as [[|]|]; [reflexivity | discriminate | reflexivity]. Qed.

Lemma persist_empty_path (raw : text) (nd : NodeData) (f : record) (rows : list NodeRow)
    (root repl : value) (h0 h1 : heap) :
  nonempty_path (path nd) = false ->
  load_root raw [] = (Ok root, h0) ->
  build_replacement nd f rows h0 = (Ok repl, h1) ->
  exists (t : text) (h' : heap),
    stringify repl h1 = (Ok (Some t), h1)
    /\ persist raw nd f rows [] = (Ok t, h').
Proof.
  intros Hpath Hroot Hrepl.
  destruct (load_root_denotes _ _ _ _ Hroot) as (j0 & fp0 & Hden0).
  destruct (build_replacement_denotes _ _ _ _ _ _ Hrepl) as (hj & jr & fpr & -> & Hdenr & _).
  destruct (alloc_fresh_tree j0 (h0 ++ hj)) as (newRoot & h2 & Hclone & hj2 & fp2 & -> & _ & _).
  exists (TextJson jr), ((h0 ++ hj) ++ hj2).
  split; [eapply denotes_stringify; eauto|].
  unfold persist. rewrite (bind_Ok _ _ _ _ _ Hroot). unfold persist_from.
  rewrite (bind_Ok _ _ _ _ _ Hrepl).
  rewrite (bind_Ok _ _ _ _ _ (denotes_stringify _ _ _ _ (denotes_extend _ hj _ _ _ Hden0))).
  cbn [parse_opt parse]. rewrite (bind_Ok _ _ _ _ _ Hclone).
  rewrite (bind_Ok _ _ _ _ _ (setValueAtPath_no_path _ _ _ _ Hpath)).
  rewrite Hpath.
  rewrite (bind_Ok _ _ _ _ _ (denotes_stringify _ _ _ _ (denotes_extend _ hj2 _ _ _ Hdenr))).
  reflexivity.
Qed.

(** *** Saving an unchanged form *)

Lemma aset_same {A} (k : string) (c : A) (l : list (string * A)) :
  alookup k l = Some c -> aset k c l = l.
Proof.
  induction l as [|[k' x] l IH]; cbn; [discriminate|].
  destruct (String.eqb_spec k k') as [->|_].
  - intros E. injection E as ->. reflexivity.
  - intros E. rewrite IH by exact E. reflexivity.
Qed.

Lemma aset_fresh {A} (k : string) (v : A) (l : list (string * A)) :
  k ∉ l.*1 -> aset k v l = l ++ [(k, v)] /\ alookup k l = None.
Proof.
  induction l as [|[k' x] l IH]; cbn; intros Hk; [split; reflexivity|].
  apply not_elem_of_cons in Hk as [Hne Hk].
  destruct (String.eqb_spec k k') as [->|_]; [contradiction|].
  destruct (IH Hk) as [-> ->]. split; reflexivity.
Qed.

Lemma update_json_same (p : list segment) :
  forall (j sub : json), lookup_json j p = Some sub -> update_json j p sub = Some j.
Proof.
  induction p as [|seg rest IH]; intros j sub; cbn [lookup_json update_json].
  - intros E. injection E as ->. reflexivity.
  - destruct (child j seg) as [c|] eqn:Hc; [|discriminate].
    intros Hrest. rewrite (IH _ _ Hrest).
    destruct seg as [n|s], j as [ | | | | items | fields ]; try discriminate; cbn [child] in Hc.
    + destruct (array_index _); [|discriminate].
      rewrite list_insert_id by exact Hc. reflexivity.
    + rewrite aset_same by exact Hc. reflexivity.
Qed.

Lemma omap_key_cons (r : NodeRow) (rows : list NodeRow) (k : string) :
  key r = Some k -> omap key (r :: rows) = k :: omap key rows.
Proof. intros E. cbn. rewrite E. reflexivity. Qed.

Lemma populate_rows_keyed (rows : list NodeRow) :
  forall acc : record,
    Forall keyed_row rows ->
    Forall (fun r => key r <> Some "") rows ->
    NoDup (acc.*1 ++ omap key rows) ->
    fold_left populate_row rows acc = acc ++ map row_entry rows.
Proof.
  induction rows as [|r rows IH]; intros acc Hkeyed Hne Hdup; cbn [fold_left map].
  - rewrite app_nil_r. reflexivity.
  - apply Forall_cons in Hkeyed as [(k & Hk & Hproto & Hsc & _) Hkeyed].
    apply Forall_cons in Hne as [Hne1 Hne].
    rewrite (omap_key_cons _ _ _ Hk) in Hdup.
    assert (Hfresh : k ∉ acc.*1).
    { apply NoDup_app in Hdup as (_ & Hd & _). intros Hin. apply (Hd _ Hin). left. }
    assert (Hstep : populate_row acc r = acc ++ [row_entry r]).
    { unfold populate_row, row_entry. rewrite Hk, Hsc. cbn [falsy_key default from_option id].
      destruct (String.eqb_spec k "") as [->|_]; [congruence|]. cbn [andb negb].
      unfold record_set. destruct (String.eqb_spec k proto_key); [contradiction|].
      cbn [andb]. apply aset_fresh. exact Hfresh. }
    rewrite Hstep, IH; [rewrite <- app_assoc; reflexivity | exact Hkeyed | exact Hne |].
    rewrite fmap_app. unfold row_entry. cbn [fmap list_fmap fst]. rewrite Hk. cbn [default from_option id].
    rewrite <- app_assoc. exact Hdup.
Qed.

Lemma fill_rows (l : loc) (rows : list NodeRow) :
  forall (h : heap) (ps : props),
    Forall keyed_row rows ->
    NoDup (ps.*1 ++ omap key rows) ->
    h !! l = Some (Obj ps) ->
    fill (VObject l) (map row_entry rows) h
    = (Ok tt, <[l:=Obj (ps ++ map row_prop rows)]> h).
Proof.
  induction rows as [|r rows IH]; intros h ps Hkeyed Hdup Hl; cbn [fill map].
  - rewrite app_nil_r, list_insert_id by exact Hl. reflexivity.
  - apply Forall_cons in Hkeyed as [(k & Hk & Hproto & _ & Hstable) Hkeyed].
    rewrite (omap_key_cons _ _ _ Hk) in Hdup.
    assert (Hfresh : k ∉ ps.*1).
    { apply NoDup_app in Hdup as (_ & Hd & _). intros Hin. apply (Hd _ Hin). left. }
    assert (Hlt : l < length h) by (eapply lookup_lt_Some; eauto).
    assert (Hset : set_prop (VObject l) (row_entry r).1
                     (VPrim (parsePrimitive (row_entry r).2)) h
                   = (Ok tt, <[l:=Obj (ps ++ [row_prop r])]> h)).
    { unfold row_entry, row_prop. cbn [fst snd]. rewrite Hk, Hstable.
      cbn [default from_option id]. unfold set_prop. rewrite Hl. unfold named_set.
      destruct (String.eqb_spec k proto_key); [contradiction|]. cbn [andb].
      destruct (aset_fresh k (VPrim (value_ r)) ps Hfresh) as [-> _]. reflexivity. }
    destruct (row_entry r) as [k' v'] eqn:Hentry. cbn [fst snd] in Hset.
    rewrite (bind_Ok _ _ _ _ _ Hset).
    rewrite (IH _ (ps ++ [row_prop r]) Hkeyed).
    + rewrite list_insert_insert_eq, <- app_assoc. reflexivity.
    + rewrite fmap_app. unfold row_prop. cbn [fmap list_fmap fst]. rewrite Hk. cbn [default from_option id].
      rewrite <- app_assoc. exact Hdup.
    + apply list_lookup_insert_eq. exact Hlt.
Qed.

Lemma rows_denote (h : heap) (rows : list NodeRow) (fs : list (string * json)) :
  Forall2 (fun r kv => row_field r = Some kv) rows fs ->
  (map row_prop rows).*1 = fs.*1
  /\ denotes_list h (map row_prop rows).*2 fs.*2 ∅.
Proof.
  induction 1 as [|r [k j] rows fs Hr _ [IHk IHd]].
  - split; [reflexivity | constructor].
  - unfold row_field in Hr.
    destruct (key r) as [k'|] eqn:Hk; [|discriminate].
    destruct (ser_prim (value_ r)) as [j'|] eqn:Hj; [|discriminate].
    injection Hr as -> ->. cbn [map fmap list_fmap]. unfold row_prop at 1 2. rewrite Hk.
    cbn [default from_option id fst snd]. split; [f_equal; exact IHk|].
    replace (∅ : gset loc) with ((∅ : gset loc) ∪ ∅) by set_solver.
    constructor; [constructor; exact Hj | exact IHd | set_solver].
Qed.

Lemma rows_keyed (rows : list NodeRow) (fs : list (string * json)) :
  Forall2 (fun r kv => row_field r = Some kv) rows fs ->
  Forall stable_row rows ->
  Forall (fun r => key r <> Some proto_key) rows ->
  Forall keyed_row rows.
Proof.
  induction 1 as [|r kv rows fs Hr _ IH]; intros Hst Hpr; [constructor|].
  apply Forall_cons in Hst as [Hst1 Hst]. apply Forall_cons in Hpr as [Hpr1 Hpr].
  constructor; [|apply IH; assumption].
  unfold row_field in Hr. destruct (key r) as [k|] eqn:Hk; [|discriminate].
  exists k. split; [exact Hk|]. split; [congruence | exact Hst1].
Qed.

(** The form of a node with stable rows and plain keys, and the
    replacement built from it: a value that denotes what the node stands
    for. *)
Lemma node_replacement (nd : NodeData) (sub : json) (rows' : list NodeRow) (h : heap) :
  Forall stable_row (text_ nd) ->
  plain_keys (text_ nd) ->
  node_json nd = Some sub ->
  exists (repl : value) (hj : heap) (fpr : gset loc),
    build_replacement nd (populate true (Some nd)) rows' h = (Ok repl, h ++ hj)
    /\ denotes (h ++ hj) repl sub fpr
    /\ forall l, l ∈ fpr -> length h <= l.
Proof.
  intros Hstable (Hdup & Hproto & Hempty) Hnode.
  assert (Hkeyed :
    forall fs, mapM row_field (text_ nd) = Some fs ->
      sub = JObject fs ->
      (match text_ nd with [r] => bool_decide (key r = None) | _ => false end) = false ->
      populate true (Some nd) = map row_entry (text_ nd) ->
      exists repl hj fpr,
        build_replacement nd (populate true (Some nd)) rows' h = (Ok repl, h ++ hj)
        /\ denotes (h ++ hj) repl sub fpr
        /\ forall l, l ∈ fpr -> length h <= l).
  { intros fs Hfs -> Hscalar Hform.
    apply mapM_Some in Hfs.
    pose proof (rows_keyed _ _ Hfs Hstable Hproto) as Hrows.
    destruct (rows_denote (h ++ [Obj (map row_prop (text_ nd))]) _ _ Hfs) as [Hk Hd].
    exists (VObject (length h)), [Obj (map row_prop (text_ nd))], ({[length h]} ∪ ∅).
    split; [|split].
    - unfold build_replacement. rewrite Hscalar, Hform.
      rewrite (bind_Ok _ _ h (h ++ [Obj []]) (VObject (length h)) eq_refl).
      rewrite (bind_Ok _ _ _ _ _
                 (fill_rows (length h) (text_ nd) (h ++ [Obj []]) [] Hrows Hdup
                    (list_lookup_middle h [] (Obj []) _ eq_refl))).
      unfold ret. rewrite insert_app_r_alt by lia. rewrite Nat.sub_diag. reflexivity.
    - econstructor; [apply list_lookup_middle; reflexivity | exact Hk | exact Hd | set_solver].
    - intros l Hl. assert (l = length h) by set_solver. lia. }
  unfold node_json in Hnode.
  destruct (text_ nd) as [|r [|r2 rows]] eqn:Hrows.
  - (* no row *)
    cbn in Hnode. injection Hnode as <-.
    apply (Hkeyed [] eq_refl eq_refl eq_refl).
    unfold populate. rewrite Hrows. reflexivity.
  - destruct r as [[k|] v ty] eqn:Hr.
    + (* one keyed row *)
      cbn [fmap option_fmap option_map] in Hnode.
      destruct (mapM row_field [r]) as [fs|] eqn:Hfs; subst r; rewrite Hfs in Hnode;
        [|discriminate].
      injection Hnode as <-.
      apply (Hkeyed fs Hfs eq_refl); [reflexivity|].
      unfold populate. rewrite Hrows. cbn [negb key falsy_key value_].
      destruct (String.eqb_spec k "") as [->|Hk]; [reflexivity|].
      rewrite (populate_rows_keyed _ []); [reflexivity | | |].
      * apply mapM_Some in Hfs. eapply rows_keyed; eauto.
      * constructor; [cbn; congruence | constructor].
      * exact Hdup.
    + (* a single value *)
      apply Forall_cons in Hstable as [[_ Hst] _]. cbn [value_] in Hst.
      exists (VPrim v), [], ∅. rewrite app_nil_r.
      split; [|split; [constructor; exact Hnode | set_solver]].
      unfold build_replacement. rewrite Hrows. cbn [key value_].
      replace (bool_decide (None = None :> option string)) with true
        by (symmetry; apply bool_decide_eq_true; reflexivity).
      unfold populate. rewrite Hrows. cbn. rewrite Hst. reflexivity.
  - (* several rows *)
    destruct Hempty as [Hempty|Hlen]; [|discriminate].
    assert (Hnode' : JObject <$> mapM row_field (r :: r2 :: rows) = Some sub).
    { destruct r as [[k|] v ty]; exact Hnode. }
    destruct (mapM row_field (r :: r2 :: rows)) as [fs|] eqn:Hfs; [|discriminate].
    injection Hnode' as <-.
    apply (Hkeyed fs eq_refl eq_refl eq_refl).
    unfold populate. cbn [negb]. rewrite Hrows.
    rewrite (populate_rows_keyed _ []); [reflexivity | | exact Hempty | exact Hdup].
    apply mapM_Some in Hfs. eapply rows_keyed; eauto.
Qed.

Lemma persist_unchanged (nd : NodeData) (j sub : json) (rows' : list NodeRow) :
  Forall stable_row (text_ nd) ->
  plain_keys (text_ nd) ->
  node_json nd = Some sub ->
  lookup_json (normalize j) (path_segments (path nd)) = Some sub ->
  exists h' : heap,
    persist (TextJson j) nd (populate true (Some nd)) rows' [] = (Ok (TextJson (normalize j)), h').
Proof.
  intros Hstable Hkeys Hnode Hlook.
  destruct (alloc_fresh_tree j []) as (root & h0 & Hroot & hj0 & fp0 & -> & Hden0 & _).
  cbn [app] in *.
  destruct (node_replacement nd sub rows' hj0 Hstable Hkeys Hnode)
    as (repl & hj & fpr & Hrepl & Hdenr & Hfpr).
  destruct (alloc_fresh_tree (normalize j) (hj0 ++ hj))
    as (newRoot & h2 & Hclone & hj2 & fp2 & -> & Hden2 & Hfp2).
  rewrite normalize_idem in Hden2.
  assert (Hstr0 := denotes_stringify _ _ _ _ (denotes_extend _ hj _ _ _ Hden0)).
  assert (Hdenr2 := denotes_extend _ hj2 _ _ _ Hdenr).
  assert (Hstart :
             persist (TextJson j) nd (populate true (Some nd)) rows' []
             = (let* final := setValueAtPath newRoot (path nd) repl in
                let toSave := if nonempty_path (path nd) then final else repl in
                let* out := stringify toSave in
                match out with Some t => ret t | None => unmodelled end)
                 ((hj0 ++ hj) ++ hj2)).
  { unfold persist. cbn [load_root parse]. rewrite (bind_Ok _ _ _ _ _ Hroot).
    unfold persist_from. rewrite (bind_Ok _ _ _ _ _ Hrepl), (bind_Ok _ _ _ _ _ Hstr0).
    cbn [parse_opt parse]. rewrite (bind_Ok _ _ _ _ _ Hclone). reflexivity. }
  rewrite Hstart. clear Hstart.
  destruct (path nd) as [[|seg rest]|] eqn:Hpath; cbn [path_segments default] in Hlook.
  - cbn in Hlook. injection Hlook as <-.
    exists ((hj0 ++ hj) ++ hj2).
    rewrite (bind_Ok _ _ _ _ _ (setValueAtPath_no_path _ _ (Some []) _ eq_refl)).
    cbn [nonempty_path]. rewrite (bind_Ok _ _ _ _ _ (denotes_stringify _ _ _ _ Hdenr2)).
    reflexivity.
  - destruct (walk_existing (seg :: rest) newRoot (normalize j) fp2 ((hj0 ++ hj) ++ hj2)
                repl sub fpr (normalize j) ltac:(discriminate) Hden2 Hdenr2)
      as (h3 & fp3 & Hwalk & Hden3 & _ & _).
    { intros l Hl2 Hlr. apply Hfp2 in Hl2.
      eapply denotes_dom in Hlr; [|exact Hdenr]. lia. }
    { apply update_json_same. exact Hlook. }
    exists h3.
    assert (Hset : setValueAtPath newRoot (Some (seg :: rest)) repl ((hj0 ++ hj) ++ hj2)
                   = (Ok newRoot, h3)).
    { unfold setValueAtPath. rewrite (bind_Ok _ _ _ _ _ Hwalk). reflexivity. }
    rewrite (bind_Ok _ _ _ _ _ Hset). cbn [nonempty_path].
    rewrite (bind_Ok _ _ _ _ _ (denotes_stringify _ _ _ _ Hden3)). reflexivity.
  - cbn in Hlook. injection Hlook as <-.
    exists ((hj0 ++ hj) ++ hj2).
    rewrite (bind_Ok _ _ _ _ _ (setValueAtPath_no_path _ _ None _ eq_refl)).
    cbn [nonempty_path]. rewrite (bind_Ok _ _ _ _ _ (denotes_stringify _ _ _ _ Hdenr2)).
    reflexivity.
Qed.

(** C3, amended: a save with the form as it was populated leaves the
    document as [JSON.stringify] writes it, when the rows of the node are
    scalars with plain keys that their own text coerces back to, and the
    path leads to the value the rows stand for.  What is stored is the
    document with each negative zero written as [0] and each number that
    is not finite (read from a numeral that overflows) as [null]: it is
    the document itself when it holds no such number. *)
Theorem save_unchanged_form (st : state) (nd : NodeData) (j sub : json) :
  selectedNode st = Some nd ->
  json_text st = TextJson j ->
  form st = populate true (Some nd) ->
  Forall stable_row (text_ nd) ->
  plain_keys (text_ nd) ->
  node_json nd = Some sub ->
  lookup_json (normalize j) (path_segments (path nd)) = Some sub ->
  exists st' : state,
    save st = Some st'
    /\ json_text st' = TextJson (normalize j)
    /\ (exact_numbers j = true -> json_text st' = json_text st)
    /\ isEditing st' = false.
Proof.
  intros Hsel Htext Hform Hstable Hkeys Hnode Hlook.
  destruct (persist_unchanged nd j sub (text_ (updated_node (form st) nd))
              Hstable Hkeys Hnode Hlook) as (h' & Hpersist).
  unfold save, handleSave. rewrite Hsel, Htext, Hform.
  rewrite Hform in Hpersist. rewrite Hpersist. cbn.
  eexists. split; [reflexivity|]. split; [reflexivity|]. split; [|reflexivity].
  intros Hexact. cbn. apply normalize_exact in Hexact. rewrite Hexact. reflexivity.
Qed.

Lemma save_unchanged_form_witness :
  exists st' : state,
    save (startEditing (viewing user_years (TextJson user_years_doc))) = Some st'
    /\ json_text st' = TextJson (normalize user_years_doc)
    /\ (exact_numbers user_years_doc = true
        -> json_text st'
           = json_text (startEditing (viewing user_years (TextJson user_years_doc))))
    /\ isEditing st' = false.
Proof.
  apply (save_unchanged_form (startEditing (viewing user_years (TextJson user_years_doc)))
           user_years user_years_doc (JObject [("years", JNumber (of_N 42))])).
  - reflexivity.
  - reflexivity.
  - reflexivity.
  - repeat constructor; vm_compute; reflexivity.
  - split; [|split].
    + cbn. repeat constructor. intros H. inversion H.
    + repeat constructor. discriminate.
    + right. reflexivity.
  - reflexivity.
  - vm_compute. reflexivity.
Defined.

(** C3, as the claim has it, fails on a string that reads as a number:
    the unchanged form turns it into the number. *)
Lemma save_unchanged_form_coerces :
  ~ (forall (st st' : state) (nd : NodeData) (j sub : json),
       selectedNode st = Some nd ->
       json_text st = TextJson j ->
       form st = populate true (Some nd) ->
       node_json nd = Some sub ->
       lookup_json j (path_segments (path nd)) = Some sub ->
       save st = Some st' ->
       json_text st' = TextJson j).
Proof.
  intros H.
  pose (st := startEditing (viewing user_age (TextJson user_doc))).
  assert (Hsave : exists st', save st = Some st'
                    /\ json_text st' = TextJson (JObject [("user", JObject [("age", JNumber (of_N 42))])])).
  { eexists. split; vm_compute; reflexivity. }
  destruct Hsave as (st' & Hsave & Htext).
  specialize (H st st' user_age user_doc (JObject [("age", JString "42")])
                eq_refl eq_refl eq_refl eq_refl eq_refl Hsave).
  rewrite Htext in H. discriminate H.
Qed.

(** A number off the path that overflowed when the document was read is
    written back as [null] by a save that changes nothing. *)
Example save_writes_overflow_as_null :
  json_text <$> save (startEditing (viewing user_years
                        (TextJson (JObject [("user", JObject [("years", JNumber (of_N 42))]);
                                            ("big", JNumber (S754_infinity false))]))))
  = Some (TextJson (JObject [("user", JObject [("years", JNumber (of_N 42))]);
                             ("big", JNull)])).
Proof. vm_compute. reflexivity. Qed.

(** Two more ways for an unchanged form to change the document: the
    array and object rows of a node are not part of the replacement, and
    a [null] is shown, and written back, as the empty string. *)
Example save_drops_nested_rows (v : prim) :
  json_text <$> save (startEditing (viewing (nested_node v) (TextJson nested_doc)))
  = Some (TextJson (JObject [("a", JObject [("b", JNumber (of_N 1))])])).
Proof. vm_compute. reflexivity. Qed.

Example save_turns_null_into_empty_string :
  json_text <$> save (startEditing (viewing null_node (TextJson (JObject [("a", JNull)]))))
  = Some (TextJson (JObject [("a", JString "")])).
Proof. vm_compute. reflexivity. Qed.

(** A numeric segment selects by the index its key stands for. *)
Example child_by_index :
  child (JArray [JNull; JBool true]) (SegNum 1) = Some (JBool true).
Proof. vm_compute. reflexivity. Qed.

Lemma load_root_total (raw : text) :
  raw <> TextMalformed -> exists root h0, load_root raw [] = (Ok root, h0).
Proof.
  destruct raw as [ | | j]; [eexists _, _; reflexivity | contradiction |].
  intros _. destruct (alloc_fresh_tree j []) as (v & h' & Hv & _). eauto.
Qed.

(** C6: with the empty path the mutator returns the replacement and
    nothing else happens; a save of a node with the empty path stores the
    serialized replacement as the document. *)
Theorem empty_path_replaces_document :
  (forall (obj r : value) (h : heap),
     setValueAtPath obj (Some []) r h = (Ok r, h)
     /\ setValueAtPath obj None r h = (Ok r, h))
  /\ forall (st : state) (nd : NodeData) (repl : value) (h1 : heap),
       selectedNode st = Some nd ->
       nonempty_path (path nd) = false ->
       json_text st <> TextMalformed ->
       build_replacement nd (form st) (text_ (updated_node (form st) nd))
         (snd (load_root (json_text st) [])) = (Ok repl, h1) ->
       exists t : text,
         stringify repl h1 = (Ok (Some t), h1)
         /\ handleSave st
            = Some {| selectedNode := Some (updated_node (form st) nd);
                      json_text := t;
                      isEditing := false;
                      form := form st;
                      trace := (trace st ++ [UpdateSelectedNode (updated_node (form st) nd);
                                             GetJson])
                                 ++ [SetJson t; SetIsEditing false] |}.
Proof.
  split; [intros obj r h; split; reflexivity|].
  intros st nd repl h1 Hsel Hpath Htext Hrepl.
  destruct (load_root_total _ Htext) as (root & h0 & Hroot).
  rewrite Hroot in Hrepl. cbn [snd] in Hrepl.
  destruct (persist_empty_path _ _ _ _ _ _ _ _ Hpath Hroot Hrepl) as (t & h' & Hstr & Hpersist).
  exists t. split; [exact Hstr|].
  unfold handleSave. rewrite Hsel, Hpersist. reflexivity.
Qed.

Lemma empty_path_replaces_document_witness :
  exists t : text,
    stringify (VObject 1) [Obj []; Obj [("a", VPrim (PNumber (of_N 2)))]]
      = (Ok (Some t), [Obj []; Obj [("a", VPrim (PNumber (of_N 2)))]])
    /\ json_text <$> handleSave (startEditing (viewing two_rows TextEmpty)) = Some t.
Proof.
  destruct (proj2 empty_path_replaces_document
              (startEditing (viewing two_rows TextEmpty)) two_rows
              (VObject 1) [Obj []; Obj [("a", VPrim (PNumber (of_N 2)))]]
              eq_refl eq_refl ltac:(discriminate) ltac:(vm_compute; reflexivity))
    as (t & Hstr & Hsave).
  exists t. split; [exact Hstr|]. rewrite Hsave. reflexivity.
Defined.

(** ** The keys of numeric segments *)

Lemma append_cons (x : ascii) (a b : string) :
  (String x a ++ b = String x (a ++ b))%string.
Proof. reflexivity. Qed.

(** The rendering of a number starts with a digit, a sign, or the first
    letter of [NaN] or [Infinity]: never with the first letter of
    [__proto__] or of [length]. *)
Lemma string_of_Z_head (z : Z) :
  exists (c : ascii) (rest : string),
    string_of_Z z = String c rest /\ c <> "_"%char /\ c <> "l"%char.
Proof.
  unfold string_of_Z. destruct (N.to_uint (Z.to_N z)); cbn;
    eexists _, _; (split; [reflexivity | split; discriminate]).
Qed.

Lemma render_head (s n k : Z) :
  exists (c : ascii) (rest : string),
    JSNumber.render s n k = String c rest /\ c <> "_"%char /\ c <> "l"%char.
Proof.
  destruct (string_of_Z_head s) as (c & rest & Hds & Hc).
  unfold JSNumber.render. rewrite Hds.
  destruct ((k <=? n) && (n <=? 21))%Z; [rewrite append_cons; eauto|].
  destruct ((0 <? n) && (n <=? 21))%Z eqn:Hn.
  { apply andb_true_iff in Hn as [Hn _]. apply Z.ltb_lt in Hn.
    destruct (Z.to_nat n) as [|m] eqn:Hm; [lia|].
    cbn [substring]. rewrite append_cons. eauto. }
  destruct ((-6 <? n) && (n <=? 0))%Z.
  { rewrite append_cons. eexists _, _. split; [reflexivity | split; discriminate]. }
  cbv zeta. destruct (k =? 1)%Z; [rewrite append_cons; eauto|].
  cbn [substring]. rewrite append_cons. eauto.
Qed.

Lemma to_string_head (x : number) :
  exists (c : ascii) (rest : string),
    to_string x = String c rest /\ c <> "_"%char /\ c <> "l"%char.
Proof.
  destruct x as [s| [] | | [] m e]; cbn [to_string];
    try (eexists _, _; split; [reflexivity | split; discriminate]).
  - destruct (if (0 <=? e)%Z then _ else _) as [p q].
    destruct (shortest _ _ _ _ _ _) as [[s n] k].
    rewrite append_cons. eexists _, _. split; [reflexivity | split; discriminate].
  - destruct (if (0 <=? e)%Z then _ else _) as [p q].
    destruct (shortest _ _ _ _ _ _) as [[s n] k].
    destruct (render_head s n k) as (c & rest & -> & Hc). cbn. eauto.
Qed.

(** The key of a numeric segment is never [__proto__] or [length]. *)
Lemma number_key (n : N) :
  ToPropertyKey (SegNum n) <> proto_key /\ ToPropertyKey (SegNum n) <> length_key.
Proof.
  cbn [ToPropertyKey]. destruct (to_string_head (of_N n)) as (c & rest & -> & Hc1 & Hc2).
  split; intros H; injection H as H _; congruence.
Qed.

(** A segment other than the key [__proto__] names an ordinary property
    of a container of its own kind. *)
Lemma segment_key (seg : segment) :
  seg <> SegStr proto_key ->
  ToPropertyKey seg <> proto_key
  /\ (is_number seg = true -> ToPropertyKey seg <> length_key).
Proof.
  destruct seg as [n|s]; intros Hseg.
  - split; [|intros _]; apply number_key.
  - split; [cbn; congruence | discriminate].
Qed.

(** ** What a save may write to *)

Lemma same_below_refl (n : nat) (h : heap) : same_below n h h.
Proof. split; [lia | reflexivity]. Qed.

Lemma same_below_trans (n : nat) (h1 h2 h3 : heap) :
  same_below n h1 h2 -> same_below n h2 h3 -> same_below n h1 h3.
Proof.
  intros [Hl1 H1] [Hl2 H2]. split; [lia|]. intros l Hl. rewrite H2, H1 by exact Hl. reflexivity.
Qed.

Lemma keeps_spares {A} (n : nat) (m : M A) (Q : A -> Prop) : keeps n m Q -> spares n m.
Proof. intros H h h' res Hn Hc E. exact (proj1 (H h h' res Hn Hc E)). Qed.

Lemma keeps_ret {A} (n : nat) (a : A) (Q : A -> Prop) : Q a -> keeps n (ret a) Q.
Proof.
  intros HQ h h' res Hn Hc E. injection E as <- <-.
  split; [apply same_below_refl|]. intros a' Ea. injection Ea as <-. auto.
Qed.

Lemma keeps_reads {A} (n : nat) (m : M A) : reads m -> keeps n m (fun _ => True).
Proof.
  intros Hr h h' res Hn Hc E. apply Hr in E as ->.
  split; [apply same_below_refl | auto].
Qed.

Lemma keeps_bind {A B} (n : nat) (m : M A) (k : A -> M B) (Q : A -> Prop) (R : B -> Prop) :
  keeps n m Q -> (forall a, Q a -> keeps n (k a) R) -> keeps n (bind m k) R.
Proof.
  intros Hm Hk h h' res Hn Hc E. unfold bind in E.
  destruct (m h) as [[a|e|] h1] eqn:Em.
  - destruct (Hm h h1 (Ok a) Hn Hc Em) as [Hs1 Hok]. destruct (Hok a eq_refl) as [Hc1 HQ].
    destruct (Hk a HQ h1 h' res ltac:(destruct Hs1; lia) Hc1 E) as [Hs2 Hok2].
    split; [eapply same_below_trans; eauto | exact Hok2].
  - injection E as <- <-. split; [exact (proj1 (Hm h h1 _ Hn Hc Em)) | discriminate].
  - injection E as <- <-. split; [exact (proj1 (Hm h h1 _ Hn Hc Em)) | discriminate].
Qed.

Lemma spares_bind {A B} (n : nat) (m : M A) (k : A -> M B) (Q : A -> Prop) :
  keeps n m Q -> (forall a, Q a -> spares n (k a)) -> spares n (bind m k).
Proof.
  intros Hm Hk h h' res Hn Hc E. unfold bind in E.
  destruct (m h) as [[a|e|] h1] eqn:Em.
  - destruct (Hm h h1 (Ok a) Hn Hc Em) as [Hs1 Hok]. destruct (Hok a eq_refl) as [Hc1 HQ].
    eapply same_below_trans; [exact Hs1|].
    exact (Hk a HQ h1 h' res ltac:(destruct Hs1; lia) Hc1 E).
  - injection E as <- <-. exact (proj1 (Hm h h1 _ Hn Hc Em)).
  - injection E as <- <-. exact (proj1 (Hm h h1 _ Hn Hc Em)).
Qed.


(** *** The operations on the heap *)

Lemma reads_get_prop (o : value) (k : string) : reads (get_prop o k).
Proof.
  intros h h' res. unfold get_prop.
  repeat match goal with
         | |- context [match ?x with _ => _ end] => destruct x
         end; intros E; injection E as <- <-; reflexivity.
Qed.

Lemma reads_isArray (v : value) : reads (isArray v).
Proof.
  intros h h' res. unfold isArray.
  repeat match goal with
         | |- context [match ?x with _ => _ end] => destruct x
         end; intros E; injection E as <- <-; reflexivity.
Qed.


Lemma alookup_elem {A} (k : string) (ps : list (string * A)) (v : A) :
  alookup k ps = Some v -> v ∈ ps.*2.
Proof.
  induction ps as [|[k' x] ps IH]; cbn; [discriminate|].
  destruct (String.eqb k k'); intros E.
  - injection E as ->. left.
  - right. auto.
Qed.

Lemma keeps_get_prop (n : nat) (o : value) (k : string) :
  above n o -> keeps n (get_prop o k) (above n).
Proof.
  intros Ho h h' res Hn Hc E. pose proof (reads_get_prop _ _ _ _ _ E) as ->.
  split; [apply same_below_refl|]. intros a ->. split; [exact Hc|].
  unfold get_prop in E. destruct o as [p|l].
  - destruct p; try discriminate; destruct (String.eqb k proto_key); try discriminate;
      injection E as <-; exact I.
  - cbn in Ho. destruct (h !! l) as [[ps|es ps]|] eqn:Hl; [| |discriminate].
    + specialize (Hc l _ Ho Hl). cbn in Hc. unfold named_get in E.
      destruct (alookup k ps) as [v|] eqn:Hv.
      * injection E as <-. eapply Forall_forall in Hc; [exact Hc|].
        eapply alookup_elem; eauto.
      * destruct (String.eqb k proto_key); [discriminate|]. injection E as <-. exact I.
    + specialize (Hc l _ Ho Hl). cbn in Hc. apply Forall_app in Hc as [Hes Hps].
      destruct (array_index k) as [i|].
      * injection E as <-. destruct (nth_in_or_default i es (VPrim PUndefined)) as [Hin| ->];
          [|exact I].
        eapply Forall_forall in Hes; [exact Hes|]. apply list_elem_of_In. exact Hin.
      * destruct (String.eqb k length_key); [injection E as <-; exact I|].
        unfold named_get in E. destruct (alookup k ps) as [v|] eqn:Hv.
        -- injection E as <-. eapply Forall_forall in Hps; [exact Hps|].
           eapply alookup_elem; eauto.
        -- destruct (String.eqb k proto_key); [discriminate|]. injection E as <-. exact I.
Qed.

Lemma Forall_aset {A} (P : A -> Prop) (k : string) (v : A) (ps : list (string * A)) :
  P v -> Forall P ps.*2 -> Forall P (aset k v ps).*2.
Proof.
  intros Hv. induction ps as [|[k' x] ps IH]; cbn; intros Hps.
  - constructor; [exact Hv | constructor].
  - apply Forall_cons in Hps as [Hx Hps].
    destruct (String.eqb k k'); cbn; constructor; auto.
Qed.

Lemma Forall_set_elem (P : value -> Prop) (i : nat) (v : value) (es : list value) :
  P v -> P (VPrim PUndefined) -> Forall P es -> Forall P (set_elem i v es).
Proof.
  intros Hv Hu Hes. unfold set_elem. destruct (i <? length es)%nat.
  - apply Forall_insert; assumption.
  - apply Forall_app. split; [exact Hes|]. apply Forall_app. split.
    + apply Forall_replicate. exact Hu.
    + constructor; [exact Hv | constructor].
Qed.

Lemma closed_insert (n : nat) (h : heap) (l : loc) (o : object) :
  closed n h -> Forall (above n) (obj_values o) -> closed n (<[l:=o]> h).
Proof.
  intros Hc Ho l' o' Hl' E.
  destruct (decide (l = l')) as [<-|Hne].
  - destruct (decide (l < length h)) as [Hlt|Hge].
    + rewrite list_lookup_insert_eq in E by exact Hlt. injection E as <-. exact Ho.
    + rewrite list_insert_ge in E by lia. eapply Hc; eauto.
  - rewrite list_lookup_insert_ne in E by exact Hne. eapply Hc; eauto.
Qed.

Lemma same_below_insert (n : nat) (h : heap) (l : loc) (o : object) :
  n <= l -> same_below n h (<[l:=o]> h).
Proof.
  intros Hl. split; [rewrite length_insert; lia|].
  intros l' Hl'. apply list_lookup_insert_ne. lia.
Qed.

(** A write goes to the object it is given; it keeps the heap closed when
    the value written does not refer below [n]. *)
Lemma spares_set_prop (n : nat) (o : value) (k : string) (v : value) :
  above n o -> spares n (set_prop o k v).
Proof.
  intros Ho h h' res Hn Hc E. unfold set_prop in E. destruct o as [p|l].
  - assert (h' = h) as -> by
      (destruct (String.eqb k proto_key); [destruct p|]; injection E as <- <-; reflexivity).
    apply same_below_refl.
  - cbn in Ho.
    repeat match type of E with
           | context [match ?x with _ => _ end] => destruct x
           end; injection E as <- <-;
      first [apply same_below_refl | apply same_below_insert; exact Ho].
Qed.

Lemma keeps_set_prop (n : nat) (o : value) (k : string) (v : value) :
  above n o -> above n v -> keeps n (set_prop o k v) (fun _ => True).
Proof.
  intros Ho Hv h h' res Hn Hc E.
  split; [exact (spares_set_prop n _ k v Ho h h' res Hn Hc E)|].
  intros [] ->. split; [|exact I].
  unfold set_prop in E. destruct o as [p|l].
  - destruct (String.eqb k proto_key); [destruct p|]; discriminate.
  - cbn in Ho. destruct (h !! l) as [[ps|es ps]|] eqn:Hl; [| |discriminate].
    + pose proof (Hc l _ Ho Hl) as Hps. cbn in Hps.
      destruct (named_set k v ps) as [ps'| |] eqn:Hset; try discriminate.
      injection E as <-. apply closed_insert; [exact Hc|]. cbn.
      unfold named_set in Hset. destruct (_ && _)%bool.
      * destruct v as [[]|]; try discriminate; injection Hset as <-; exact Hps.
      * injection Hset as <-. apply Forall_aset; assumption.
    + pose proof (Hc l _ Ho Hl) as Hps. cbn in Hps. apply Forall_app in Hps as [Hes Hps].
      destruct (array_index k) as [i|].
      * injection E as <-. apply closed_insert; [exact Hc|]. cbn.
        apply Forall_app. split; [|exact Hps].
        apply Forall_set_elem; [exact Hv | exact I | exact Hes].
      * destruct (String.eqb k length_key); [discriminate|].
        destruct (named_set k v ps) as [ps'| |] eqn:Hset; try discriminate.
        injection E as <-. apply closed_insert; [exact Hc|]. cbn.
        apply Forall_app. split; [exact Hes|].
        unfold named_set in Hset. destruct (_ && _)%bool.
        -- destruct v as [[]|]; try discriminate; injection Hset as <-; exact Hps.
        -- injection Hset as <-. apply Forall_aset; assumption.
Qed.

Lemma keeps_new_object (n : nat) (o : object) :
  Forall (above n) (obj_values o) -> keeps n (new_object o) (above n).
Proof.
  intros Ho h h' res Hn Hc E. unfold new_object in E. injection E as <- <-.
  split.
  - split; [rewrite length_app; lia|]. intros l Hl. apply lookup_app_l. lia.
  - intros a Ea. injection Ea as <-. split; [|exact Hn].
    intros l o' Hl E. destruct (decide (l < length h)) as [Hlt|Hge].
    + rewrite lookup_app_l in E by exact Hlt. eapply Hc; eauto.
    + rewrite lookup_app_r in E by lia.
      destruct (l - length h) as [|i]; [|destruct i; discriminate].
      injection E as <-. exact Ho.
Qed.

Lemma container_for_values (n : nat) (seg : segment) :
  Forall (above n) (obj_values (container_for seg)).
Proof. unfold container_for. destruct (is_number seg); constructor. Qed.

Lemma keeps_fresh_container (n : nat) (cur : value) (key : string) (seg : segment) :
  above n cur ->
  keeps n (let* fresh := new_object (container_for seg) in set_prop cur key fresh)
    (fun _ => True).
Proof.
  intros Hcur. eapply keeps_bind; [apply keeps_new_object, container_for_values|].
  intros fresh Hfresh. apply keeps_set_prop; assumption.
Qed.

(** The loop of the mutator writes to the cursor and to fresh objects. *)
Lemma spares_walk (n : nat) (r : value) (p : list segment) :
  forall cur : value, above n cur -> spares n (walk cur p r).
Proof.
  induction p as [|seg rest IH]; intros cur Hcur.
  - apply (keeps_spares n _ (fun _ => True)). apply keeps_ret. exact I.
  - destruct rest as [|nextSeg rest]; [rewrite walk_last; apply spares_set_prop; exact Hcur|].
    rewrite walk_step. cbv zeta. destruct (is_number seg).
    + eapply spares_bind; [apply keeps_reads, reads_isArray|]. intros arr _.
      eapply spares_bind with (Q := above n).
      { destruct arr; [apply keeps_ret; exact Hcur | apply keeps_new_object; constructor]. }
      intros cur' Hcur'.
      eapply spares_bind; [apply keeps_get_prop; exact Hcur'|]. intros c _.
      eapply spares_bind with (Q := fun _ => True).
      { destruct (is_nullish c); [apply keeps_fresh_container; exact Hcur' |
                                  apply keeps_ret; exact I]. }
      intros _ _.
      eapply spares_bind; [apply keeps_get_prop; exact Hcur'|]. intros cur'' Hcur''.
      apply IH. exact Hcur''.
    + eapply spares_bind; [apply keeps_get_prop; exact Hcur|]. intros c _.
      eapply spares_bind with (Q := fun _ => True).
      { destruct (is_nullish c); [apply keeps_ret; exact I|].
        eapply keeps_bind; [apply keeps_get_prop; exact Hcur|].
        intros c' _. apply keeps_ret. exact I. }
      intros replace _.
      eapply spares_bind with (Q := fun _ => True).
      { destruct replace; [apply keeps_fresh_container; exact Hcur | apply keeps_ret; exact I]. }
      intros _ _.
      eapply spares_bind; [apply keeps_get_prop; exact Hcur|]. intros cur' Hcur'.
      apply IH. exact Hcur'.
Qed.

(** Over a cursor that is not an array, a numeric segment that is not the
    last goes on from a fresh array that nothing refers to: whatever the
    rest of the path, no object of the heap that was there is written to
    (the prototypes, which a path through [__proto__] could reach, are no
    objects of the heap). *)
Lemma walk_detached (h h' : heap) (cur r : value) (n : N) (nextSeg : segment)
    (rest : list segment) (res : result unit) :
  isArray cur h = (Ok false, h) ->
  walk cur (SegNum n :: nextSeg :: rest) r h = (res, h') ->
  forall (l : loc) (o : object), h !! l = Some o -> h' !! l = Some o.
Proof.
  intros Harr Hwalk l o Hl.
  assert (Hfresh : walk cur (SegNum n :: nextSeg :: rest) r h
                   = walk (VObject (length h)) (SegNum n :: nextSeg :: rest) r
                       (h ++ [Arr [] []])).
  { rewrite !walk_step. cbn [is_number]. cbv zeta.
    rewrite (bind_Ok _ _ _ _ _ Harr).
    rewrite (bind_Ok _ _ h (h ++ [Arr [] []]) (VObject (length h)) eq_refl).
    assert (Harr' : isArray (VObject (length h)) (h ++ [Arr [] []])
                    = (Ok true, h ++ [Arr [] []])).
    { unfold isArray. rewrite list_lookup_middle by reflexivity. reflexivity. }
    rewrite (bind_Ok _ _ _ _ _ Harr').
    rewrite (bind_Ok _ _ (h ++ [Arr [] []]) (h ++ [Arr [] []]) (VObject (length h)) eq_refl).
    reflexivity. }
  rewrite Hfresh in Hwalk.
  assert (Hclosed : closed (length h) (h ++ [Arr [] []])).
  { intros l' o' Hl' E. rewrite lookup_app_r in E by exact Hl'.
    destruct (l' - length h) as [|i]; [|destruct i; discriminate].
    injection E as <-. constructor. }
  destruct (spares_walk (length h) r _ (VObject (length h)) (Nat.le_refl _)
              (h ++ [Arr [] []]) h' res ltac:(rewrite length_app; lia) Hclosed Hwalk)
    as [_ Hsame].
  assert (Hlt : l < length h) by (eapply lookup_lt_Some; eauto).
  rewrite Hsame by exact Hlt. rewrite lookup_app_l by exact Hlt. exact Hl.
Qed.








(** The save runs the mutator by way of [install]. *)
Lemma persist_from_install (root : value) (nd : NodeData) (f : record) (rows : list NodeRow)
    (h : heap) :
  persist_from root nd f rows h
  = (let* replacement := build_replacement nd f rows in
     let* final := install root (path nd) replacement in
     let toSave := if nonempty_path (path nd) then final else replacement in
     let* out := stringify toSave in
     match out with
     | Some t => ret t
     | None => unmodelled
     end) h.
Proof.
  unfold persist_from, install, bind.
  destruct (build_replacement nd f rows h) as [[repl|e|] h1]; try reflexivity.
  destruct (stringify root h1) as [[s|e|] h2]; try reflexivity.
  destruct (parse_opt s h2) as [[newRoot|e|] h3]; reflexivity.
Qed.

(** *** Runs inside the model *)





























(** The clone is written to: the call returns the document with the
    replacement in it, and the root still serializes as before. *)
Example install_user_age :
  (let* final := install (VObject 1) (Some [SegStr "user"; SegStr "age"])
                   (VPrim (PNumber (of_N 43))) in
   let* after := stringify final in
   let* before := stringify (VObject 1) in
   ret (final, after, before))
    [Obj [("age", VPrim (PString "42"))]; Obj [("user", VObject 0)]]
  = (Ok (VObject 3,
         Some (TextJson (JObject [("user", JObject [("age", JNumber (of_N 43))])])),
         Some (TextJson user_doc)),
     [Obj [("age", VPrim (PString "42"))]; Obj [("user", VObject 0)];
      Obj [("age", VPrim (PNumber (of_N 43)))]; Obj [("user", VObject 2)]]).
Proof. vm_compute. reflexivity. Qed.

(** * Further properties *)

Import Display Edits.

(** ** Association lists *)

Lemma alookup_aset {A} (k k' : string) (v : A) (l : list (string * A)) :
  alookup k' (aset k v l) = if String.eqb k' k then Some v else alookup k' l.
Proof.
  induction l as [|[k0 v0] l IH]; cbn; [reflexivity|].
  destruct (String.eqb_spec k k0) as [->|Hk]; cbn.
  - destruct (String.eqb_spec k' k0); reflexivity.
  - rewrite IH. destruct (String.eqb_spec k' k0) as [->|]; [|reflexivity].
    destruct (String.eqb_spec k0 k); [congruence | reflexivity].
Qed.

Lemma alookup_fmap {A B} (g : A -> B) (k : string) (l : list (string * A)) :
  alookup k (map (fun kv => (kv.1, g kv.2)) l) = g <$> alookup k l.
Proof.
  induction l as [|[k0 v0] l IH]; cbn; [reflexivity|].
  destruct (String.eqb k k0); [reflexivity | exact IH].
Qed.

Lemma alookup_key {A} (k : string) (l : list (string * A)) (x : A) :
  alookup k l = Some x -> k ∈ l.*1.
Proof.
  induction l as [|[k' v'] l IH]; [discriminate|]. cbn.
  destruct (String.eqb_spec k k') as [<-|_]; intros Hx; [left | right; apply IH, Hx].
Qed.

Lemma key_alookup {A} (k : string) (l : list (string * A)) :
  k ∈ l.*1 -> exists x, alookup k l = Some x.
Proof.
  induction l as [|[k' x] l IH]; intros Hin; [apply elem_of_nil in Hin; contradiction|].
  cbn. destruct (String.eqb_spec k k'); [eauto|].
  apply elem_of_cons in Hin as [?|Hin]; [contradiction | apply IH, Hin].
Qed.

Lemma alookup_None {A} (k : string) (l : list (string * A)) :
  alookup k l = None -> k ∉ l.*1.
Proof.
  induction l as [|[k' x] l IH]; cbn; intros E; [apply not_elem_of_nil|].
  destruct (String.eqb_spec k k'); [discriminate|].
  apply not_elem_of_cons. split; [assumption | apply IH, E].
Qed.

Lemma alookup_same_keys {A B} (k : string) (l1 : list (string * A)) (l2 : list (string * B))
    (a : A) :
  l1.*1 = l2.*1 -> alookup k l1 = Some a -> exists c, alookup k l2 = Some c.
Proof.
  revert l2. induction l1 as [|[k1 x1] l1 IH]; intros l2 Hkeys; [discriminate|].
  destruct l2 as [|[k2 x2] l2]; [discriminate|].
  cbn in Hkeys. injection Hkeys as -> Hkeys. cbn.
  destruct (String.eqb k k2); [eauto | apply IH; exact Hkeys].
Qed.

Lemma aset_keys_same {A} (k : string) (v : A) (l : list (string * A)) :
  k ∈ l.*1 -> (aset k v l).*1 = l.*1.
Proof.
  induction l as [|[k0 v0] l IH]; cbn; intros Hin.
  - apply elem_of_nil in Hin. contradiction.
  - destruct (String.eqb_spec k k0) as [->|Hk]; [reflexivity|]. cbn.
    apply elem_of_cons in Hin as [->|Hin]; [contradiction|]. rewrite IH by exact Hin.
    reflexivity.
Qed.

Lemma aset_NoDup {A} (k : string) (v : A) (l : list (string * A)) :
  NoDup l.*1 -> NoDup (aset k v l).*1.
Proof.
  intros Hdup. destruct (decide (k ∈ l.*1)) as [Hin|Hin].
  - rewrite aset_keys_same by exact Hin. exact Hdup.
  - destruct (aset_fresh k v l Hin) as [-> _]. rewrite fmap_app. cbn.
    apply NoDup_app. split; [exact Hdup|]. split; [|apply NoDup_singleton].
    intros x Hx Hx'. apply list_elem_of_singleton in Hx'. subst x. contradiction.
Qed.

Lemma aset_keys_eq {A B} (k : string) (v : A) (w : B) (l1 : list (string * A))
    (l2 : list (string * B)) :
  l1.*1 = l2.*1 -> (aset k v l1).*1 = (aset k w l2).*1.
Proof.
  revert l2. induction l1 as [|[k1 x1] l1 IH]; intros [|[k2 x2] l2] Hkeys;
    try discriminate; [reflexivity|].
  cbn in Hkeys. injection Hkeys as <- Hkeys. cbn.
  destruct (String.eqb k k1); cbn; [congruence | f_equal; apply IH; exact Hkeys].
Qed.

Lemma assoc_ext {A} (l1 l2 : list (string * A)) :
  l1.*1 = l2.*1 ->
  NoDup l1.*1 ->
  (forall k, k ∈ l1.*1 -> alookup k l1 = alookup k l2) ->
  l1 = l2.
Proof.
  revert l2. induction l1 as [|[k x] l1 IH]; intros [|[k2 x2] l2] Hkeys Hdup Hlook;
    try discriminate; [reflexivity|].
  cbn in Hkeys. injection Hkeys as <- Hkeys. cbn in Hdup. apply NoDup_cons in Hdup as [Hk Hdup].
  pose proof (Hlook k ltac:(left)) as Hx. cbn in Hx. rewrite String.eqb_refl in Hx.
  injection Hx as <-. f_equal. apply IH; [exact Hkeys | exact Hdup|].
  intros k' Hin. specialize (Hlook k' ltac:(right; exact Hin)). cbn in Hlook.
  destruct (String.eqb_spec k' k) as [E|_]; [subst; contradiction | exact Hlook].
Qed.

(** ** The coercion keeps the text *)

(** X1: the coercion keeps the text.  [String] of the value that
    [parsePrimitive] returns is the text it was given, so no two texts are
    coerced to the same value; and a value it returns, other than [null],
    is returned again for the text the form shows for it. *)
Theorem parsePrimitive_keeps_text :
  (forall v : string, String_ (parsePrimitive v) = v)
  /\ (forall v w : string, parsePrimitive v = parsePrimitive w -> v = w)
  /\ (forall v : string,
        parsePrimitive v <> PNull ->
        parsePrimitive (display (parsePrimitive v)) = parsePrimitive v).
Proof.
  assert (H : forall v : string, String_ (parsePrimitive v) = v).
  { intros v. pose proof (parsePrimitive_cases v) as H.
    destruct (parsePrimitive v) as [| |b|n|s]; cbn.
    - contradiction.
    - symmetry. exact H.
    - destruct b; symmetry; exact H.
    - apply H.
    - exact H. }
  split; [exact H|]. split.
  - intros v w E. rewrite <- (H v), <- (H w), E. reflexivity.
  - intros v Hnull. pose proof (parsePrimitive_cases v) as Hc.
    assert (Hd : display (parsePrimitive v) = v).
    { rewrite <- (H v) at 2. destruct (parsePrimitive v); [contradiction | | | |];
        try reflexivity. contradiction. }
    rewrite Hd. reflexivity.
Qed.

(** ** Reading a document after a write *)

Lemma array_index_canonical (k : string) (i : nat) :
  array_index k = Some i -> k = string_of_Z (Z.of_nat i).
Proof.
  unfold array_index. destruct (read_digits 10 k 0 0) as [[v cnt] rest].
  destruct rest; [|discriminate].
  destruct (0 <? cnt)%Z; [|discriminate].
  destruct (String.eqb_spec (string_of_Z v) k) as [E|]; [|discriminate].
  destruct (v <? 2 ^ 32 - 1)%Z; [|discriminate].
  intros H. injection H as <-. rewrite <- E. unfold string_of_Z.
  do 2 f_equal. lia.
Qed.

Lemma child_update_same (j : json) (seg : segment) (rest : list segment) (r j' : json) :
  update_json j (seg :: rest) r = Some j' ->
  exists c c', child j seg = Some c /\ update_json c rest r = Some c'
               /\ child j' seg = Some c'.
Proof.
  intros Hupd. destruct (update_json_child _ _ _ _ _ Hupd) as (c & c' & Hc & Hrest).
  exists c, c'. split; [exact Hc|]. split; [exact Hrest|].
  cbn [update_json] in Hupd. rewrite Hc, Hrest in Hupd.
  destruct seg as [n|s], j as [ | | | | items | fields ]; try discriminate; cbn [child] in Hc.
  - destruct (array_index (ToPropertyKey (SegNum n))) as [i|] eqn:Hidx; [|discriminate].
    injection Hupd as <-. cbn [child]. rewrite Hidx.
    apply list_lookup_insert_eq. eapply lookup_lt_Some; eauto.
  - injection Hupd as <-. cbn [child]. rewrite alookup_aset, String.eqb_refl. reflexivity.
Qed.

Lemma child_update_other (j : json) (seg seg' : segment) (rest : list segment) (r j' : json) :
  update_json j (seg :: rest) r = Some j' ->
  ToPropertyKey seg <> ToPropertyKey seg' ->
  child j' seg' = child j seg'.
Proof.
  intros Hupd Hne. destruct (update_json_child _ _ _ _ _ Hupd) as (c & c' & Hc & Hrest).
  cbn [update_json] in Hupd. rewrite Hc, Hrest in Hupd.
  destruct seg as [n|s], j as [ | | | | items | fields ]; try discriminate; cbn [child] in Hc.
  - destruct (array_index (ToPropertyKey (SegNum n))) as [i|] eqn:Hidx; [|discriminate].
    injection Hupd as <-. destruct seg' as [n'|s']; [|reflexivity]. cbn [child].
    destruct (array_index (ToPropertyKey (SegNum n'))) as [i'|] eqn:Hidx'; [|reflexivity].
    apply list_lookup_insert_ne. intros ->.
    apply array_index_canonical in Hidx, Hidx'. congruence.
  - injection Hupd as <-. destruct seg' as [n'|s']; [reflexivity|]. cbn [child].
    rewrite alookup_aset. cbn [ToPropertyKey] in Hne.
    destruct (String.eqb_spec s' s); [congruence | reflexivity].
Qed.

Lemma update_json_total (p : list segment) :
  forall (j old r : json),
    lookup_json j p = Some old -> exists j', update_json j p r = Some j'.
Proof.
  induction p as [|seg rest IH]; intros j old r; cbn [lookup_json update_json]; [eauto|].
  destruct (child j seg) as [c|] eqn:Hc; [|discriminate].
  intros Hrest. destruct (IH c old r Hrest) as (c' & ->).
  destruct seg as [n|s], j as [ | | | | items | fields ]; try discriminate; cbn [child] in Hc.
  - destruct (array_index _); [eauto | discriminate].
  - eauto.
Qed.

Lemma lookup_update_same (p : list segment) :
  forall (j r j' : json), update_json j p r = Some j' -> lookup_json j' p = Some r.
Proof.
  induction p as [|seg rest IH]; intros j r j' Hupd.
  - cbn in Hupd |- *. congruence.
  - destruct (child_update_same _ _ _ _ _ Hupd) as (c & c' & _ & Hrest & Hc').
    cbn [lookup_json]. rewrite Hc'. eapply IH; eauto.
Qed.

Lemma lookup_update_other (p q : list segment) (j r j' : json) :
  diverge p q -> update_json j p r = Some j' -> lookup_json j' q = lookup_json j q.
Proof.
  intros (common & s & s' & t & t' & -> & -> & Hne). revert j j'.
  induction common as [|c0 common IH]; intros j j' Hupd; cbn [app] in *.
  - cbn [lookup_json]. rewrite (child_update_other _ _ _ _ _ _ Hupd Hne). reflexivity.
  - destruct (child_update_same _ _ _ _ _ Hupd) as (c & c' & Hc & Hrest & Hc').
    cbn [lookup_json]. rewrite Hc, Hc'. apply IH. exact Hrest.
Qed.

Lemma lookup_json_app (p q : list segment) :
  forall j : json, lookup_json j (p ++ q) = lookup_json j p ≫= fun c => lookup_json c q.
Proof.
  induction p as [|seg p IH]; intros j; [reflexivity|].
  cbn [app lookup_json]. destruct (child j seg) as [c|]; [apply IH | reflexivity].
Qed.

Lemma normalize_update (p : list segment) :
  forall (j r j' : json),
    update_json j p r = Some j' -> normalize j = j -> normalize r = r -> normalize j' = j'.
Proof.
  induction p as [|seg rest IH]; intros j r j' Hupd Hj Hr.
  - cbn in Hupd. congruence.
  - destruct (child_update_same _ _ _ _ _ Hupd) as (c & c' & Hc & Hrest & _).
    cbn [update_json] in Hupd. rewrite Hc, Hrest in Hupd.
    destruct seg as [n|s], j as [ | | | | items | fields ]; try discriminate; cbn [child] in Hc.
    + destruct (array_index (ToPropertyKey (SegNum n))) as [i|]; [|discriminate].
      injection Hupd as <-. cbn [normalize] in Hj |- *. injection Hj as Hj. f_equal.
      assert (Hcn : normalize c = c).
      { apply (f_equal (fun l => l !! i)) in Hj. rewrite list_lookup_fmap, Hc in Hj.
        cbn in Hj. congruence. }
      change (map normalize items) with (normalize <$> items) in Hj.
      change (map normalize (<[i:=c']> items)) with (normalize <$> <[i:=c']> items).
      rewrite list_fmap_insert, Hj, (IH _ _ _ Hrest Hcn Hr). reflexivity.
    + injection Hupd as <-. cbn [normalize] in Hj |- *. injection Hj as Hj. f_equal.
      assert (Hcn : normalize c = c).
      { clear -Hj Hc. induction fields as [|[k x] fields IHf]; [discriminate|].
        cbn in Hj, Hc. injection Hj as Hx Hj. destruct (String.eqb s k).
        - injection Hc as <-. exact Hx.
        - apply IHf; assumption. }
      pose proof (IH _ _ _ Hrest Hcn Hr) as Hc'.
      clear -Hj Hc'. induction fields as [|[k x] fields IHf]; cbn.
      * rewrite Hc'. reflexivity.
      * cbn in Hj. injection Hj as Hx Hj. destruct (String.eqb s k); cbn.
        -- rewrite Hc', Hj. reflexivity.
        -- rewrite Hx, IHf by exact Hj. reflexivity.
Qed.

(** ** Trees in the heap *)

Lemma denotes_normal (h : heap) (v : value) (j : json) (fp : gset loc) :
  denotes h v j fp -> normalize j = j.
Proof.
  intros Hden.
  induction Hden using denotes_mut
    with (P0 := fun vs js _ => map normalize js = js).
  - destruct p as [ | | b | n | s]; cbn in *; try discriminate;
      match goal with H : Some _ = Some _ |- _ => injection H as <- end; try reflexivity.
    apply ser_number_idem.
  - cbn. f_equal. assumption.
  - cbn. f_equal.
    match goal with H : map normalize _ = _ |- _ => rename H into Hvals end.
    clear -Hvals. induction fs as [|[k x] fs IH]; [reflexivity|].
    cbn in Hvals |- *. injection Hvals as Hx Hfs. rewrite Hx, IH by exact Hfs. reflexivity.
  - reflexivity.
  - cbn. f_equal; assumption.
Qed.

Lemma denotes_scalar (h : heap) (v : value) (j : json) (fp : gset loc) :
  denotes h v j fp -> scalar_json j = true -> exists p, v = VPrim p.
Proof. destruct 1; [eauto | discriminate | discriminate]. Qed.

Lemma scalar_json_normalize (j : json) : scalar_json (normalize j) = scalar_json j.
Proof. destruct j as [ | | n | | | ]; try reflexivity. destruct n; reflexivity. Qed.

Lemma denotes_list_snoc (h : heap) (vs : list value) (js : list json) (fp : gset loc)
    (v : value) (j : json) (fpv : gset loc) :
  denotes_list h vs js fp ->
  denotes h v j fpv ->
  fp ## fpv ->
  denotes_list h (vs ++ [v]) (js ++ [j]) (fp ∪ fpv).
Proof.
  intros Hvs Hv. induction Hvs as [|v0 j0 fp1 vs js fp2 Hv0 Hvs IH Hdisj]; intros Hd.
  - cbn. replace (∅ ∪ fpv) with (fpv ∪ ∅) by set_solver.
    constructor; [exact Hv | constructor | set_solver].
  - cbn. replace (fp1 ∪ fp2 ∪ fpv) with (fp1 ∪ (fp2 ∪ fpv)) by set_solver.
    constructor; [exact Hv0 | apply IH; set_solver | set_solver].
Qed.

Lemma denotes_list_length (h : heap) (vs : list value) (js : list json) (fp : gset loc) :
  denotes_list h vs js fp -> length vs = length js.
Proof. induction 1; cbn; congruence. Qed.

Lemma denotes_list_ser (h : heap) (vs : list value) (js : list json) (fp : gset loc) :
  denotes_list h vs js fp ->
  forall f, size fp <= f -> ser_items (ser f h) vs = Ok js.
Proof.
  induction 1 as [|v j fp1 vs js fp2 Hv _ IH Hdisj]; intros f Hf; [reflexivity|].
  rewrite size_union in Hf by exact Hdisj. cbn [ser_items].
  rewrite (denotes_ser _ _ _ _ Hv) by lia. rewrite IH by lia. reflexivity.
Qed.

Lemma ser_items_app (rec : value -> result (option json)) (a b : list value)
    (ja jb : list json) :
  ser_items rec a = Ok ja -> ser_items rec b = Ok jb -> ser_items rec (a ++ b) = Ok (ja ++ jb).
Proof.
  revert ja. induction a as [|v a IH]; intros ja Ha Hb; cbn [app ser_items] in *.
  - injection Ha as <-. exact Hb.
  - destruct (rec v) as [o| |]; try discriminate.
    destruct (ser_items rec a) as [ja'| |]; try discriminate.
    injection Ha as <-. rewrite (IH ja' eq_refl Hb). reflexivity.
Qed.

Lemma ser_items_holes (rec : value -> result (option json)) (n : nat) :
  rec (VPrim PUndefined) = Ok None ->
  ser_items rec (replicate n (VPrim PUndefined)) = Ok (replicate n JNull).
Proof.
  intros Hrec. induction n as [|n IH]; [reflexivity|].
  cbn [replicate ser_items]. rewrite Hrec, IH. reflexivity.
Qed.

(** A new or a scalar field of an object is given a tree as its value. *)
Lemma denotes_install (h h2 : heap) (l : loc) (ps : props) (fs : list (string * json))
    (fpc : gset loc) (k : string) (v : value) (jv : json) (fpv : gset loc) :
  ps.*1 = fs.*1 ->
  denotes_list h ps.*2 fs.*2 fpc ->
  l ∉ fpc ->
  match alookup k ps with Some x => exists p, x = VPrim p | None => True end ->
  h2 !! l = Some (Obj (aset k v ps)) ->
  (forall l', l' ∈ fpc -> h2 !! l' = h !! l') ->
  denotes h2 v jv fpv ->
  fpv ## {[l]} ∪ fpc ->
  denotes h2 (VObject l) (JObject (aset k jv fs)) ({[l]} ∪ (fpv ∪ fpc)).
Proof.
  intros Hkeys Hps Hnin Hold Hl Hagree Hv Hdisj.
  destruct (alookup k ps) as [x|] eqn:Hlook.
  - destruct Hold as (p & ->).
    destruct (alookup_same_keys k ps fs _ Hkeys Hlook) as (c & Hc).
    destruct (aset_at k ps fs c Hkeys Hc) as (i & Hi & Hlook' & Hset1 & Hset2).
    destruct (denotes_list_focus _ _ _ _ _ _ Hps Hi)
      as (vc & fpi & fpo & Hvc & Hden & Hio & -> & Hput).
    rewrite Hlook, Hvc in Hlook'. injection Hlook' as <-.
    assert (fpi = ∅) as -> by (inversion Hden; reflexivity).
    replace (fpv ∪ (∅ ∪ fpo)) with (fpv ∪ fpo) by set_solver.
    econstructor; [exact Hl | | | set_solver].
    + destruct (Hset1 v) as [-> _]. destruct (Hset2 jv) as [-> _]. exact Hkeys.
    + destruct (Hset1 v) as [_ ->]. destruct (Hset2 jv) as [_ ->].
      apply Hput; [exact Hv | set_solver |]. intros l' Hl'. apply Hagree. set_solver.
  - pose proof (alookup_None _ _ Hlook) as Hfresh.
    destruct (aset_fresh k v ps Hfresh) as [Hps' _]. rewrite Hps' in Hl.
    rewrite Hkeys in Hfresh. destruct (aset_fresh k jv fs Hfresh) as [-> _].
    replace (fpv ∪ fpc) with (fpc ∪ fpv) by set_solver.
    econstructor; [exact Hl | | | set_solver].
    + rewrite !fmap_app, Hkeys. reflexivity.
    + rewrite !fmap_app. apply denotes_list_snoc; [|exact Hv|set_solver].
      eapply denotes_list_frame; [exact Hps | exact Hagree].
Qed.

(** ** The mutator on a parsed document *)

(** X2: on a path that exists in a parsed document, [setValueAtPath]
    returns the root it was given, and the root then serializes to the
    document as [JSON.stringify] writes it (a negative zero as [0], a
    number that is not finite as [null]) with the value at the path
    replaced: the path leads to the replacement, a path that parts from it
    leads where it leads in the document so written, which is where it
    led before when the document has no such number, and no object that
    was there before the two values were parsed is written. *)
Theorem setValueAtPath_replaces_value (j jr old : json) (p : list segment) (h0 : heap) :
  p <> [] ->
  lookup_json (normalize j) p = Some old ->
  exists (root r : value) (h h' : heap) (j' : json),
    (let* root := parse (TextJson j) in
     let* r := parse (TextJson jr) in
     ret (root, r)) h0 = (Ok (root, r), h)
    /\ setValueAtPath root (Some p) r h = (Ok root, h')
    /\ stringify root h' = (Ok (Some (TextJson j')), h')
    /\ update_json (normalize j) p (normalize jr) = Some j'
    /\ lookup_json j' p = Some (normalize jr)
    /\ (forall q, diverge p q -> lookup_json j' q = lookup_json (normalize j) q)
    /\ (exact_numbers j = true ->
        forall q, diverge p q -> lookup_json j' q = lookup_json j q)
    /\ forall (l : loc) (o : object), h0 !! l = Some o -> h' !! l = Some o.
Proof.
  intros Hne Hlook.
  destruct (alloc_fresh_tree j h0) as (root & h1 & Hroot & hj & fp & -> & Hden & Hfp).
  destruct (alloc_fresh_tree jr (h0 ++ hj)) as (r & h2 & Hr & hj2 & fpr & -> & Hdenr & Hfpr).
  destruct (update_json_total p _ _ (normalize jr) Hlook) as (j' & Hupd).
  destruct (walk_existing p root (normalize j) fp ((h0 ++ hj) ++ hj2) r (normalize jr) fpr j'
              Hne (denotes_extend _ hj2 _ _ _ Hden) Hdenr) as (h' & fp' & Hwalk & Hden' & _ & Hframe).
  { intros l Hl Hlr. apply Hfpr in Hlr. eapply denotes_dom in Hl; [|exact Hden]. lia. }
  { exact Hupd. }
  exists root, r, ((h0 ++ hj) ++ hj2), h', j'.
  split; [|split; [|split; [|split; [|split; [|split; [|split]]]]]].
  - cbn [parse]. rewrite (bind_Ok _ _ _ _ _ Hroot), (bind_Ok _ _ _ _ _ Hr). reflexivity.
  - destruct p as [|seg rest]; [contradiction|].
    unfold setValueAtPath. rewrite (bind_Ok _ _ _ _ _ Hwalk). reflexivity.
  - eapply denotes_stringify; eauto.
  - exact Hupd.
  - eapply lookup_update_same; eauto.
  - intros q Hq. eapply lookup_update_other; eauto.
  - intros Hexact q Hq. apply normalize_exact in Hexact.
    rewrite <- Hexact at 1. eapply lookup_update_other; eauto.
  - intros l o Hl. assert (Hlt : l < length h0) by (eapply lookup_lt_Some; eauto).
    rewrite Hframe.
    + rewrite !lookup_app_l by (rewrite ?length_app; lia). exact Hl.
    + intros Hin. apply Hfp in Hin. lia.
Qed.

Lemma setValueAtPath_replaces_value_witness :
  exists (root r : value) (h h' : heap) (j' : json),
    (let* root := parse (TextJson user_doc) in
     let* r := parse (TextJson (JNumber (of_N 43))) in
     ret (root, r)) [] = (Ok (root, r), h)
    /\ setValueAtPath root (Some [SegStr "user"; SegStr "age"]) r h = (Ok root, h')
    /\ stringify root h' = (Ok (Some (TextJson j')), h')
    /\ update_json (normalize user_doc) [SegStr "user"; SegStr "age"]
         (normalize (JNumber (of_N 43))) = Some j'
    /\ lookup_json j' [SegStr "user"; SegStr "age"] = Some (normalize (JNumber (of_N 43)))
    /\ (forall q, diverge [SegStr "user"; SegStr "age"] q ->
                  lookup_json j' q = lookup_json (normalize user_doc) q)
    /\ (exact_numbers user_doc = true ->
        forall q, diverge [SegStr "user"; SegStr "age"] q ->
                  lookup_json j' q = lookup_json user_doc q)
    /\ forall (l : loc) (o : object), [] !! l = Some o -> h' !! l = Some o.
Proof.
  apply (setValueAtPath_replaces_value user_doc (JNumber (of_N 43)) (JString "42")
           [SegStr "user"; SegStr "age"] []).
  - discriminate.
  - reflexivity.
Defined.

(** *** Containers made on the way *)

Lemma walk_creates (r : value) (jr : json) (fpr : gset loc) (ks : list string) :
  forall (k : string) (l : loc) (ps : props) (fs : list (string * json)) (fpc : gset loc)
         (h : heap),
    Forall (fun k => k <> proto_key) (k :: ks) ->
    h !! l = Some (Obj ps) ->
    ps.*1 = fs.*1 ->
    denotes_list h ps.*2 fs.*2 fpc ->
    l ∉ fpc ->
    match alookup k ps with Some x => exists p, x = VPrim p | None => True end ->
    denotes h r jr fpr ->
    fpr ## {[l]} ∪ fpc ->
    exists (h' : heap) (fp' : gset loc),
      walk (VObject l) (map SegStr (k :: ks)) r h = (Ok tt, h')
      /\ denotes h' (VObject l) (JObject (aset k (nest ks jr) fs)) fp'
      /\ (forall l', l' ∈ fp' -> l' ∈ {[l]} ∪ fpc ∪ fpr \/ length h <= l')
      /\ (forall l', l' < length h -> l' <> l -> h' !! l' = h !! l').
Proof.
  induction ks as [|k2 ks IH]; intros k l ps fs fpc h Hproto Hl Hkeys Hps Hnin Hold Hr Hdisj;
    apply Forall_cons in Hproto as [Hk Hproto].
  - assert (Hlt : l < length h) by (eapply lookup_lt_Some; eauto).
    exists (<[l:=Obj (aset k r ps)]> h), ({[l]} ∪ (fpr ∪ fpc)).
    split; [|split; [|split]].
    + cbn [map]. rewrite walk_last. cbn [ToPropertyKey]. unfold set_prop. rewrite Hl.
      unfold named_set. destruct (String.eqb_spec k proto_key); [contradiction|]. reflexivity.
    + cbn [nest]. eapply denotes_install; eauto.
      * apply list_lookup_insert_eq. exact Hlt.
      * intros l' Hl'. apply list_lookup_insert_ne. set_solver.
      * eapply denotes_frame; [exact Hr|]. intros l' Hl'.
        apply list_lookup_insert_ne. set_solver.
    + intros l' Hl'. left. set_solver.
    + intros l' _ Hne. apply list_lookup_insert_ne. congruence.
  - assert (Hlt : l < length h) by (eapply lookup_lt_Some; eauto).
    assert (Hget : exists p, get_prop (VObject l) k h = (Ok (VPrim p), h)).
    { unfold get_prop, named_get. rewrite Hl. destruct (alookup k ps) as [x|].
      - destruct Hold as (p & ->). eauto.
      - destruct (String.eqb_spec k proto_key); [contradiction | eauto]. }
    destruct Hget as (p & Hget).
    assert (Hrep : (if is_nullish (VPrim p) then ret true
                    else let* c' := get_prop (VObject l) k in ret (negb (typeof_object c'))) h
                   = (Ok true, h)).
    { destruct p; cbn [is_nullish]; try reflexivity;
        rewrite (bind_Ok _ _ _ _ _ Hget); reflexivity. }
    set (h1 := <[l:=Obj (aset k (VObject (length h)) ps)]> (h ++ [Obj []])).
    assert (Hcreate :
      (let* fresh := new_object (container_for (SegStr k2)) in
       set_prop (VObject l) k fresh) h = (Ok tt, h1)).
    { rewrite (bind_Ok _ _ h (h ++ [Obj []]) (VObject (length h)) eq_refl).
      unfold set_prop. rewrite lookup_app_l by exact Hlt. rewrite Hl. unfold named_set.
      destruct (String.eqb_spec k proto_key); [contradiction|]. reflexivity. }
    assert (Hlen1 : length h1 = S (length h)).
    { unfold h1. rewrite length_insert, length_app. cbn. lia. }
    assert (Hl1 : h1 !! l = Some (Obj (aset k (VObject (length h)) ps))).
    { unfold h1. apply list_lookup_insert_eq. rewrite length_app. cbn. lia. }
    assert (Hother : forall l', l' < length h -> l' <> l -> h1 !! l' = h !! l').
    { intros l' Hl' Hne. unfold h1. rewrite list_lookup_insert_ne by congruence.
      apply lookup_app_l. exact Hl'. }
    assert (Hback : get_prop (VObject l) k h1 = (Ok (VObject (length h)), h1)).
    { unfold get_prop, named_get. rewrite Hl1, alookup_aset, String.eqb_refl. reflexivity. }
    assert (Hfresh : h1 !! length h = Some (Obj [])).
    { unfold h1. rewrite list_lookup_insert_ne by lia. apply list_lookup_middle. reflexivity. }
    assert (Hrdom : forall l', l' ∈ fpr -> l' < length h) by (eapply denotes_dom; eauto).
    assert (Hcdom : forall l', l' ∈ fpc -> l' < length h) by (eapply denotes_list_dom; eauto).
    assert (Hr1 : denotes h1 r jr fpr).
    { eapply denotes_frame; [exact Hr|]. intros l' Hl'. apply Hother; [auto | set_solver]. }
    destruct (IH k2 (length h) [] [] ∅ h1 Hproto Hfresh eq_refl ltac:(constructor)
                ltac:(set_solver) I Hr1) as (h2 & fp2 & Hwalk & Hden2 & Hbound & Hframe).
    { intros l' Hl' Hin. apply Hrdom in Hl'. assert (l' = length h) by set_solver. lia. }
    exists h2, ({[l]} ∪ (fp2 ∪ fpc)).
    split; [|split; [|split]].
    + change (map SegStr (k :: k2 :: ks)) with (SegStr k :: SegStr k2 :: map SegStr ks).
      rewrite walk_step. cbn [is_number ToPropertyKey]. cbv zeta.
      rewrite (bind_Ok _ _ _ _ _ Hget), (bind_Ok _ _ _ _ _ Hrep).
      rewrite (bind_Ok _ _ _ _ _ Hcreate), (bind_Ok _ _ _ _ _ Hback). exact Hwalk.
    + change (nest (k2 :: ks) jr) with (JObject (aset k2 (nest ks jr) [])).
      eapply denotes_install; eauto.
      * rewrite Hframe by lia. exact Hl1.
      * intros l' Hl'. pose proof (Hcdom _ Hl').
        rewrite Hframe by lia. apply Hother; [assumption | set_solver].
      * intros l' Hl2 Hin. destruct (Hbound _ Hl2) as [Hc|Hge].
        -- assert (Hcase : l' = length h \/ l' ∈ fpr) by set_solver.
           destruct Hcase as [->|Hc'].
           ++ assert (Hcase : length h = l \/ length h ∈ fpc) by set_solver.
              destruct Hcase as [E|E]; [lia | apply Hcdom in E; lia].
           ++ set_solver.
        -- assert (Hcase : l' = l \/ l' ∈ fpc) by set_solver.
           destruct Hcase as [->|E]; [lia | apply Hcdom in E; lia].
    + intros l' Hl'.
      assert (Hcase : l' = l \/ l' ∈ fp2 \/ l' ∈ fpc) by set_solver.
      destruct Hcase as [->|[E|E]]; [left; set_solver | | left; set_solver].
      destruct (Hbound _ E) as [Hc|Hge]; [|right; lia].
      assert (Hcase : l' = length h \/ l' ∈ fpr) by set_solver.
      destruct Hcase as [->|Hc']; [right; lia | left; set_solver].
    + intros l' Hl' Hne. rewrite Hframe by lia. apply Hother; assumption.
Qed.

(** X3: along a path of keys, none of them [__proto__], the first of
    which the root object lacks, or binds to a scalar, [setValueAtPath]
    makes the chain of objects that holds the replacement, as a new last
    field or in the place of the scalar; the other fields stay where they
    are, with the values [JSON.stringify] writes for them.  The first key
    and the keys of the root are no array indices: those JavaScript
    enumerates first, whatever the order of insertion. *)
Theorem setValueAtPath_creates_objects (fs : list (string * json)) (jr : json) (k : string)
    (ks : list string) (h0 : heap) :
  Forall (fun k => k <> proto_key) (k :: ks) ->
  Forall (fun k => array_index k = None) (k :: fs.*1) ->
  match alookup k fs with Some c => scalar_json c = true | None => True end ->
  exists (root r : value) (h h' : heap),
    (let* root := parse (TextJson (JObject fs)) in
     let* r := parse (TextJson jr) in
     ret (root, r)) h0 = (Ok (root, r), h)
    /\ setValueAtPath root (Some (map SegStr (k :: ks))) r h = (Ok root, h')
    /\ stringify root h'
       = (Ok (Some (TextJson (JObject (aset k (nest ks (normalize jr))
                                         (map (fun kv => (kv.1, normalize kv.2)) fs))))), h')
    /\ forall (l : loc) (o : object), h0 !! l = Some o -> h' !! l = Some o.
Proof.
  intros Hproto _ Hold.
  destruct (alloc_fresh_tree (JObject fs) h0) as (root & h1 & Hroot & hj & fp & -> & Hden & Hfp).
  destruct (alloc_fresh_tree jr (h0 ++ hj)) as (r & h2 & Hr & hj2 & fpr & -> & Hdenr & Hfpr).
  cbn [normalize] in Hden.
  set (nfs := map (fun kv : string * json => (kv.1, normalize kv.2)) fs) in *.
  pose proof (denotes_dom _ _ _ _ Hden) as Hdom.
  apply (denotes_extend _ hj2) in Hden.
  destruct (denotes_obj_inv _ _ _ _ Hden) as (l & ps & fpc & -> & Hl & Hkeys & Hps & Hnin & ->).
  assert (Hold' : match alookup k ps with Some x => exists p, x = VPrim p | None => True end).
  { destruct (alookup k ps) as [x|] eqn:Hlook; [|exact I].
    destruct (alookup_same_keys k ps nfs _ Hkeys Hlook) as (c & Hc).
    destruct (aset_at k ps nfs c Hkeys Hc) as (i & Hi & Hlook' & _).
    destruct (denotes_list_focus _ _ _ _ _ _ Hps Hi) as (vc & fpi & fpo & Hvc & Hdc & _).
    rewrite Hlook, Hvc in Hlook'. injection Hlook' as <-.
    eapply denotes_scalar; [exact Hdc|].
    unfold nfs in Hc. rewrite alookup_fmap in Hc.
    destruct (alookup k fs) as [c0|]; [|discriminate]. injection Hc as <-.
    rewrite scalar_json_normalize. exact Hold. }
  destruct (walk_creates r (normalize jr) fpr ks k l ps nfs fpc ((h0 ++ hj) ++ hj2)
              Hproto Hl Hkeys Hps Hnin Hold' Hdenr)
    as (h' & fp' & Hwalk & Hden' & _ & Hframe).
  { intros x Hx Hin. apply Hfpr in Hx. apply Hdom in Hin. lia. }
  exists (VObject l), r, ((h0 ++ hj) ++ hj2), h'.
  split; [|split; [|split]].
  - cbn [parse]. rewrite (bind_Ok _ _ _ _ _ Hroot), (bind_Ok _ _ _ _ _ Hr). reflexivity.
  - change (map SegStr (k :: ks)) with (SegStr k :: map SegStr ks) in *.
    unfold setValueAtPath. rewrite (bind_Ok _ _ _ _ _ Hwalk). reflexivity.
  - eapply denotes_stringify; eauto.
  - intros l0 o Hl0. assert (Hlt : l0 < length h0) by (eapply lookup_lt_Some; eauto).
    rewrite Hframe.
    + rewrite !lookup_app_l by (rewrite ?length_app; lia). exact Hl0.
    + rewrite !length_app. lia.
    + intros ->. specialize (Hfp l ltac:(set_solver)). lia.
Qed.

Lemma setValueAtPath_creates_objects_witness :
  exists (root r : value) (h h' : heap),
    (let* root := parse (TextJson (JObject [("a", JNumber (of_N 1))])) in
     let* r := parse (TextJson (JString "v")) in
     ret (root, r)) [] = (Ok (root, r), h)
    /\ setValueAtPath root (Some (map SegStr ["a"; "b"; "c"])) r h = (Ok root, h')
    /\ stringify root h'
       = (Ok (Some (TextJson (JObject (aset "a" (nest ["b"; "c"] (normalize (JString "v")))
                                         (map (fun kv => (kv.1, normalize kv.2))
                                            [("a", JNumber (of_N 1))]))))), h')
    /\ forall (l : loc) (o : object), [] !! l = Some o -> h' !! l = Some o.
Proof.
  apply (setValueAtPath_creates_objects [("a", JNumber (of_N 1))] (JString "v") "a"
           ["b"; "c"] []).
  - repeat constructor; discriminate.
  - repeat constructor.
  - reflexivity.
Defined.

(** *** Containers for any path *)

Lemma nth_set_elem (i : nat) (v d : value) (es : list value) :
  nth i (set_elem i v es) d = v.
Proof.
  unfold set_elem. destruct (Nat.ltb_spec i (length es)) as [Hlt|Hge].
  - apply nth_lookup_Some. apply list_lookup_insert_eq. exact Hlt.
  - apply nth_lookup_Some. rewrite lookup_app_r by exact Hge.
    apply list_lookup_middle. rewrite length_replicate. reflexivity.
Qed.

(** Writing and reading back a key of an empty container. *)
Lemma fresh_container_set (seg : segment) (l : loc) (v : value) (h : heap) :
  seg <> SegStr proto_key ->
  h !! l = Some (container_for seg) ->
  exists o, set_prop (VObject l) (ToPropertyKey seg) v h = (Ok tt, <[l:=o]> h)
            /\ get_prop (VObject l) (ToPropertyKey seg) (<[l:=o]> h) = (Ok v, <[l:=o]> h).
Proof.
  intros [Hproto Hlen]%segment_key Hl.
  assert (Hlt : l < length h) by (eapply lookup_lt_Some; eauto).
  unfold set_prop, get_prop. rewrite Hl. unfold container_for.
  destruct (is_number seg).
  - specialize (Hlen eq_refl).
    destruct (array_index (ToPropertyKey seg)) as [i|] eqn:Hidx.
    + eexists. split; [reflexivity|]. rewrite list_lookup_insert_eq by exact Hlt.
      rewrite ?Hidx, nth_set_elem. reflexivity.
    + destruct (String.eqb_spec (ToPropertyKey seg) length_key); [contradiction|].
      unfold named_set. destruct (String.eqb_spec (ToPropertyKey seg) proto_key);
        [contradiction|]. cbn [andb aset].
      eexists. split; [reflexivity|]. rewrite list_lookup_insert_eq by exact Hlt.
      rewrite ?Hidx. destruct (String.eqb_spec (ToPropertyKey seg) length_key); [contradiction|].
      unfold named_get. cbn [alookup]. rewrite String.eqb_refl. reflexivity.
  - unfold named_set. destruct (String.eqb_spec (ToPropertyKey seg) proto_key);
      [contradiction|]. cbn [andb aset].
    eexists. split; [reflexivity|]. rewrite list_lookup_insert_eq by exact Hlt.
    unfold named_get. cbn [alookup]. rewrite String.eqb_refl. reflexivity.
Qed.

Lemma fresh_container_get (seg : segment) (l : loc) (h : heap) :
  seg <> SegStr proto_key ->
  h !! l = Some (container_for seg) ->
  get_prop (VObject l) (ToPropertyKey seg) h = (Ok (VPrim PUndefined), h)
  /\ isArray (VObject l) h = (Ok (is_number seg), h).
Proof.
  intros [Hproto Hlen]%segment_key Hl. unfold get_prop, isArray. rewrite Hl.
  unfold container_for.
  destruct (is_number seg).
  - specialize (Hlen eq_refl).
    split; [|reflexivity]. destruct (array_index (ToPropertyKey seg)) as [i|].
    + destruct i; reflexivity.
    + destruct (String.eqb_spec (ToPropertyKey seg) length_key); [contradiction|].
      unfold named_get. cbn [alookup].
      destruct (String.eqb_spec (ToPropertyKey seg) proto_key); [contradiction | reflexivity].
  - split; [|reflexivity]. unfold named_get. cbn [alookup].
    destruct (String.eqb_spec (ToPropertyKey seg) proto_key); [contradiction | reflexivity].
Qed.

Lemma fresh_container_link (seg : segment) (l : loc) (v : value) (h : heap) :
  seg <> SegStr proto_key ->
  h !! l = Some (container_for seg) ->
  set_prop (VObject l) (ToPropertyKey seg) v h = (Ok tt, <[l:=link seg v]> h)
  /\ get_prop (VObject l) (ToPropertyKey seg) (<[l:=link seg v]> h)
     = (Ok v, <[l:=link seg v]> h).
Proof.
  intros Hseg Hl. destruct (fresh_container_set seg l v h Hseg Hl) as (o & Hset & Hget).
  assert (o = link seg v) as ->; [|split; assumption].
  assert (Hlt : l < length h) by (eapply lookup_lt_Some; eauto).
  apply segment_key in Hseg as [Hproto Hlen]. unfold set_prop in Hset. rewrite Hl in Hset.
  unfold container_for, link in *. destruct (is_number seg).
  - specialize (Hlen eq_refl).
    destruct (array_index (ToPropertyKey seg)) as [i|].
    + injection Hset as Hset. apply (f_equal (fun x => x !! l)) in Hset.
      rewrite !list_lookup_insert_eq in Hset by exact Hlt. injection Hset as <-.
      unfold set_elem. cbn [length]. rewrite Nat.sub_0_r. reflexivity.
    + destruct (String.eqb_spec (ToPropertyKey seg) length_key); [contradiction|].
      unfold named_set in Hset.
      destruct (String.eqb_spec (ToPropertyKey seg) proto_key); [contradiction|].
      cbn [andb aset] in Hset. injection Hset as Hset.
      apply (f_equal (fun x => x !! l)) in Hset.
      rewrite !list_lookup_insert_eq in Hset by exact Hlt. injection Hset as <-. reflexivity.
  - unfold named_set in Hset.
    destruct (String.eqb_spec (ToPropertyKey seg) proto_key); [contradiction|].
    cbn [andb aset] in Hset. injection Hset as Hset.
    apply (f_equal (fun x => x !! l)) in Hset.
    rewrite !list_lookup_insert_eq in Hset by exact Hlt. injection Hset as <-. reflexivity.
Qed.

(** From an empty container of the kind its first segment asks for, the
    mutator lays out one container for each segment. *)
Lemma walk_chain (r : value) (rest : list segment) :
  forall (seg : segment) (l : loc) (h : heap),
    Forall (fun seg => seg <> SegStr proto_key) (seg :: rest) ->
    h !! l = Some (container_for seg) ->
    exists h',
      walk (VObject l) (seg :: rest) r h = (Ok tt, h')
      /\ chain_at h' l seg rest (length h) r
      /\ length h' = length h + length rest
      /\ forall l', l' < length h -> l' <> l -> h' !! l' = h !! l'.
Proof.
  induction rest as [|nextSeg rest IH]; intros seg l h Hplain Hl;
    apply Forall_cons in Hplain as [Hseg Hplain];
    assert (Hlt : l < length h) by (eapply lookup_lt_Some; eauto).
  - destruct (fresh_container_link seg l r h Hseg Hl) as [Hset _].
    exists (<[l:=link seg r]> h). rewrite walk_last.
    split; [exact Hset|]. split; [|split].
    + split; [|exact I]. apply list_lookup_insert_eq. exact Hlt.
    + rewrite length_insert. cbn. lia.
    + intros l' _ Hne. apply list_lookup_insert_ne. congruence.
  - destruct (fresh_container_get seg l h Hseg Hl) as [Hget Harr].
    assert (Hl1 : (h ++ [container_for nextSeg]) !! l = Some (container_for seg))
      by (rewrite lookup_app_l by exact Hlt; exact Hl).
    destruct (fresh_container_link seg l (VObject (length h)) (h ++ [container_for nextSeg])
                Hseg Hl1) as [Hset Hback].
    set (h1 := <[l:=link seg (VObject (length h))]> (h ++ [container_for nextSeg])) in *.
    assert (Hlen1 : length h1 = S (length h)).
    { unfold h1. rewrite length_insert, length_app. cbn. lia. }
    assert (Hnext : h1 !! length h = Some (container_for nextSeg)).
    { unfold h1. rewrite list_lookup_insert_ne by lia. apply list_lookup_middle. reflexivity. }
    destruct (IH nextSeg (length h) h1 Hplain Hnext) as (h' & Hwalk & Hchain & Hlen & Hframe).
    rewrite Hlen1 in Hchain, Hlen, Hframe.
    exists h'. split; [|split; [|split]].
    + rewrite walk_step. cbv zeta.
      assert (Hcreate :
        (let* fresh := new_object (container_for nextSeg) in
         set_prop (VObject l) (ToPropertyKey seg) fresh) h = (Ok tt, h1)).
      { rewrite (bind_Ok _ _ h (h ++ [container_for nextSeg]) (VObject (length h)) eq_refl).
        exact Hset. }
      destruct (is_number seg) eqn:Hnum.
      * rewrite (bind_Ok _ _ _ _ _ Harr).
        rewrite (bind_Ok _ _ h h (VObject l) eq_refl).
        rewrite (bind_Ok _ _ _ _ _ Hget). cbn [is_nullish].
        rewrite (bind_Ok _ _ _ _ _ Hcreate).
        rewrite (bind_Ok _ _ _ _ _ Hback). exact Hwalk.
      * rewrite (bind_Ok _ _ _ _ _ Hget). cbn [is_nullish].
        rewrite (bind_Ok _ _ h h true eq_refl).
        rewrite (bind_Ok _ _ _ _ _ Hcreate).
        rewrite (bind_Ok _ _ _ _ _ Hback). exact Hwalk.
    + cbn [chain_at first_target]. split; [|exact Hchain].
      rewrite Hframe by lia. unfold h1. apply list_lookup_insert_eq.
      rewrite length_app. cbn. lia.
    + cbn [length]. lia.
    + intros l' Hl' Hne. rewrite Hframe by lia.
      unfold h1. rewrite list_lookup_insert_ne by congruence. apply lookup_app_l. exact Hl'.
Qed.

(** Serializing the containers of a path. *)
Lemma ser_chain (H : heap) (r : value) (jr : json) (fr : nat) (rest : list segment) :
  (forall f, fr <= f -> ser f H r = Ok (Some jr)) ->
  forall (seg : segment) (l n : loc) (f : nat),
    chain_at H l seg rest n r ->
    fr + length rest + 1 <= f ->
    ser f H (VObject l) = Ok (Some (nest_path (seg :: rest) jr)).
Proof.
  intros Hr. induction rest as [|s rs IH]; intros seg l n f [Hl Hrest] Hf;
    (destruct f as [|f]; [lia|]); cbn [ser]; rewrite Hl; cbn [nest_path];
    unfold link; cbn [first_target].
  - destruct (is_number seg).
    + destruct (array_index (ToPropertyKey seg)) as [i|]; [|reflexivity].
      rewrite (ser_items_app _ _ _ (replicate i JNull) [jr]); [reflexivity | |].
      * apply ser_items_holes. destruct f; reflexivity.
      * cbn [ser_items]. rewrite Hr by (cbn in Hf; lia). reflexivity.
    + cbn [ser_fields]. rewrite Hr by (cbn in Hf; lia). reflexivity.
  - assert (Hnext : ser f H (VObject n) = Ok (Some (nest_path (s :: rs) jr))).
    { apply (IH s n (S n)); [exact Hrest | cbn [length] in Hf; lia]. }
    destruct (is_number seg).
    + destruct (array_index (ToPropertyKey seg)) as [i|]; [|reflexivity].
      rewrite (ser_items_app _ _ _ (replicate i JNull) [nest_path (s :: rs) jr]);
        [reflexivity | |].
      * apply ser_items_holes. destruct f; reflexivity.
      * cbn [ser_items]. rewrite Hnext. reflexivity.
    + cbn [ser_fields]. rewrite Hnext. reflexivity.
Qed.

(** The mutator on an empty container and a tree of its own. *)
Lemma walk_builds_path (h : heap) (l : loc) (seg : segment) (rest : list segment)
    (r : value) (jr : json) (fpr : gset loc) :
  Forall (fun seg => seg <> SegStr proto_key) (seg :: rest) ->
  h !! l = Some (container_for seg) ->
  denotes h r jr fpr ->
  l ∉ fpr ->
  exists h',
    walk (VObject l) (seg :: rest) r h = (Ok tt, h')
    /\ stringify (VObject l) h' = (Ok (Some (TextJson (nest_path (seg :: rest) jr))), h')
    /\ forall l', l' < length h -> l' <> l -> h' !! l' = h !! l'.
Proof.
  intros Hplain Hl Hr Hnin.
  destruct (walk_chain r rest seg l h Hplain Hl) as (h' & Hwalk & Hchain & Hlen & Hframe).
  exists h'. split; [exact Hwalk|]. split; [|exact Hframe].
  assert (Hlt : l < length h) by (eapply lookup_lt_Some; eauto).
  pose proof (denotes_dom _ _ _ _ Hr) as Hdom.
  assert (Hr' : denotes h' r jr fpr).
  { eapply denotes_frame; [exact Hr|]. intros x Hx. apply Hframe; [auto|].
    intros ->. contradiction. }
  assert (Hsize : size fpr <= length h - 1).
  { assert (Hs : size ({[l]} ∪ fpr) <= length h).
    { apply footprint_size. intros x Hx. apply elem_of_union in Hx as [Hx|Hx]; [|auto].
      apply elem_of_singleton in Hx. subst x. exact Hlt. }
    rewrite size_union, size_singleton in Hs by (apply disjoint_singleton_l; exact Hnin). lia. }
  unfold stringify.
  rewrite (ser_chain h' r jr (size fpr) rest (fun f Hf => denotes_ser _ _ _ _ Hr' f Hf)
             seg l (length h) (length h') Hchain) by lia.
  reflexivity.
Qed.

(** X4: from an empty container of the kind the first segment asks
    for, and along a path no segment of which is the key [__proto__],
    [setValueAtPath] makes one container for each further segment, an
    array before a numeric segment and an object before a key, and the
    root serializes to the replacement, as [JSON.stringify] writes it,
    nested under the path ([nest_path]): with [null] for the holes before
    an index, and with nothing in an array for a numeric segment that is
    no array index ([2^32 - 1] or more), which becomes a named property
    of the array. *)
Theorem setValueAtPath_builds_path (seg : segment) (rest : list segment) (jr : json)
    (h0 : heap) :
  Forall (fun seg => seg <> SegStr proto_key) (seg :: rest) ->
  exists (root r : value) (h h' : heap),
    (let* r := parse (TextJson jr) in
     let* root := new_object (container_for seg) in
     ret (root, r)) h0 = (Ok (root, r), h)
    /\ setValueAtPath root (Some (seg :: rest)) r h = (Ok root, h')
    /\ stringify root h'
       = (Ok (Some (TextJson (nest_path (seg :: rest) (normalize jr)))), h')
    /\ forall (l : loc) (o : object), h0 !! l = Some o -> h' !! l = Some o.
Proof.
  intros Hplain.
  destruct (alloc_fresh_tree jr h0) as (r & h1 & Hr & hj & fpr & -> & Hdenr & Hfpr).
  pose proof (denotes_dom _ _ _ _ Hdenr) as Hdom.
  destruct (walk_builds_path ((h0 ++ hj) ++ [container_for seg]) (length (h0 ++ hj)) seg rest
              r (normalize jr) fpr Hplain (list_lookup_middle _ [] _ _ eq_refl)
              (denotes_extend _ _ _ _ _ Hdenr))
    as (h' & Hwalk & Hstr & Hframe).
  { intros Hin. apply Hdom in Hin. lia. }
  exists (VObject (length (h0 ++ hj))), r, ((h0 ++ hj) ++ [container_for seg]), h'.
  split; [|split; [|split]].
  - cbn [parse]. rewrite (bind_Ok _ _ _ _ _ Hr).
    rewrite (bind_Ok _ _ (h0 ++ hj) ((h0 ++ hj) ++ [container_for seg])
               (VObject (length (h0 ++ hj))) eq_refl).
    reflexivity.
  - unfold setValueAtPath. rewrite (bind_Ok _ _ _ _ _ Hwalk). reflexivity.
  - exact Hstr.
  - intros l o Hl. assert (Hlt : l < length h0) by (eapply lookup_lt_Some; eauto).
    rewrite Hframe by (rewrite ?length_app; cbn; lia).
    rewrite !lookup_app_l by (rewrite ?length_app; lia). exact Hl.
Qed.

Lemma setValueAtPath_builds_path_witness :
  exists (root r : value) (h h' : heap),
    (let* r := parse (TextJson (JString "v")) in
     let* root := new_object (container_for (SegStr "a")) in
     ret (root, r)) [] = (Ok (root, r), h)
    /\ setValueAtPath root (Some [SegStr "a"; SegNum 2; SegStr "b"]) r h = (Ok root, h')
    /\ stringify root h'
       = (Ok (Some (TextJson (nest_path [SegStr "a"; SegNum 2; SegStr "b"]
                                (normalize (JString "v"))))), h')
    /\ forall (l : loc) (o : object), [] !! l = Some o -> h' !! l = Some o.
Proof.
  apply (setValueAtPath_builds_path (SegStr "a") [SegNum 2; SegStr "b"] (JString "v") []).
  repeat constructor; discriminate.
Defined.

Example nest_path_a_2_b :
  nest_path [SegStr "a"; SegNum 2; SegStr "b"] (JString "v")
  = JObject [("a", JArray [JNull; JNull; JObject [("b", JString "v")]])].
Proof. vm_compute. reflexivity. Qed.

(** *** Writing to an array *)

(** X5: an index at or past the end of an array extends it.  The
    elements in between are holes, which serialize as [null], and the
    replacement is the new last element. *)
Theorem setValueAtPath_pads_array (items : list json) (jr : json) (n : N) (i : nat)
    (h0 : heap) :
  array_index (ToPropertyKey (SegNum n)) = Some i ->
  length items <= i ->
  exists (root r : value) (h h' : heap),
    (let* root := parse (TextJson (JArray items)) in
     let* r := parse (TextJson jr) in
     ret (root, r)) h0 = (Ok (root, r), h)
    /\ setValueAtPath root (Some [SegNum n]) r h = (Ok root, h')
    /\ stringify root h'
       = (Ok (Some (TextJson (JArray (map normalize items
                                        ++ replicate (i - length items) JNull
                                        ++ [normalize jr])))), h').
Proof.
  intros Hidx Hlen.
  destruct (alloc_fresh_tree (JArray items) h0)
    as (root & h1 & Hroot & hj & fp & -> & Hden & Hfp).
  destruct (alloc_fresh_tree jr (h0 ++ hj)) as (r & h2 & Hr & hj2 & fpr & -> & Hdenr & Hfpr).
  cbn [normalize] in Hden.
  pose proof (denotes_dom _ _ _ _ Hden) as Hdom.
  apply (denotes_extend _ hj2) in Hden.
  destruct (denotes_arr_inv _ _ _ _ Hden) as (l & es & ps & fpc & -> & Hl & Hes & Hnin & ->).
  set (h := (h0 ++ hj) ++ hj2) in *.
  assert (Hlt : l < length h) by (eapply lookup_lt_Some; eauto).
  assert (Hles : length es = length items).
  { rewrite (denotes_list_length _ _ _ _ Hes), length_map. reflexivity. }
  set (es' := es ++ replicate (i - length es) (VPrim PUndefined) ++ [r]).
  set (h' := <[l:=Arr es' ps]> h).
  assert (Hset : set_prop (VObject l) (ToPropertyKey (SegNum n)) r h = (Ok tt, h')).
  { unfold set_prop. rewrite Hl, Hidx. unfold set_elem.
    destruct (Nat.ltb_spec i (length es)); [lia | reflexivity]. }
  assert (Hrl : l ∉ fpr).
  { intros Hin. apply Hfpr in Hin. specialize (Hdom l ltac:(set_solver)). lia. }
  assert (Hes' : denotes_list h' es (map normalize items) fpc).
  { eapply denotes_list_frame; [exact Hes|]. intros x Hx.
    apply list_lookup_insert_ne. set_solver. }
  assert (Hr' : denotes h' r (normalize jr) fpr).
  { eapply denotes_frame; [exact Hdenr|]. intros x Hx.
    apply list_lookup_insert_ne. set_solver. }
  assert (Hsize : forall fp0 : gset loc,
             (forall x, x ∈ fp0 -> x < length h') -> l ∉ fp0 -> size fp0 <= length h' - 1).
  { intros fp0 Hd Hn.
    assert (Hs : size ({[l]} ∪ fp0) <= length h').
    { apply footprint_size. intros x Hx. apply elem_of_union in Hx as [Hx|Hx]; [|auto].
      apply elem_of_singleton in Hx. subst x. unfold h'. rewrite length_insert. exact Hlt. }
    rewrite size_union, size_singleton in Hs by (apply disjoint_singleton_l; exact Hn). lia. }
  exists (VObject l), r, h, h'. split; [|split].
  - cbn [parse]. rewrite (bind_Ok _ _ _ _ _ Hroot), (bind_Ok _ _ _ _ _ Hr). reflexivity.
  - unfold setValueAtPath. rewrite walk_last, (bind_Ok _ _ _ _ _ Hset). reflexivity.
  - unfold stringify.
    assert (Hlen' : length h' = S (length h' - 1)) by (unfold h'; rewrite length_insert; lia).
    rewrite Hlen'. cbn [ser]. unfold h' at 1. rewrite list_lookup_insert_eq by exact Hlt.
    fold h'. unfold es'.
    rewrite (ser_items_app _ _ _ (map normalize items)
               (replicate (i - length es) JNull ++ [normalize jr])).
    + rewrite Hles. reflexivity.
    + apply (denotes_list_ser _ _ _ _ Hes'). apply Hsize; [|exact Hnin].
      eapply denotes_list_dom. exact Hes'.
    + apply ser_items_app.
      * apply ser_items_holes. destruct (length h' - 1); reflexivity.
      * cbn [ser_items]. rewrite (denotes_ser _ _ _ _ Hr'); [reflexivity|].
        apply Hsize; [|exact Hrl]. eapply denotes_dom. exact Hr'.
Qed.

Lemma setValueAtPath_pads_array_witness :
  exists (root r : value) (h h' : heap),
    (let* root := parse (TextJson (JArray [JBool true])) in
     let* r := parse (TextJson (JString "v")) in
     ret (root, r)) [] = (Ok (root, r), h)
    /\ setValueAtPath root (Some [SegNum 3]) r h = (Ok root, h')
    /\ stringify root h'
       = (Ok (Some (TextJson (JArray (map normalize [JBool true]
                                        ++ replicate (3 - length [JBool true]) JNull
                                        ++ [normalize (JString "v")])))), h').
Proof.
  apply (setValueAtPath_pads_array [JBool true] (JString "v") 3 3 []).
  - vm_compute. reflexivity.
  - cbn. lia.
Defined.

(** X6: a key that is no index, written to an array, becomes a named
    property of the array: it reads back, and [JSON.stringify] does not
    write it, so the array serializes as before. *)
Theorem setValueAtPath_key_on_array (items : list json) (jr : json) (k : string) (h0 : heap) :
  array_index k = None ->
  k <> length_key ->
  k <> proto_key ->
  exists (root r : value) (h h' : heap),
    (let* root := parse (TextJson (JArray items)) in
     let* r := parse (TextJson jr) in
     ret (root, r)) h0 = (Ok (root, r), h)
    /\ setValueAtPath root (Some [SegStr k]) r h = (Ok root, h')
    /\ get_prop root k h' = (Ok r, h')
    /\ stringify root h' = (Ok (Some (TextJson (JArray (map normalize items)))), h').
Proof.
  intros Hidx Hlen Hproto.
  destruct (alloc_fresh_tree (JArray items) h0)
    as (root & h1 & Hroot & hj & fp & -> & Hden & Hfp).
  destruct (alloc_fresh_tree jr (h0 ++ hj)) as (r & h2 & Hr & hj2 & fpr & -> & Hdenr & Hfpr).
  cbn [normalize] in Hden.
  apply (denotes_extend _ hj2) in Hden.
  destruct (denotes_arr_inv _ _ _ _ Hden) as (l & es & ps & fpc & -> & Hl & Hes & Hnin & ->).
  set (h := (h0 ++ hj) ++ hj2) in *.
  assert (Hlt : l < length h) by (eapply lookup_lt_Some; eauto).
  set (h' := <[l:=Arr es (aset k r ps)]> h).
  assert (Hset : set_prop (VObject l) k r h = (Ok tt, h')).
  { unfold set_prop. rewrite Hl, Hidx.
    destruct (String.eqb_spec k length_key); [contradiction|]. unfold named_set.
    destruct (String.eqb_spec k proto_key); [contradiction | reflexivity]. }
  exists (VObject l), r, h, h'. split; [|split; [|split]].
  - cbn [parse]. rewrite (bind_Ok _ _ _ _ _ Hroot), (bind_Ok _ _ _ _ _ Hr). reflexivity.
  - unfold setValueAtPath. rewrite walk_last. cbn [ToPropertyKey].
    rewrite (bind_Ok _ _ _ _ _ Hset). reflexivity.
  - unfold get_prop, h'. rewrite list_lookup_insert_eq by exact Hlt. rewrite Hidx.
    destruct (String.eqb_spec k length_key); [contradiction|]. unfold named_get.
    rewrite alookup_aset, String.eqb_refl. reflexivity.
  - eapply denotes_stringify. econstructor.
    + apply list_lookup_insert_eq. exact Hlt.
    + eapply denotes_list_frame; [exact Hes|]. intros x Hx.
      apply list_lookup_insert_ne. set_solver.
    + exact Hnin.
Qed.

Lemma setValueAtPath_key_on_array_witness :
  exists (root r : value) (h h' : heap),
    (let* root := parse (TextJson (JArray [JBool true])) in
     let* r := parse (TextJson (JString "v")) in
     ret (root, r)) [] = (Ok (root, r), h)
    /\ setValueAtPath root (Some [SegStr "y"]) r h = (Ok root, h')
    /\ get_prop root "y" h' = (Ok r, h')
    /\ stringify root h' = (Ok (Some (TextJson (JArray (map normalize [JBool true])))), h').
Proof.
  apply (setValueAtPath_key_on_array [JBool true] (JString "v") "y" []).
  - reflexivity.
  - discriminate.
  - discriminate.
Defined.

(** *** A path into a scalar *)

Lemma walk_into_primitive (p : prim) (seg : segment) (rest : list segment) (r : value)
    (h : heap) :
  ToPropertyKey seg <> proto_key ->
  is_number seg = false \/ rest = [] ->
  exists hj, walk (VPrim p) (seg :: rest) r h = (Throw TypeError, h ++ hj).
Proof.
  intros Hkey Hseg.
  assert (Hset : forall (v : value) (h1 : heap),
             set_prop (VPrim p) (ToPropertyKey seg) v h1 = (Throw TypeError, h1)).
  { intros v h1. unfold set_prop.
    destruct (String.eqb_spec (ToPropertyKey seg) proto_key); [contradiction | reflexivity]. }
  destruct rest as [|nextSeg rest].
  - exists []. rewrite app_nil_r, walk_last. apply Hset.
  - destruct Hseg as [Hseg|]; [|discriminate].
    rewrite walk_step, Hseg. cbn zeta.
    destruct (decide (is_nullish (VPrim p) = true)) as [Hnull|Hnull].
    + exists []. rewrite app_nil_r. unfold bind at 1, get_prop.
      destruct p; try discriminate; reflexivity.
    + exists [container_for nextSeg].
      assert (Hget : get_prop (VPrim p) (ToPropertyKey seg) h = (Ok (VPrim PUndefined), h)).
      { unfold get_prop.
        destruct (String.eqb_spec (ToPropertyKey seg) proto_key); [contradiction|].
        destruct p; try reflexivity; contradiction Hnull; reflexivity. }
      rewrite (bind_Ok _ _ _ _ _ Hget). cbn [is_nullish].
      rewrite (bind_Ok _ _ h h true eq_refl).
      unfold bind at 1. unfold bind at 1. unfold new_object at 1. rewrite Hset. reflexivity.
Qed.



(** *** A numeric segment over a value that is no array *)

(** From an empty container of the kind its first segment asks for, the
    mutator runs to the end. *)
Lemma walk_fresh_container (r : value) (p : list segment) :
  forall (seg : segment) (l : loc) (h : heap),
    Forall (fun seg => seg <> SegStr proto_key) (seg :: p) ->
    h !! l = Some (container_for seg) ->
    exists h', walk (VObject l) (seg :: p) r h = (Ok tt, h').
Proof.
  induction p as [|nextSeg rest IH]; intros seg l h Hplain Hl;
    apply Forall_cons in Hplain as [Hseg Hplain].
  - destruct (fresh_container_set seg l r h Hseg Hl) as (o & Hset & _).
    rewrite walk_last. eauto.
  - assert (Hlt : l < length h) by (eapply lookup_lt_Some; eauto).
    destruct (fresh_container_get seg l h Hseg Hl) as [Hget Harr].
    assert (Hl1 : (h ++ [container_for nextSeg]) !! l = Some (container_for seg))
      by (rewrite lookup_app_l by exact Hlt; exact Hl).
    destruct (fresh_container_set seg l (VObject (length h)) (h ++ [container_for nextSeg])
                Hseg Hl1) as (o & Hset & Hback).
    assert (Hnext : (<[l:=o]> (h ++ [container_for nextSeg])) !! length h
                    = Some (container_for nextSeg)).
    { rewrite list_lookup_insert_ne by lia. apply list_lookup_middle. reflexivity. }
    destruct (IH nextSeg (length h) _ Hplain Hnext) as (h' & Hwalk).
    exists h'. rewrite walk_step. cbv zeta.
    assert (Hcreate :
      (let* fresh := new_object (container_for nextSeg) in
       set_prop (VObject l) (ToPropertyKey seg) fresh) h
      = (Ok tt, <[l:=o]> (h ++ [container_for nextSeg]))).
    { rewrite (bind_Ok _ _ h (h ++ [container_for nextSeg]) (VObject (length h)) eq_refl).
      exact Hset. }
    destruct (is_number seg) eqn:Hnum.
    + rewrite (bind_Ok _ _ _ _ _ Harr).
      rewrite (bind_Ok _ _ h h (VObject l) eq_refl).
      rewrite (bind_Ok _ _ _ _ _ Hget). cbn [is_nullish].
      rewrite (bind_Ok _ _ _ _ _ Hcreate).
      rewrite (bind_Ok _ _ _ _ _ Hback). exact Hwalk.
    + rewrite (bind_Ok _ _ _ _ _ Hget). cbn [is_nullish].
      rewrite (bind_Ok _ _ h h true eq_refl).
      rewrite (bind_Ok _ _ _ _ _ Hcreate).
      rewrite (bind_Ok _ _ _ _ _ Hback). exact Hwalk.
Qed.

Lemma walk_detaches (h : heap) (cur r : value) (n : N) (nextSeg : segment)
    (rest : list segment) :
  isArray cur h = (Ok false, h) ->
  Forall (fun seg => seg <> SegStr proto_key) (nextSeg :: rest) ->
  exists h',
    walk cur (SegNum n :: nextSeg :: rest) r h = (Ok tt, h')
    /\ forall (l : loc) (o : object), h !! l = Some o -> h' !! l = Some o.
Proof.
  intros Harr Hplain.
  apply (Forall_cons_2 _ (SegNum n)) in Hplain; [|discriminate].
  assert (Hfresh : walk cur (SegNum n :: nextSeg :: rest) r h
                   = walk (VObject (length h)) (SegNum n :: nextSeg :: rest) r
                       (h ++ [Arr [] []])).
  { rewrite !walk_step. cbn [is_number]. cbv zeta.
    rewrite (bind_Ok _ _ _ _ _ Harr).
    rewrite (bind_Ok _ _ h (h ++ [Arr [] []]) (VObject (length h)) eq_refl).
    assert (Harr' : isArray (VObject (length h)) (h ++ [Arr [] []])
                    = (Ok true, h ++ [Arr [] []])).
    { unfold isArray. rewrite list_lookup_middle by reflexivity. reflexivity. }
    rewrite (bind_Ok _ _ _ _ _ Harr').
    rewrite (bind_Ok _ _ (h ++ [Arr [] []]) (h ++ [Arr [] []]) (VObject (length h)) eq_refl).
    reflexivity. }
  destruct (walk_fresh_container r (nextSeg :: rest) (SegNum n) (length h) (h ++ [Arr [] []])
              Hplain (list_lookup_middle h [] _ _ eq_refl)) as (h' & Hwalk).
  exists h'. split; [rewrite Hfresh; exact Hwalk|].
  apply (walk_detached h h' cur r n nextSeg rest (Ok tt) Harr).
  rewrite Hfresh. exact Hwalk.
Qed.

(** ** The deep clone *)

(** X8: the deep clone, [JSON.parse(JSON.stringify(root))], of a tree
    is a tree for the same document, made of new objects only: the heap
    before it is a prefix of the heap after it, and the clone serializes
    like the root. *)
Theorem deep_clone_copies (h : heap) (root : value) (j : json) (fp : gset loc) :
  denotes h root j fp ->
  exists (clone : value) (h' : heap),
    deep_clone root h = (Ok clone, h')
    /\ fresh_tree h h' clone j
    /\ stringify clone h' = stringify root h'.
Proof.
  intros Hden.
  destruct (alloc_fresh_tree j h) as (clone & h' & Hclone & Hfresh).
  rewrite (denotes_normal _ _ _ _ Hden) in Hfresh.
  exists clone, h'. split; [|split; [exact Hfresh|]].
  - unfold deep_clone. rewrite (bind_Ok _ _ _ _ _ (denotes_stringify _ _ _ _ Hden)).
    exact Hclone.
  - destruct Hfresh as (hj & fpc & -> & Hc & _).
    rewrite (denotes_stringify _ _ _ _ Hc).
    rewrite (denotes_stringify _ _ _ _ (denotes_extend _ hj _ _ _ Hden)). reflexivity.
Qed.

Lemma deep_clone_copies_witness :
  exists (clone : value) (h' : heap),
    deep_clone (VObject 1) [Obj [("age", VPrim (PString "42"))]; Obj [("user", VObject 0)]]
      = (Ok clone, h')
    /\ fresh_tree [Obj [("age", VPrim (PString "42"))]; Obj [("user", VObject 0)]] h' clone
         user_doc
    /\ stringify clone h' = stringify (VObject 1) h'.
Proof.
  apply (deep_clone_copies _ _ _ ({[1]} ∪ (({[0]} ∪ ∅) ∪ ∅))).
  econstructor; [reflexivity | reflexivity | | set_solver].
  cbn. constructor; [|constructor|set_solver].
  econstructor; [reflexivity | reflexivity | | set_solver].
  cbn. replace (∅ : gset loc) with ((∅ : gset loc) ∪ ∅) by set_solver.
  constructor; [constructor; reflexivity | constructor | set_solver].
Defined.

(** The save handler mutates the deep clone of the root it parsed. *)
Lemma persist_from_deep_clone (root : value) (nd : NodeData) (f : record)
    (rows : list NodeRow) (h : heap) :
  persist_from root nd f rows h
  = (let* replacement := build_replacement nd f rows in
     let* newRoot := deep_clone root in
     let* final := setValueAtPath newRoot (path nd) replacement in
     let toSave := if nonempty_path (path nd) then final else replacement in
     let* out := stringify toSave in
     match out with
     | Some t => ret t
     | None => unmodelled
     end) h.
Proof.
  unfold persist_from, deep_clone, bind.
  destruct (build_replacement nd f rows h) as [[repl| |] h1]; try reflexivity.
  destruct (stringify root h1) as [[s| |] h2]; reflexivity.
Qed.

(** ** What view mode shows *)

(** *** The path *)

Lemma append_assoc (a b c : string) : ((a ++ b) ++ c = a ++ (b ++ c))%string.
Proof.
  induction a as [|x a IH]; [reflexivity|].
  rewrite !append_cons, IH. reflexivity.
Qed.

Lemma append_nil_r (a : string) : (a ++ "" = a)%string.
Proof.
  induction a as [|x a IH]; [reflexivity|].
  rewrite append_cons, IH. reflexivity.
Qed.

Lemma join_snoc (sep s : string) (l : list string) :
  join sep (l ++ [s])
  = match l with
    | [] => s
    | _ => (join sep l ++ sep ++ s)%string
    end.
Proof.
  induction l as [|x l IH]; [reflexivity|].
  destruct l as [|y l]; [reflexivity|].
  change (join sep ((x :: y :: l) ++ [s]))
    with (x ++ sep ++ join sep ((y :: l) ++ [s]))%string.
  rewrite IH.
  change (join sep (x :: y :: l)) with (x ++ sep ++ join sep (y :: l))%string.
  rewrite !append_assoc. reflexivity.
Qed.

Lemma jsonPathToString_snoc (p : list segment) (seg : segment) :
  jsonPathToString (Some (p ++ [seg]))
  = (jsonPathToString (Some p) ++ "[" ++ show_segment seg ++ "]")%string.
Proof.
  destruct p as [|s p]; [reflexivity|].
  change (jsonPathToString (Some ((s :: p) ++ [seg])))
    with ("$[" ++ join "][" (map show_segment ((s :: p) ++ [seg])) ++ "]")%string.
  rewrite map_app. change (map show_segment [seg]) with [show_segment seg].
  rewrite join_snoc. cbn [map jsonPathToString].
  rewrite !append_assoc. reflexivity.
Qed.

(** X9: the text of a path is the text of any prefix of it followed by
    one pair of brackets for each further segment; the empty path is the
    dollar sign. *)
Theorem jsonPathToString_descendant (p q : list segment) :
  jsonPathToString (Some (p ++ q)) = (jsonPathToString (Some p) ++ brackets q)%string.
Proof.
  revert p. induction q as [|seg q IH]; intros p.
  - rewrite app_nil_r. cbn [brackets fold_right]. rewrite append_nil_r. reflexivity.
  - change (p ++ seg :: q) with (p ++ [seg] ++ q). rewrite app_assoc, IH, jsonPathToString_snoc.
    cbn [brackets fold_right]. rewrite !append_assoc. reflexivity.
Qed.

(** X10: [jsonPathToString] does not escape a key.  A key with a double
    quote, a closing and an opening bracket and a double quote inside is
    written like two keys, so two different paths have the same text. *)
Theorem jsonPathToString_ambiguous (p : list segment) (s t : string) :
  jsonPathToString (Some (p ++ [SegStr (s ++ dquote ++ "][" ++ dquote ++ t)]))
  = jsonPathToString (Some (p ++ [SegStr s; SegStr t])).
Proof.
  change (p ++ [SegStr s; SegStr t]) with (p ++ [SegStr s] ++ [SegStr t]).
  rewrite app_assoc, !jsonPathToString_snoc.
  cbn [show_segment]. rewrite !append_assoc. reflexivity.
Qed.

(** *** The content *)

Lemma ser_fields_prims (rec : value -> result (option json)) (rows : list NodeRow) :
  (forall p, rec (VPrim p) = Ok (ser_prim p)) ->
  ser_fields rec (omap (fun r => (fun k => (k, VPrim (value_ r))) <$> field_key r) rows)
  = Ok (omap shown_field rows).
Proof.
  intros Hrec. induction rows as [|r rows IH]; [reflexivity|].
  cbn [omap list_omap]. unfold shown_field at 1. destruct (field_key r) as [k|]; cbn.
  - rewrite Hrec, IH. destruct (ser_prim (value_ r)); reflexivity.
  - exact IH.
Qed.

Lemma forEach_show_row (l : loc) (rows : list NodeRow) :
  forall (h : heap) (ps : props),
    NoDup (ps.*1 ++ omap field_key rows) ->
    Forall (fun k => k <> proto_key) (omap field_key rows) ->
    h !! l = Some (Obj ps) ->
    forEach (show_row (VObject l)) rows h
    = (Ok tt, <[l:=Obj (ps ++ omap (fun r => (fun k => (k, VPrim (value_ r))) <$> field_key r)
                            rows)]> h).
Proof.
  induction rows as [|r rows IH]; intros h ps Hdup Hproto Hl;
    cbn [forEach omap list_omap].
  - rewrite app_nil_r, list_insert_id by exact Hl. reflexivity.
  - cbn [omap list_omap] in Hdup, Hproto.
    assert (Hlt : l < length h) by (eapply lookup_lt_Some; eauto).
    destruct (field_key r) as [k|] eqn:Hfk; cbn [fmap option_fmap option_map].
    + apply Forall_cons in Hproto as [Hk Hproto].
      assert (Hfresh : k ∉ ps.*1).
      { apply NoDup_app in Hdup as (_ & Hd & _). intros Hin. apply (Hd _ Hin). left. }
      assert (Hset : show_row (VObject l) r h
                     = (Ok tt, <[l:=Obj (ps ++ [(k, VPrim (value_ r))])]> h)).
      { unfold field_key in Hfk. unfold show_row.
        destruct (scalar_row r); [|discriminate]. cbn [andb] in Hfk.
        destruct (falsy_key (key r)); [discriminate|]. cbn [negb] in Hfk. rewrite Hfk.
        unfold set_prop. rewrite Hl. unfold named_set.
        destruct (String.eqb_spec k proto_key); [contradiction|]. cbn [andb].
        destruct (aset_fresh k (VPrim (value_ r)) ps Hfresh) as [-> _]. reflexivity. }
      rewrite (bind_Ok _ _ _ _ _ Hset).
      rewrite (IH _ (ps ++ [(k, VPrim (value_ r))])).
      * rewrite list_insert_insert_eq, <- app_assoc. reflexivity.
      * rewrite fmap_app. cbn [fmap list_fmap fst]. rewrite <- app_assoc. exact Hdup.
      * exact Hproto.
      * apply list_lookup_insert_eq. exact Hlt.
    + assert (Hskip : show_row (VObject l) r h = (Ok tt, h)).
      { unfold field_key in Hfk. unfold show_row.
        destruct (scalar_row r); [|reflexivity]. cbn [andb] in Hfk.
        destruct (key r) as [k|]; [|reflexivity].
        destruct (falsy_key (Some k)); [reflexivity | discriminate]. }
      rewrite (bind_Ok _ _ _ _ _ Hskip). apply IH; assumption.
Qed.

(** X11: what view mode shows.  A lone row without a key is shown as the
    text of its value, without quotes.  Any other list of rows is shown as
    the pretty-printed object of the rows that are neither arrays nor
    objects and have a key, in the order of the rows, when no two of
    these keys are the same and none is [__proto__] or an array index
    (which an object enumerates first); a value that is [undefined] is
    left out, and no rows at all give the empty object. *)
Theorem normalizeNodeData_shows_scalars :
  (forall (r : NodeRow) (h : heap),
     falsy_key (key r) = true ->
     normalizeNodeData [r] h = (Ok (String_ (value_ r)), h))
  /\ forall (rows : list NodeRow) (h : heap),
       (forall r, rows = [r] -> falsy_key (key r) = false) ->
       NoDup (omap field_key rows) ->
       Forall (fun k => k <> proto_key /\ array_index k = None) (omap field_key rows) ->
       exists h' : heap,
         normalizeNodeData rows h = (Ok (render "" (JObject (omap shown_field rows))), h')
         /\ forall (l : loc) (o : object), h !! l = Some o -> h' !! l = Some o.
Proof.
  split.
  - intros r h Hr. unfold normalizeNodeData. rewrite Hr.
    replace (bool_decide ([] = [] :> list NodeRow)) with true
      by (symmetry; apply bool_decide_eq_true; reflexivity).
    reflexivity.
  - intros rows h Hsingle Hdup Hplain.
    assert (Hproto : Forall (fun k => k <> proto_key) (omap field_key rows)).
    { eapply Forall_impl; [exact Hplain|]. intros k [Hk _]. exact Hk. }
    destruct rows as [|r others].
    { exists h. split; [reflexivity | auto]. }
    set (ps := omap (fun r => (fun k => (k, VPrim (value_ r))) <$> field_key r) (r :: others)).
    exists (<[length h:=Obj ps]> (h ++ [Obj []])).
    split.
    + unfold normalizeNodeData.
      assert (Hbranch : (bool_decide (others = []) && falsy_key (key r))%bool = false).
      { destruct others as [|r2 others]; [|reflexivity].
        rewrite (Hsingle r eq_refl). apply andb_false_r. }
      rewrite Hbranch.
      rewrite (bind_Ok _ _ h (h ++ [Obj []]) (VObject (length h)) eq_refl).
      rewrite (bind_Ok _ _ _ _ _
                 (forEach_show_row (length h) (r :: others) (h ++ [Obj []]) [] Hdup Hproto
                    (list_lookup_middle h [] (Obj []) _ eq_refl))).
      cbn [app]. fold ps.
      assert (Hstr : stringify (VObject (length h)) (<[length h:=Obj ps]> (h ++ [Obj []]))
                     = (Ok (Some (TextJson (JObject (omap shown_field (r :: others))))),
                        <[length h:=Obj ps]> (h ++ [Obj []]))).
      { unfold stringify. rewrite length_insert, length_app, Nat.add_1_r.
        cbn [ser]. rewrite list_lookup_insert_eq by (rewrite length_app; cbn; lia).
        unfold ps. rewrite ser_fields_prims by (intros p; destruct (length h); reflexivity).
        reflexivity. }
      rewrite (bind_Ok _ _ _ _ _ Hstr). reflexivity.
    + intros l o Hl. assert (Hlt : l < length h) by (eapply lookup_lt_Some; eauto).
      rewrite list_lookup_insert_ne by lia. rewrite lookup_app_l by exact Hlt. exact Hl.
Qed.

Lemma normalizeNodeData_shows_scalars_witness :
  exists h' : heap,
    normalizeNodeData (text_ (nested_node PNull)) []
    = (Ok (render "" (JObject [("b", JNumber (of_N 1))])), h')
    /\ forall (l : loc) (o : object), [] !! l = Some o -> h' !! l = Some o.
Proof.
  apply (proj2 normalizeNodeData_shows_scalars (text_ (nested_node PNull)) []).
  - intros r E. discriminate.
  - cbn. apply NoDup_singleton.
  - cbn. repeat constructor. discriminate.
Defined.

(** ** The form of edit mode *)

Lemma wf_form_aset (k v : string) (f : record) :
  k <> proto_key -> wf_form f -> wf_form (aset k v f).
Proof.
  intros Hk [Hdup Hproto]. split; [apply aset_NoDup; exact Hdup|].
  apply Forall_forall. intros x Hx. apply aset_keys in Hx as [->|Hx]; [exact Hk|].
  rewrite Forall_forall in Hproto. apply Hproto. exact Hx.
Qed.

Lemma wf_form_populate_row (acc : record) (r : NodeRow) :
  wf_form acc -> wf_form (populate_row acc r).
Proof.
  intros Hwf. unfold populate_row. destruct (key r) as [k|]; [|exact Hwf].
  destruct (_ && _)%bool; [|exact Hwf]. unfold record_set.
  destruct (String.eqb_spec k proto_key) as [->|Hk]; cbn [andb].
  - destruct (bool_decide (is_Some (alookup proto_key acc))) eqn:Hb; cbn [negb]; [|exact Hwf].
    apply bool_decide_eq_true in Hb as [x Hx].
    destruct Hwf as [_ Hproto]. rewrite Forall_forall in Hproto.
    exfalso. apply (Hproto proto_key); [|reflexivity].
    eapply alookup_key. exact Hx.
  - apply wf_form_aset; assumption.
Qed.

Lemma wf_form_populate (b : bool) (nd : option NodeData) : wf_form (populate b nd).
Proof.
  assert (Hnil : wf_form []) by (split; constructor).
  assert (Hfold : forall rows acc, wf_form acc -> wf_form (fold_left populate_row rows acc)).
  { induction rows as [|r rows IH]; intros acc Hacc; [exact Hacc|].
    cbn [fold_left]. apply IH, wf_form_populate_row, Hacc. }
  unfold populate. destruct nd as [nd|]; [|exact Hnil].
  destruct (negb b); [exact Hnil|].
  destruct (text_ nd) as [|r [|r2 rows]]; [exact Hnil | | apply Hfold; exact Hnil].
  destruct (falsy_key (key r)); [|apply Hfold; exact Hnil].
  split; cbn; [apply NoDup_singleton | repeat constructor; discriminate].
Qed.

Lemma field_key_contributes (r : NodeRow) (k : string) :
  field_key r = Some k <-> contributes k r.
Proof.
  unfold field_key, contributes. destruct (scalar_row r); cbn [andb].
  - destruct (key r) as [k'|]; cbn [falsy_key].
    + destruct (String.eqb_spec k' ""); cbn [negb]; split.
      * discriminate.
      * intros (_ & E & Hne). congruence.
      * intros E. injection E as ->. auto.
      * intros (_ & E & _). exact E.
    + split; [discriminate | intros (_ & E & _); discriminate].
  - split; [discriminate | intros (E & _); discriminate].
Qed.

Lemma field_key_nonempty (r : NodeRow) : field_key r <> Some "".
Proof.
  unfold field_key. destruct (scalar_row r); [|discriminate]. cbn [andb].
  destruct (key r) as [k|]; cbn [falsy_key]; [|discriminate].
  destruct (String.eqb_spec k ""); cbn [negb]; congruence.
Qed.

Lemma populate_row_field (acc : record) (r : NodeRow) :
  populate_row acc r
  = match field_key r with
    | Some k => record_set k (display (value_ r)) acc
    | None => acc
    end.
Proof.
  unfold populate_row, field_key. destruct (key r) as [k|]; [|destruct (_ && _)%bool; reflexivity].
  destruct (_ && _)%bool; reflexivity.
Qed.

Lemma record_set_plain (k v : string) (acc : record) :
  k <> proto_key -> record_set k v acc = aset k v acc.
Proof.
  intros Hk. unfold record_set. destruct (String.eqb_spec k proto_key); [contradiction|].
  reflexivity.
Qed.

Lemma record_set_proto (v : string) (acc : record) :
  wf_form acc -> record_set proto_key v acc = acc.
Proof.
  intros [_ Ha]. unfold record_set. rewrite String.eqb_refl. cbn [andb].
  destruct (alookup proto_key acc) as [x|] eqn:E.
  - apply alookup_key in E. rewrite Forall_forall in Ha. destruct (Ha _ E). reflexivity.
  - replace (bool_decide (is_Some (None : option string))) with false
      by (symmetry; apply bool_decide_eq_false; intros [? ?]; discriminate).
    reflexivity.
Qed.

Lemma populate_row_other (acc : record) (r : NodeRow) (k : string) :
  ~ contributes k r -> alookup k (populate_row acc r) = alookup k acc.
Proof.
  intros Hno. unfold populate_row. destruct (key r) as [k'|] eqn:Hk; [|reflexivity].
  destruct (scalar_row r) eqn:Hsc; [|reflexivity]. cbn [andb falsy_key].
  destruct (String.eqb_spec k' "") as [->|Hne]; [reflexivity|]. cbn [negb].
  assert (Hkk : k <> k').
  { intros ->. apply Hno. split; [exact Hsc|]. split; [exact Hk | exact Hne]. }
  unfold record_set. destruct (_ && _)%bool; [reflexivity|].
  rewrite alookup_aset. destruct (String.eqb_spec k k'); [contradiction | reflexivity].
Qed.

Lemma populate_row_same (acc : record) (r : NodeRow) (k : string) :
  contributes k r -> k <> proto_key ->
  alookup k (populate_row acc r) = Some (display (value_ r)).
Proof.
  intros (Hsc & Hk & Hne) Hproto. unfold populate_row. rewrite Hk, Hsc. cbn [andb falsy_key].
  destruct (String.eqb_spec k ""); [contradiction|]. cbn [negb].
  unfold record_set. destruct (String.eqb_spec k proto_key); [contradiction|]. cbn [andb].
  rewrite alookup_aset, String.eqb_refl. reflexivity.
Qed.

Lemma populate_row_grows (acc : record) (r : NodeRow) (k : string) :
  k ∈ acc.*1 -> k ∈ (populate_row acc r).*1.
Proof.
  intros Hin. rewrite populate_row_field. destruct (field_key r) as [k'|]; [|exact Hin].
  unfold record_set. destruct (_ && _)%bool; [exact Hin|]. apply aset_keys. right. exact Hin.
Qed.

Lemma populate_rows_field (rows : list NodeRow) (r : NodeRow) (k : string) :
  forall acc : record,
    r ∈ rows -> field_key r = Some k -> k <> proto_key ->
    k ∈ (fold_left populate_row rows acc).*1.
Proof.
  assert (Hgrow : forall rows acc, k ∈ acc.*1 -> k ∈ (fold_left populate_row rows acc).*1).
  { clear. induction rows as [|r rows IH]; intros acc Hin; [exact Hin|].
    cbn [fold_left]. apply IH, populate_row_grows, Hin. }
  induction rows as [|r0 rows IH]; intros acc Hin Hfk Hk;
    [apply elem_of_nil in Hin; contradiction|].
  cbn [fold_left]. apply elem_of_cons in Hin as [<-|Hin]; [|apply IH; assumption].
  apply Hgrow. rewrite populate_row_field, Hfk, record_set_plain by exact Hk.
  apply aset_keys. left. reflexivity.
Qed.

Lemma populate_rows_from (rows : list NodeRow) (k : string) :
  forall acc : record,
    k ∈ (fold_left populate_row rows acc).*1 ->
    k ∈ acc.*1 \/ exists r, r ∈ rows /\ field_key r = Some k.
Proof.
  induction rows as [|r rows IH]; intros acc Hin; [left; exact Hin|].
  cbn [fold_left] in Hin. destruct (IH _ Hin) as [Hacc|(r' & Hr' & Hfk)].
  - rewrite populate_row_field in Hacc. destruct (field_key r) as [k'|] eqn:Hfk; [|auto].
    unfold record_set in Hacc. destruct (_ && _)%bool; [auto|].
    apply aset_keys in Hacc as [->|Hacc]; [|auto].
    right. exists r. split; [left | exact Hfk].
  - right. exists r'. split; [right; exact Hr' | exact Hfk].
Qed.

(** X12: the value of a field of the form is [String(value ?? "")] of the
    last row that gives the field its key; an earlier row with the same
    key is overwritten. *)
Theorem startEditing_shows_last_row (st : state) (nd : NodeData) (rows1 rows2 : list NodeRow)
    (r : NodeRow) (k : string) :
  selectedNode st = Some nd ->
  isEditing st = false ->
  single_value nd = false ->
  text_ nd = rows1 ++ r :: rows2 ->
  contributes k r ->
  k <> proto_key ->
  (forall r', r' ∈ rows2 -> ~ contributes k r') ->
  alookup k (form (startEditing st)) = Some (display (value_ r)).
Proof.
  intros Hsel Hview Hsingle Hrows Hr Hproto Hlast.
  assert (Hform : form (startEditing st) = fold_left populate_row (text_ nd) []).
  { unfold startEditing, effect. rewrite Hsel, Hview. cbn.
    unfold single_value in Hsingle. destruct (text_ nd) as [|r0 [|r1 rows]]; try reflexivity.
    rewrite Hsingle. reflexivity. }
  rewrite Hform, Hrows, fold_left_app. cbn [fold_left].
  generalize (populate_row_same (fold_left populate_row rows1 []) r k Hr Hproto).
  generalize (populate_row (fold_left populate_row rows1 []) r). clear -Hlast.
  induction rows2 as [|r' rows2 IH]; intros acc Hacc; [exact Hacc|].
  cbn [fold_left]. apply IH.
  - intros r'' Hin. apply Hlast. right. exact Hin.
  - rewrite populate_row_other; [exact Hacc|]. apply Hlast. left.
Qed.

Lemma startEditing_shows_last_row_witness :
  alookup "a" (form (startEditing (viewing two_rows TextEmpty)))
  = Some (display (PNumber (of_N 2))).
Proof.
  apply (startEditing_shows_last_row (viewing two_rows TextEmpty) two_rows
           [ {| key := Some ""; value_ := PNumber (of_N 1); type := "number" |} ] []
           {| key := Some "a"; value_ := PNumber (of_N 2); type := "number" |} "a").
  - reflexivity.
  - reflexivity.
  - reflexivity.
  - reflexivity.
  - repeat split. discriminate.
  - discriminate.
  - intros r' Hin. apply elem_of_nil in Hin. contradiction.
Defined.

(** X13: when editing starts, the notice that nothing can be edited is
    shown exactly when the node is no single value and none of its rows
    gives a field (a row under [__proto__] gives none); and the empty key,
    whose input is labelled Value, is a field of a single value only,
    where it is the only one. *)
Theorem startEditing_fields (st : state) (nd : NodeData) :
  selectedNode st = Some nd ->
  isEditing st = false ->
  (no_editable_attributes (form (startEditing st)) = true
   <-> single_value nd = false
       /\ forall r k, r ∈ text_ nd -> field_key r = Some k -> k = proto_key)
  /\ ("" ∈ (form (startEditing st)).*1 ->
      single_value nd = true /\ length (form (startEditing st)) = 1).
Proof.
  intros Hsel Hview.
  assert (Hform : form (startEditing st) = populate true (Some nd)).
  { unfold startEditing, effect. rewrite Hsel, Hview. reflexivity. }
  rewrite Hform. clear Hform.
  assert (Hcases :
    (single_value nd = true /\ exists v, populate true (Some nd) = [("", v)])
    \/ (single_value nd = false
        /\ populate true (Some nd) = fold_left populate_row (text_ nd) [])).
  { unfold single_value, populate. cbn [negb].
    destruct (text_ nd) as [|r [|r2 rows]]; [right; split; reflexivity | | right; split; reflexivity].
    destruct (falsy_key (key r)); [left; split; eauto | right; split; reflexivity]. }
  destruct Hcases as [[Hsingle (v & Hp)]|[Hsingle Hp]]; rewrite Hp, Hsingle.
  - split; [|intros; split; reflexivity].
    split; [discriminate | intros [? _]; discriminate].
  - split.
    + rewrite <- Hp. unfold no_editable_attributes. split.
      * intros Hnone. apply Nat.eqb_eq, nil_length_inv in Hnone. split; [reflexivity|].
        intros r k Hin Hfk. destruct (decide (k = proto_key)) as [|Hk]; [assumption|].
        pose proof (populate_rows_field (text_ nd) r k [] Hin Hfk Hk) as Hk'.
        rewrite <- Hp, Hnone in Hk'. apply elem_of_nil in Hk'. contradiction.
      * intros [_ Hall]. apply Nat.eqb_eq.
        destruct ((populate true (Some nd)).*1) as [|k ks] eqn:Hkeys; [reflexivity|].
        exfalso. assert (Hin : k ∈ (populate true (Some nd)).*1) by (rewrite Hkeys; left).
        destruct (wf_form_populate true (Some nd)) as [_ Hproto].
        rewrite Forall_forall in Hproto. apply (Hproto k Hin).
        rewrite Hp in Hin. apply populate_rows_from in Hin as [Hin|(r & Hr & Hfk)].
        -- apply elem_of_nil in Hin. contradiction.
        -- eapply Hall; eauto.
    + intros Hin. exfalso.
      apply populate_rows_from in Hin as [Hin|(r & _ & Hfk)].
      * apply elem_of_nil in Hin. contradiction.
      * exact (field_key_nonempty r Hfk).
Qed.

Lemma startEditing_fields_witness :
  (no_editable_attributes (form (startEditing (viewing two_rows TextEmpty))) = true
   <-> single_value two_rows = false
       /\ forall r k, r ∈ text_ two_rows -> field_key r = Some k -> k = proto_key)
  /\ ("" ∈ (form (startEditing (viewing two_rows TextEmpty))).*1 ->
      single_value two_rows = true
      /\ length (form (startEditing (viewing two_rows TextEmpty))) = 1).
Proof.
  apply (startEditing_fields (viewing two_rows TextEmpty) two_rows); reflexivity.
Defined.

(** *** Typing and leaving *)

Lemma typing_stores (edits : list (string * string)) :
  forall st : state,
    selectedNode (typing edits st) = selectedNode st
    /\ json_text (typing edits st) = json_text st
    /\ isEditing (typing edits st) = isEditing st
    /\ trace (typing edits st) = trace st.
Proof.
  induction edits as [|[k v] edits IH]; intros st; [repeat split|].
  change (typing ((k, v) :: edits) st) with (typing edits (handleChange k v st)).
  destruct (IH (handleChange k v st)) as (-> & -> & -> & ->). repeat split.
Qed.

Lemma typing_fields (edits : list (string * string)) :
  forall st : state,
    Forall (fun kv => kv.1 ∈ (form st).*1) edits ->
    selectedNode (typing edits st) = selectedNode st
    /\ json_text (typing edits st) = json_text st
    /\ isEditing (typing edits st) = isEditing st
    /\ trace (typing edits st) = trace st
    /\ (form (typing edits st)).*1 = (form st).*1.
Proof.
  induction edits as [|[k v] edits IH]; intros st Hin; [repeat split|].
  apply Forall_cons in Hin as [Hk Hin]. cbn [fst] in Hk.
  change (typing ((k, v) :: edits) st) with (typing edits (handleChange k v st)).
  assert (Hkeys : (form (handleChange k v st)).*1 = (form st).*1)
    by (apply aset_keys_same; exact Hk).
  destruct (IH (handleChange k v st)) as (-> & -> & -> & -> & ->).
  { rewrite Hkeys. exact Hin. }
  repeat split. exact Hkeys.
Qed.

(** X14: Edit, any changes typed, Cancel: the selected node and the
    document text are what they were, the form is empty, the modal is in
    view mode, and nothing but [setIsEditing] was called. *)
Theorem cancelEditing_discards (st : state) (edits : list (string * string)) :
  selectedNode (cancelEditing (typing edits (startEditing st))) = selectedNode st
  /\ json_text (cancelEditing (typing edits (startEditing st))) = json_text st
  /\ isEditing (cancelEditing (typing edits (startEditing st))) = false
  /\ form (cancelEditing (typing edits (startEditing st))) = []
  /\ forall e, e ∈ trace (cancelEditing (typing edits (startEditing st))) ->
               e ∈ trace st \/ exists b, e = SetIsEditing b.
Proof.
  destruct (typing_stores edits (startEditing st)) as (Hs & Ht & He & Htr).
  assert (Hstart : selectedNode (startEditing st) = selectedNode st
                   /\ json_text (startEditing st) = json_text st
                   /\ (trace (startEditing st) = trace st
                       \/ trace (startEditing st) = trace st ++ [SetIsEditing true])).
  { unfold startEditing. destruct (_ || _)%bool; cbn; auto. }
  destruct Hstart as (Hs0 & Ht0 & Htr0).
  unfold cancelEditing, effect. cbn [selectedNode json_text isEditing form trace populate negb].
  rewrite Hs, Ht, Htr, Hs0, Ht0.
  split; [reflexivity|]. split; [reflexivity|]. split; [reflexivity|].
  split; [destruct (selectedNode st); reflexivity|].
  intros e He'. apply elem_of_app in He' as [He'|He'].
  - destruct Htr0 as [E|E]; rewrite E in He'; [left; exact He'|].
    apply elem_of_app in He' as [He'|He']; [left; exact He'|].
    apply list_elem_of_singleton in He'. right. eauto.
  - apply list_elem_of_singleton in He'. right. eauto.
Qed.

(** ** Saving a form *)

(** *** The replacement *)

Lemma fill_form (l : loc) (f : record) :
  forall (h : heap) (ps : props),
    NoDup (ps.*1 ++ f.*1) ->
    Forall (fun k => k <> proto_key) f.*1 ->
    h !! l = Some (Obj ps) ->
    fill (VObject l) f h
    = (Ok tt, <[l:=Obj (ps ++ map (fun kv => (kv.1, VPrim (parsePrimitive kv.2))) f)]> h).
Proof.
  induction f as [|[k v] f IH]; intros h ps Hdup Hproto Hl; cbn [fill map].
  - rewrite app_nil_r, list_insert_id by exact Hl. reflexivity.
  - cbn [fmap list_fmap fst] in Hdup, Hproto.
    apply Forall_cons in Hproto as [Hk Hproto].
    assert (Hfresh : k ∉ ps.*1).
    { apply NoDup_app in Hdup as (_ & Hd & _). intros Hin. apply (Hd _ Hin). left. }
    assert (Hlt : l < length h) by (eapply lookup_lt_Some; eauto).
    assert (Hset : set_prop (VObject l) k (VPrim (parsePrimitive v)) h
                   = (Ok tt, <[l:=Obj (ps ++ [(k, VPrim (parsePrimitive v))])]> h)).
    { unfold set_prop. rewrite Hl. unfold named_set.
      destruct (String.eqb_spec k proto_key); [contradiction|]. cbn [andb].
      destruct (aset_fresh k (VPrim (parsePrimitive v)) ps Hfresh) as [-> _]. reflexivity. }
    rewrite (bind_Ok _ _ _ _ _ Hset).
    rewrite (IH _ (ps ++ [(k, VPrim (parsePrimitive v))])).
    + rewrite list_insert_insert_eq, <- app_assoc. reflexivity.
    + rewrite fmap_app. cbn [fmap list_fmap fst]. rewrite <- app_assoc. exact Hdup.
    + exact Hproto.
    + apply list_lookup_insert_eq. exact Hlt.
Qed.

Lemma fill_total (l : loc) (f : record) :
  forall (h : heap) (ps : props),
    Forall (fun k => k <> proto_key) f.*1 ->
    h !! l = Some (Obj ps) ->
    exists ps', fill (VObject l) f h = (Ok tt, <[l:=Obj ps']> h).
Proof.
  induction f as [|[k v] f IH]; intros h ps Hproto Hl; cbn [fill].
  - exists ps. rewrite list_insert_id by exact Hl. reflexivity.
  - cbn [fmap list_fmap fst] in Hproto. apply Forall_cons in Hproto as [Hk Hproto].
    assert (Hlt : l < length h) by (eapply lookup_lt_Some; eauto).
    assert (Hset : set_prop (VObject l) k (VPrim (parsePrimitive v)) h
                   = (Ok tt, <[l:=Obj (aset k (VPrim (parsePrimitive v)) ps)]> h)).
    { unfold set_prop. rewrite Hl. unfold named_set.
      destruct (String.eqb_spec k proto_key); [contradiction | reflexivity]. }
    rewrite (bind_Ok _ _ _ _ _ Hset).
    destruct (IH (<[l:=Obj (aset k (VPrim (parsePrimitive v)) ps)]> h) _ Hproto
                (list_lookup_insert_eq _ _ _ Hlt)) as (ps' & ->).
    exists ps'. rewrite list_insert_insert_eq. reflexivity.
Qed.

Lemma coerce_json_ser (v : string) : ser_prim (parsePrimitive v) = Some (coerce_json v).
Proof.
  unfold coerce_json. destruct (parsePrimitive_defined v) as (j & ->). reflexivity.
Qed.

Lemma form_denotes (h : heap) (f : record) :
  (map (fun kv => (kv.1, VPrim (parsePrimitive kv.2))) f).*1
  = (map (fun kv => (kv.1, coerce_json kv.2)) f).*1
  /\ denotes_list h (map (fun kv => (kv.1, VPrim (parsePrimitive kv.2))) f).*2
       (map (fun kv => (kv.1, coerce_json kv.2)) f).*2 ∅.
Proof.
  induction f as [|[k v] f [IHk IHd]]; cbn [map fmap list_fmap fst snd].
  - split; [reflexivity | constructor].
  - split; [f_equal; exact IHk|].
    replace (∅ : gset loc) with ((∅ : gset loc) ∪ ∅) by set_solver.
    constructor; [constructor; apply coerce_json_ser | exact IHd | set_solver].
Qed.

(** The replacement built from a form without [__proto__] is a tree for
    [replacement_json]. *)
Lemma form_replacement (nd : NodeData) (f : record) (h : heap) :
  NoDup f.*1 ->
  Forall (fun k => k <> proto_key) f.*1 ->
  exists (repl : value) (hj : heap) (fpr : gset loc),
    build_replacement nd f (text_ (updated_node f nd)) h = (Ok repl, h ++ hj)
    /\ denotes (h ++ hj) repl (replacement_json nd f) fpr
    /\ forall l, l ∈ fpr -> length h <= l.
Proof.
  intros Hdup Hproto.
  assert (Hobj :
    (match text_ nd with [r] => bool_decide (key r = None) | _ => false end) = false ->
    replacement_json nd f = JObject (map (fun kv => (kv.1, coerce_json kv.2)) f) ->
    exists repl hj fpr,
      build_replacement nd f (text_ (updated_node f nd)) h = (Ok repl, h ++ hj)
      /\ denotes (h ++ hj) repl (replacement_json nd f) fpr
      /\ forall l, l ∈ fpr -> length h <= l).
  { intros Hscalar ->.
    pose (ps := map (fun kv : string * string => (kv.1, VPrim (parsePrimitive kv.2))) f).
    destruct (form_denotes (h ++ [Obj ps]) f) as [Hk Hd].
    exists (VObject (length h)), [Obj ps], ({[length h]} ∪ ∅).
    split; [|split].
    - unfold build_replacement. rewrite Hscalar.
      rewrite (bind_Ok _ _ h (h ++ [Obj []]) (VObject (length h)) eq_refl).
      rewrite (bind_Ok _ _ _ _ _
                 (fill_form (length h) f (h ++ [Obj []]) [] Hdup Hproto
                    (list_lookup_middle h [] (Obj []) _ eq_refl))).
      unfold ret. rewrite insert_app_r_alt by lia. rewrite Nat.sub_diag. reflexivity.
    - econstructor; [apply list_lookup_middle; reflexivity | exact Hk | exact Hd | set_solver].
    - intros l Hl. assert (l = length h) by set_solver. lia. }
  destruct (text_ nd) as [|r [|r2 rows]] eqn:Hrows.
  - apply Hobj; [reflexivity|]. unfold replacement_json. rewrite Hrows. reflexivity.
  - destruct r as [[k|] v ty].
    + apply Hobj; [reflexivity|]. unfold replacement_json. rewrite Hrows. reflexivity.
    + exists (VPrim (parsePrimitive (default (display v) (alookup "" f)))), [], ∅.
      rewrite app_nil_r. split; [|split; [|set_solver]].
      * unfold build_replacement, updated_node. rewrite Hrows. cbn [key text_ map head].
        replace (bool_decide (None = None :> option string)) with true
          by (symmetry; apply bool_decide_eq_true; reflexivity).
        unfold new_row, hasOwnProperty. cbn [key].
        destruct (alookup "" f) as [s|] eqn:Hs; [reflexivity|].
        replace (bool_decide (is_Some (None : option string))) with false
          by (symmetry; apply bool_decide_eq_false; intros [? ?]; discriminate).
        reflexivity.
      * unfold replacement_json. rewrite Hrows. constructor. apply coerce_json_ser.
  - apply Hobj; [reflexivity|]. unfold replacement_json. rewrite Hrows.
    destruct r as [[k|] v ty]; reflexivity.
Qed.

Lemma build_replacement_total (nd : NodeData) (f : record) (rows : list NodeRow) (h : heap) :
  Forall (fun k => k <> proto_key) f.*1 ->
  exists (repl : value) (hj : heap), build_replacement nd f rows h = (Ok repl, h ++ hj).
Proof.
  intros Hproto. unfold build_replacement.
  destruct (match text_ nd with [r] => _ | _ => false end).
  - eexists _, []. rewrite app_nil_r. reflexivity.
  - rewrite (bind_Ok _ _ h (h ++ [Obj []]) (VObject (length h)) eq_refl).
    destruct (fill_total (length h) f (h ++ [Obj []]) [] Hproto
                (list_lookup_middle h [] (Obj []) _ eq_refl)) as (ps' & Hfill).
    rewrite (bind_Ok _ _ _ _ _ Hfill). unfold ret.
    exists (VObject (length h)), [Obj ps'].
    rewrite insert_app_r_alt by lia. rewrite Nat.sub_diag. reflexivity.
Qed.

Lemma replacement_json_keyed (nd : NodeData) (f : record) :
  (forall r, text_ nd = [r] -> key r <> None) ->
  replacement_json nd f = JObject (map (fun kv => (kv.1, coerce_json kv.2)) f).
Proof.
  intros Hkeyed. unfold replacement_json.
  destruct (text_ nd) as [|r [|r2 rows]]; [reflexivity | | destruct r as [[k|] v ty]; reflexivity].
  specialize (Hkeyed r eq_refl). destruct r as [[k|] v ty]; [reflexivity|].
  contradiction.
Qed.

Lemma normalize_coerce_json (v : string) : normalize (coerce_json v) = coerce_json v.
Proof.
  unfold coerce_json. destruct (parsePrimitive v) as [ | | b | n | s]; try reflexivity.
  apply ser_number_idem.
Qed.

Lemma normalize_replacement_json (nd : NodeData) (f : record) :
  normalize (replacement_json nd f) = replacement_json nd f.
Proof.
  assert (Hobj : normalize (JObject (map (fun kv => (kv.1, coerce_json kv.2)) f))
                 = JObject (map (fun kv => (kv.1, coerce_json kv.2)) f)).
  { cbn [normalize]. f_equal. rewrite map_map. apply map_ext. intros [k v]. cbn.
    rewrite normalize_coerce_json. reflexivity. }
  unfold replacement_json. destruct (text_ nd) as [|r [|r2 rows]]; [exact Hobj | |].
  - destruct r as [[k|] v ty]; [exact Hobj | apply normalize_coerce_json].
  - destruct r as [[k|] v ty]; exact Hobj.
Qed.

(** *** On a path that exists *)

(** A save with a replacement that is a tree of its own, on a path that
    exists in the document. *)
Lemma persist_installs (nd : NodeData) (j old jr : json) (f : record) (rows' : list NodeRow) :
  lookup_json (normalize j) (path_segments (path nd)) = Some old ->
  (forall h, exists (repl : value) (hj : heap) (fpr : gset loc),
     build_replacement nd f rows' h = (Ok repl, h ++ hj)
     /\ denotes (h ++ hj) repl jr fpr
     /\ forall l, l ∈ fpr -> length h <= l) ->
  exists (j' : json) (h' : heap),
    persist (TextJson j) nd f rows' [] = (Ok (TextJson j'), h')
    /\ update_json (normalize j) (path_segments (path nd)) jr = Some j'.
Proof.
  intros Hlook Hbuild.
  destruct (alloc_fresh_tree j []) as (root & h0 & Hroot & hj0 & fp0 & -> & Hden0 & _).
  cbn [app] in *.
  destruct (Hbuild hj0) as (repl & hj & fpr & Hrepl & Hdenr & Hfpr).
  destruct (alloc_fresh_tree (normalize j) (hj0 ++ hj))
    as (newRoot & h2 & Hclone & hj2 & fp2 & -> & Hden2 & Hfp2).
  rewrite normalize_idem in Hden2.
  assert (Hstr0 := denotes_stringify _ _ _ _ (denotes_extend _ hj _ _ _ Hden0)).
  assert (Hdenr2 := denotes_extend _ hj2 _ _ _ Hdenr).
  assert (Hstart :
             persist (TextJson j) nd f rows' []
             = (let* final := setValueAtPath newRoot (path nd) repl in
                let toSave := if nonempty_path (path nd) then final else repl in
                let* out := stringify toSave in
                match out with Some t => ret t | None => unmodelled end)
                 ((hj0 ++ hj) ++ hj2)).
  { unfold persist. cbn [load_root parse]. rewrite (bind_Ok _ _ _ _ _ Hroot).
    unfold persist_from. rewrite (bind_Ok _ _ _ _ _ Hrepl), (bind_Ok _ _ _ _ _ Hstr0).
    cbn [parse_opt parse]. rewrite (bind_Ok _ _ _ _ _ Hclone). reflexivity. }
  rewrite Hstart. clear Hstart.
  destruct (path nd) as [[|seg rest]|] eqn:Hpath; cbn [path_segments default] in Hlook |- *.
  - exists jr, ((hj0 ++ hj) ++ hj2).
    rewrite (bind_Ok _ _ _ _ _ (setValueAtPath_no_path _ _ (Some []) _ eq_refl)).
    cbn [nonempty_path]. rewrite (bind_Ok _ _ _ _ _ (denotes_stringify _ _ _ _ Hdenr2)).
    split; reflexivity.
  - destruct (update_json_total (seg :: rest) _ _ jr Hlook) as (j' & Hupd).
    destruct (walk_existing (seg :: rest) newRoot (normalize j) fp2 ((hj0 ++ hj) ++ hj2)
                repl jr fpr j' ltac:(discriminate) Hden2 Hdenr2)
      as (h3 & fp3 & Hwalk & Hden3 & _ & _).
    { intros l Hl2 Hlr. apply Hfp2 in Hl2.
      eapply denotes_dom in Hlr; [|exact Hdenr]. lia. }
    { exact Hupd. }
    exists j', h3.
    assert (Hset : setValueAtPath newRoot (Some (seg :: rest)) repl ((hj0 ++ hj) ++ hj2)
                   = (Ok newRoot, h3)).
    { unfold setValueAtPath. rewrite (bind_Ok _ _ _ _ _ Hwalk). reflexivity. }
    rewrite (bind_Ok _ _ _ _ _ Hset). cbn [nonempty_path].
    rewrite (bind_Ok _ _ _ _ _ (denotes_stringify _ _ _ _ Hden3)).
    split; [reflexivity | exact Hupd].
  - exists jr, ((hj0 ++ hj) ++ hj2).
    rewrite (bind_Ok _ _ _ _ _ (setValueAtPath_no_path _ _ None _ eq_refl)).
    cbn [nonempty_path]. rewrite (bind_Ok _ _ _ _ _ (denotes_stringify _ _ _ _ Hdenr2)).
    split; reflexivity.
Qed.

Lemma save_installs (st : state) (nd : NodeData) (j old : json) :
  selectedNode st = Some nd ->
  json_text st = TextJson j ->
  NoDup (form st).*1 ->
  Forall (fun k => k <> proto_key) (form st).*1 ->
  lookup_json (normalize j) (path_segments (path nd)) = Some old ->
  exists j' : json,
    save st
    = Some {| selectedNode := Some (updated_node (form st) nd);
              json_text := TextJson j';
              isEditing := false;
              form := [];
              trace := trace st ++ [UpdateSelectedNode (updated_node (form st) nd); GetJson;
                                    SetJson (TextJson j'); SetIsEditing false] |}
    /\ update_json (normalize j) (path_segments (path nd)) (replacement_json nd (form st))
       = Some j'.
Proof.
  intros Hsel Htext Hdup Hproto Hlook.
  destruct (persist_installs nd j old (replacement_json nd (form st)) (form st)
              (text_ (updated_node (form st) nd)) Hlook
              (fun h => form_replacement nd (form st) h Hdup Hproto))
    as (j' & h' & Hpersist & Hupd).
  exists j'. split; [|exact Hupd].
  unfold save, handleSave. rewrite Hsel, Htext, Hpersist. cbn. unfold effect. cbn.
  rewrite <- app_assoc. reflexivity.
Qed.

(** X15: a save on a path that exists in the document, with a form
    without [__proto__] (and, as any object, with no key twice),
    succeeds: the text stored is the document as
    [JSON.stringify] writes it (a negative zero as [0], a number that is
    not finite as [null]) with the value at the path replaced by the
    replacement (the coerced single value, or the object of the coerced
    fields of the form).  Off the path the text stored is the document so
    written: the document as it was, when it has no such number. *)
Theorem save_installs_form (st : state) (nd : NodeData) (j old : json) :
  selectedNode st = Some nd ->
  json_text st = TextJson j ->
  NoDup (form st).*1 ->
  Forall (fun k => k <> proto_key) (form st).*1 ->
  lookup_json (normalize j) (path_segments (path nd)) = Some old ->
  exists (st' : state) (j' : json),
    save st = Some st'
    /\ json_text st' = TextJson j'
    /\ update_json (normalize j) (path_segments (path nd)) (replacement_json nd (form st))
       = Some j'
    /\ lookup_json j' (path_segments (path nd)) = Some (replacement_json nd (form st))
    /\ (forall q, diverge (path_segments (path nd)) q ->
                  lookup_json j' q = lookup_json (normalize j) q)
    /\ (exact_numbers j = true ->
        forall q, diverge (path_segments (path nd)) q -> lookup_json j' q = lookup_json j q).
Proof.
  intros Hsel Htext Hdup Hproto Hlook.
  destruct (save_installs st nd j old Hsel Htext Hdup Hproto Hlook) as (j' & Hsave & Hupd).
  eexists _, j'. split; [exact Hsave|]. split; [reflexivity|]. split; [exact Hupd|].
  split; [eapply lookup_update_same; eauto|]. split.
  - intros q Hq. eapply lookup_update_other; eauto.
  - intros Hexact q Hq. apply normalize_exact in Hexact.
    rewrite <- Hexact at 1. eapply lookup_update_other; eauto.
Qed.

Lemma save_installs_form_witness :
  exists (st' : state) (j' : json),
    save (handleChange "age" "43" (startEditing (viewing user_age (TextJson user_doc))))
      = Some st'
    /\ json_text st' = TextJson j'
    /\ update_json (normalize user_doc) [SegStr "user"]
         (JObject [("age", JNumber (of_N 43))]) = Some j'
    /\ lookup_json j' [SegStr "user"] = Some (JObject [("age", JNumber (of_N 43))])
    /\ (forall q, diverge [SegStr "user"] q ->
                  lookup_json j' q = lookup_json (normalize user_doc) q)
    /\ (exact_numbers user_doc = true ->
        forall q, diverge [SegStr "user"] q -> lookup_json j' q = lookup_json user_doc q).
Proof.
  apply (save_installs_form
           (handleChange "age" "43" (startEditing (viewing user_age (TextJson user_doc))))
           user_age user_doc (JObject [("age", JString "42")])).
  - reflexivity.
  - reflexivity.
  - cbn. apply NoDup_singleton.
  - cbn. repeat constructor. discriminate.
  - reflexivity.
Defined.

(** X16: a change and a save.  For a node that is no keyless single
    value, on a path that exists in the document, the save after
    [handleChange k v] stores the coercion of [v] under [k] at the path,
    and under every other key the coercion of the text the form held. *)
Theorem handleChange_then_save (st : state) (nd : NodeData) (j old : json) (k v : string) :
  selectedNode st = Some nd ->
  json_text st = TextJson j ->
  NoDup (form st).*1 ->
  Forall (fun k => k <> proto_key) (form st).*1 ->
  k <> proto_key ->
  (forall r, text_ nd = [r] -> key r <> None) ->
  lookup_json (normalize j) (path_segments (path nd)) = Some old ->
  exists (st' : state) (j' : json),
    save (handleChange k v st) = Some st'
    /\ json_text st' = TextJson j'
    /\ lookup_json j' (path_segments (path nd) ++ [SegStr k]) = Some (coerce_json v)
    /\ forall k', k' <> k ->
         lookup_json j' (path_segments (path nd) ++ [SegStr k'])
         = coerce_json <$> alookup k' (form st).
Proof.
  intros Hsel Htext Hdup Hproto Hk Hkeyed Hlook.
  destruct (wf_form_aset k v (form st) Hk (conj Hdup Hproto)) as [Hdup' Hproto'].
  destruct (save_installs (handleChange k v st) nd j old Hsel Htext Hdup' Hproto' Hlook)
    as (j' & Hsave & Hupd).
  eexists _, j'. split; [exact Hsave|]. split; [reflexivity|].
  apply lookup_update_same in Hupd.
  rewrite replacement_json_keyed in Hupd by exact Hkeyed. cbn [handleChange form] in Hupd.
  assert (Hfield : forall k', lookup_json j' (path_segments (path nd) ++ [SegStr k'])
                              = coerce_json <$> alookup k' (aset k v (form st))).
  { intros k'. rewrite lookup_json_app, Hupd. cbn [mbind option_bind lookup_json child].
    rewrite alookup_fmap. destruct (alookup k' _); reflexivity. }
  split.
  - rewrite Hfield, alookup_aset, String.eqb_refl. reflexivity.
  - intros k' Hne. rewrite Hfield, alookup_aset.
    destruct (String.eqb_spec k' k); [contradiction | reflexivity].
Qed.

Lemma handleChange_then_save_witness :
  exists (st' : state) (j' : json),
    save (handleChange "age" "43" (startEditing (viewing user_age (TextJson user_doc))))
      = Some st'
    /\ json_text st' = TextJson j'
    /\ lookup_json j' ([SegStr "user"] ++ [SegStr "age"]) = Some (coerce_json "43")
    /\ forall k', k' <> "age" ->
         lookup_json j' ([SegStr "user"] ++ [SegStr k'])
         = coerce_json <$> alookup k' [("age", "42")].
Proof.
  apply (handleChange_then_save (startEditing (viewing user_age (TextJson user_doc)))
           user_age user_doc (JObject [("age", JString "42")]) "age" "43").
  - reflexivity.
  - reflexivity.
  - cbn. apply NoDup_singleton.
  - cbn. repeat constructor. discriminate.
  - discriminate.
  - intros r E. injection E as <-. discriminate.
  - reflexivity.
Defined.

(** X17: a whole session on a selected node whose path exists in the
    document: Edit, changes typed into the fields shown, Save.  The save
    succeeds without an error being logged, the stores are called in the
    order selection, [getJson], [setJson], and the document then holds
    the replacement at the path. *)
Theorem edit_session_saves (st : state) (nd : NodeData) (j old : json)
    (edits : list (string * string)) :
  selectedNode st = Some nd ->
  isEditing st = false ->
  json_text st = TextJson j ->
  lookup_json (normalize j) (path_segments (path nd)) = Some old ->
  Forall (fun kv => kv.1 ∈ (populate true (Some nd)).*1) edits ->
  exists (st' : state) (j' : json),
    save (typing edits (startEditing st)) = Some st'
    /\ json_text st' = TextJson j'
    /\ isEditing st' = false
    /\ trace st'
       = trace st ++ [SetIsEditing true;
                      UpdateSelectedNode
                        (updated_node (form (typing edits (startEditing st))) nd);
                      GetJson; SetJson (TextJson j'); SetIsEditing false]
    /\ lookup_json j' (path_segments (path nd))
       = Some (replacement_json nd (form (typing edits (startEditing st)))).
Proof.
  intros Hsel Hview Htext Hlook Hedits.
  assert (Hstart : startEditing st
                   = {| selectedNode := Some nd; json_text := TextJson j; isEditing := true;
                        form := populate true (Some nd);
                        trace := trace st ++ [SetIsEditing true] |}).
  { unfold startEditing, effect. rewrite Hsel, Hview, Htext. reflexivity. }
  assert (Hsel1 : selectedNode (startEditing st) = Some nd) by (rewrite Hstart; reflexivity).
  assert (Htext1 : json_text (startEditing st) = TextJson j) by (rewrite Hstart; reflexivity).
  assert (Hform1 : form (startEditing st) = populate true (Some nd))
    by (rewrite Hstart; reflexivity).
  assert (Htrace1 : trace (startEditing st) = trace st ++ [SetIsEditing true])
    by (rewrite Hstart; reflexivity).
  clear Hstart.
  destruct (typing_fields edits (startEditing st)) as (Hs & Ht & He & Htr & Hk).
  { rewrite Hform1. exact Hedits. }
  rewrite Hsel1 in Hs. rewrite Htext1 in Ht. rewrite Htrace1 in Htr. rewrite Hform1 in Hk.
  destruct (save_installs (typing edits (startEditing st)) nd j old Hs Ht)
    as (j' & Hsave & Hupd).
  { rewrite Hk. apply wf_form_populate. }
  { rewrite Hk. apply wf_form_populate. }
  { exact Hlook. }
  eexists _, j'. split; [exact Hsave|]. split; [reflexivity|]. split; [reflexivity|].
  split; [cbn [trace]; rewrite Htr, <- app_assoc; reflexivity|].
  eapply lookup_update_same; eauto.
Qed.

Lemma edit_session_saves_witness :
  exists (st' : state) (j' : json),
    save (typing [("age", "4"); ("age", "43")]
            (startEditing (viewing user_age (TextJson user_doc)))) = Some st'
    /\ json_text st' = TextJson j'
    /\ isEditing st' = false
    /\ trace st'
       = [] ++ [SetIsEditing true;
                UpdateSelectedNode
                  (updated_node
                     (form (typing [("age", "4"); ("age", "43")]
                              (startEditing (viewing user_age (TextJson user_doc)))))
                     user_age);
                GetJson; SetJson (TextJson j'); SetIsEditing false]
    /\ lookup_json j' [SegStr "user"]
       = Some (replacement_json user_age
                 (form (typing [("age", "4"); ("age", "43")]
                          (startEditing (viewing user_age (TextJson user_doc)))))).
Proof.
  apply (edit_session_saves (viewing user_age (TextJson user_doc)) user_age user_doc
           (JObject [("age", JString "42")]) [("age", "4"); ("age", "43")]).
  - reflexivity.
  - reflexivity.
  - reflexivity.
  - reflexivity.
  - repeat constructor.
Defined.

(** *** Saving again *)

Lemma new_row_key_type (f : record) (r : NodeRow) :
  key (new_row f r) = key r /\ type (new_row f r) = type r.
Proof.
  unfold new_row. destruct (key r) as [k|] eqn:Hk.
  - destruct (_ && _)%bool; cbn; rewrite ?Hk; split; reflexivity.
  - destruct (hasOwnProperty f ""); cbn; rewrite ?Hk; split; reflexivity.
Qed.

Lemma new_row_idem (f : record) (r : NodeRow) : new_row f (new_row f r) = new_row f r.
Proof.
  destruct r as [[k|] v ty]; unfold new_row, scalar_row; cbn [key type value_].
  - destruct (_ && _)%bool eqn:Hc; cbn [key type value_]; rewrite Hc; reflexivity.
  - destruct (hasOwnProperty f "") eqn:Hc; cbn [key type value_]; rewrite ?Hc; reflexivity.
Qed.

Lemma field_key_new_row (f : record) (r : NodeRow) : field_key (new_row f r) = field_key r.
Proof.
  unfold field_key, scalar_row. destruct (new_row_key_type f r) as [-> ->]. reflexivity.
Qed.

Lemma new_row_value (f : record) (r : NodeRow) (k x : string) :
  field_key r = Some k -> alookup k f = Some x -> value_ (new_row f r) = PString x.
Proof.
  unfold field_key, new_row, hasOwnProperty. intros Hfk Hx.
  destruct (scalar_row r && negb (falsy_key (key r)))%bool; [|discriminate].
  rewrite Hfk, Hx. cbn [andb].
  replace (bool_decide (is_Some (Some x))) with true
    by (symmetry; apply bool_decide_eq_true; eauto).
  reflexivity.
Qed.

(** The form populated from the rows a save wrote is the form that was
    saved, when that form has a field for each row shown. *)
Lemma repopulate (f : record) (rows : list NodeRow) :
  forall acc acc' : record,
    Forall (fun r => forall k, field_key r = Some k -> k <> proto_key -> k ∈ f.*1) rows ->
    acc'.*1 = acc.*1 ->
    wf_form acc ->
    (forall k, k ∈ acc.*1 -> alookup k acc' = alookup k f) ->
    (fold_left populate_row (map (new_row f) rows) acc').*1
    = (fold_left populate_row rows acc).*1
    /\ forall k, k ∈ (fold_left populate_row rows acc).*1 ->
         alookup k (fold_left populate_row (map (new_row f) rows) acc') = alookup k f.
Proof.
  induction rows as [|r rows IH]; intros acc acc' Hrows Hkeys Hwf Hlook;
    [split; assumption|].
  apply Forall_cons in Hrows as [Hr Hrows]. cbn [map fold_left].
  assert (Hwf' : wf_form acc') by (unfold wf_form; rewrite Hkeys; exact Hwf).
  rewrite (populate_row_field acc r), (populate_row_field acc' (new_row f r)), field_key_new_row.
  destruct (field_key r) as [k|] eqn:Hfk; [|apply IH; assumption].
  destruct (decide (k = proto_key)) as [->|Hk].
  - rewrite !record_set_proto by assumption. apply IH; assumption.
  - destruct (key_alookup k f (Hr k eq_refl Hk)) as (x & Hx).
    rewrite (new_row_value f r k x Hfk Hx), !record_set_plain by exact Hk.
    cbn [display String_]. apply IH.
    + exact Hrows.
    + apply aset_keys_eq. exact Hkeys.
    + apply wf_form_aset; assumption.
    + intros k0 Hin. rewrite alookup_aset.
      destruct (String.eqb_spec k0 k) as [->|Hne]; [congruence|].
      apply Hlook. apply aset_keys in Hin as [?|Hin]; [contradiction | exact Hin].
Qed.

(** The form a second Edit shows after a save. *)
Lemma populate_after_save (nd : NodeData) (f : record) :
  (forall r, text_ nd = [r] -> key r <> Some "") ->
  f.*1 = (populate true (Some nd)).*1 ->
  populate true (Some (updated_node f nd)) = f.
Proof.
  intros Hempty Hkeys.
  assert (Hmany :
    populate true (Some nd) = fold_left populate_row (text_ nd) [] ->
    populate true (Some (updated_node f nd))
    = fold_left populate_row (map (new_row f) (text_ nd)) [] ->
    populate true (Some (updated_node f nd)) = f).
  { intros Hp Hp'. rewrite Hp in Hkeys.
    destruct (repopulate f (text_ nd) [] []) as [Hk Hl].
    - apply Forall_forall. intros r Hin k Hfk Hne. rewrite Hkeys.
      eapply populate_rows_field; eauto.
    - reflexivity.
    - split; constructor.
    - intros k Hin. apply elem_of_nil in Hin. contradiction.
    - rewrite Hp'. apply assoc_ext.
      + rewrite Hk, Hkeys. reflexivity.
      + rewrite Hk, <- Hp. apply wf_form_populate.
      + intros k Hin. apply Hl. rewrite <- Hk. exact Hin. }
  destruct (text_ nd) as [|r [|r2 rows]] eqn:Hrows.
  - apply Hmany; unfold populate, updated_node; cbn [text_ negb]; rewrite ?Hrows; reflexivity.
  - destruct (new_row_key_type f r) as [Hkey _].
    destruct (falsy_key (key r)) eqn:Hfalsy.
    + destruct r as [[k|] v ty]; cbn [key falsy_key] in *.
      * apply String.eqb_eq in Hfalsy as ->. destruct (Hempty _ eq_refl). reflexivity.
      * unfold populate in Hkeys. cbn [negb] in Hkeys. rewrite Hrows in Hkeys.
        cbn in Hkeys. destruct f as [|[k x] [|? ?]]; try discriminate.
        cbn in Hkeys. injection Hkeys as ->.
        unfold populate, updated_node. cbn [text_ negb]. rewrite Hrows. reflexivity.
    + apply Hmany; unfold populate, updated_node; cbn [text_ negb]; rewrite ?Hrows;
        cbn [map]; rewrite ?Hkey, Hfalsy; reflexivity.
  - apply Hmany; unfold populate, updated_node; cbn [text_ negb]; rewrite ?Hrows; reflexivity.
Qed.

Lemma replacement_json_updated (nd : NodeData) (f : record) :
  replacement_json (updated_node f nd) f = replacement_json nd f.
Proof.
  unfold replacement_json, updated_node. cbn [text_].
  destruct (text_ nd) as [|r [|r2 rows]]; [reflexivity | |].
  - cbn [map]. destruct r as [[k|] v ty]; unfold new_row, hasOwnProperty; cbn [key].
    + destruct (_ && _)%bool; reflexivity.
    + destruct (alookup "" f) as [s|] eqn:Hs.
      * replace (bool_decide (is_Some (Some s))) with true
          by (symmetry; apply bool_decide_eq_true; eauto).
        reflexivity.
      * replace (bool_decide (is_Some (None : option string))) with false
          by (symmetry; apply bool_decide_eq_false; intros [? ?]; discriminate).
        reflexivity.
  - cbn [map]. destruct (new_row f r) as [[k|] v ty]; destruct r as [[k'|] v' ty'];
      reflexivity.
Qed.

(** X18: saving again changes nothing.  After a whole session (Edit,
    changes typed into the shown fields, Save) on a selected node whose
    path exists in a valid document, Edit followed by Save with nothing
    typed leaves the document text and the selected node as the first
    save left them, when the node is no lone row under the empty key. *)
Theorem save_again_changes_nothing (st : state) (nd : NodeData) (j old : json)
    (edits : list (string * string)) :
  selectedNode st = Some nd ->
  isEditing st = false ->
  json_text st = TextJson j ->
  lookup_json (normalize j) (path_segments (path nd)) = Some old ->
  (forall r, text_ nd = [r] -> key r <> Some "") ->
  Forall (fun kv => kv.1 ∈ (populate true (Some nd)).*1) edits ->
  exists st1 st2 : state,
    save (typing edits (startEditing st)) = Some st1
    /\ save (startEditing st1) = Some st2
    /\ json_text st2 = json_text st1
    /\ selectedNode st2 = selectedNode st1.
Proof.
  intros Hsel Hview Htext Hlook Hempty Hedits.
  assert (Hstart : startEditing st
                   = {| selectedNode := Some nd; json_text := TextJson j; isEditing := true;
                        form := populate true (Some nd);
                        trace := trace st ++ [SetIsEditing true] |}).
  { unfold startEditing, effect. rewrite Hsel, Hview, Htext. reflexivity. }
  assert (Hsel1 : selectedNode (startEditing st) = Some nd) by (rewrite Hstart; reflexivity).
  assert (Htext1 : json_text (startEditing st) = TextJson j) by (rewrite Hstart; reflexivity).
  assert (Hform1 : form (startEditing st) = populate true (Some nd))
    by (rewrite Hstart; reflexivity).
  clear Hstart.
  destruct (typing_fields edits (startEditing st)) as (Hs & Ht & _ & _ & Hk).
  { rewrite Hform1. exact Hedits. }
  rewrite Hsel1 in Hs. rewrite Htext1 in Ht. rewrite Hform1 in Hk.
  set (f := form (typing edits (startEditing st))) in *.
  destruct (wf_form_populate true (Some nd)) as [Hdup Hproto]. rewrite <- Hk in Hdup, Hproto.
  destruct (save_installs (typing edits (startEditing st)) nd j old Hs Ht Hdup Hproto Hlook)
    as (j1 & Hsave1 & Hupd1).
  fold f in Hsave1, Hupd1.
  set (st1 := {| selectedNode := Some (updated_node f nd); json_text := TextJson j1;
                 isEditing := false; form := [];
                 trace := trace (typing edits (startEditing st))
                            ++ [UpdateSelectedNode (updated_node f nd); GetJson;
                                SetJson (TextJson j1); SetIsEditing false] |}) in *.
  assert (Hj1 : normalize j1 = j1).
  { eapply normalize_update; [exact Hupd1 | apply normalize_idem|].
    apply normalize_replacement_json. }
  assert (Hlook1 : lookup_json (normalize j1) (path_segments (path (updated_node f nd)))
                   = Some (replacement_json nd f)).
  { rewrite Hj1. cbn [updated_node path]. eapply lookup_update_same. exact Hupd1. }
  assert (Hform2 : form (startEditing st1) = f).
  { unfold startEditing, effect. cbn. apply (populate_after_save nd f Hempty Hk). }
  assert (Hsel2 : selectedNode (startEditing st1) = Some (updated_node f nd)) by reflexivity.
  assert (Htext2 : json_text (startEditing st1) = TextJson j1) by reflexivity.
  destruct (save_installs (startEditing st1) (updated_node f nd) j1 (replacement_json nd f)
              Hsel2 Htext2)
    as (j2 & Hsave2 & Hupd2); [rewrite Hform2; exact Hdup | rewrite Hform2; exact Hproto
                              | exact Hlook1 |].
  rewrite Hform2, replacement_json_updated, Hj1 in Hupd2. cbn [updated_node path] in Hupd2.
  rewrite Hj1 in Hlook1. cbn [updated_node path] in Hlook1.
  rewrite (update_json_same _ _ _ Hlook1) in Hupd2. injection Hupd2 as <-.
  rewrite Hform2 in Hsave2.
  eexists st1, _. split; [exact Hsave1|]. split; [exact Hsave2|].
  split; [reflexivity|]. unfold st1. cbn [selectedNode]. f_equal.
  unfold updated_node. cbn [text_ path]. f_equal. rewrite map_map. apply map_ext.
  intros r. apply new_row_idem.
Qed.

Lemma save_again_changes_nothing_witness :
  exists st1 st2 : state,
    save (typing [("age", "43")] (startEditing (viewing user_age (TextJson user_doc))))
      = Some st1
    /\ save (startEditing st1) = Some st2
    /\ json_text st2 = json_text st1
    /\ selectedNode st2 = selectedNode st1.
Proof.
  apply (save_again_changes_nothing (viewing user_age (TextJson user_doc)) user_age user_doc
           (JObject [("age", JString "42")]) [("age", "43")]).
  - reflexivity.
  - reflexivity.
  - reflexivity.
  - reflexivity.
  - intros r E. injection E as <-. discriminate.
  - repeat constructor.
Defined.

(** *** What every save does *)

Lemma bind_Ok_inv {A B} (m : M A) (k : A -> M B) (h h' : heap) (b : B) :
  bind m k h = (Ok b, h') -> exists a h1, m h = (Ok a, h1) /\ k a h1 = (Ok b, h').
Proof.
  unfold bind. destruct (m h) as [[a| |] h1]; [eauto | discriminate | discriminate].
Qed.

Lemma stringify_text (v : value) (h h' : heap) (t : text) :
  stringify v h = (Ok (Some t), h') -> exists j, t = TextJson j.
Proof.
  unfold stringify. destruct (ser (length h) h v) as [[j|]| |]; try discriminate.
  intros E. injection E as <- _. eauto.
Qed.

Lemma persist_writes_json (raw : text) (nd : NodeData) (f : record) (rows : list NodeRow)
    (h h' : heap) (t : text) :
  persist raw nd f rows h = (Ok t, h') -> exists j, t = TextJson j.
Proof.
  unfold persist. intros E.
  apply bind_Ok_inv in E as (root & h1 & _ & E). unfold persist_from in E.
  apply bind_Ok_inv in E as (repl & h2 & _ & E).
  apply bind_Ok_inv in E as (s & h3 & _ & E).
  apply bind_Ok_inv in E as (newRoot & h4 & _ & E).
  apply bind_Ok_inv in E as (final & h5 & _ & E).
  apply bind_Ok_inv in E as (out & h6 & Hout & E).
  destruct out as [t'|]; [|discriminate]. injection E as <- _.
  eapply stringify_text. exact Hout.
Qed.

(** X19: whatever a save on a selected node does, afterwards the modal
    is in view mode with an empty form, the selected node has its old
    path and rows with the old keys and types, and the document text is
    the old text or a text that [JSON.stringify] wrote. *)
Theorem save_ends_editing (st st' : state) (nd : NodeData) :
  selectedNode st = Some nd ->
  save st = Some st' ->
  isEditing st' = false
  /\ form st' = []
  /\ (exists nd', selectedNode st' = Some nd'
                  /\ path nd' = path nd
                  /\ map key (text_ nd') = map key (text_ nd)
                  /\ map type (text_ nd') = map type (text_ nd))
  /\ (json_text st' = json_text st \/ exists j, json_text st' = TextJson j).
Proof.
  intros Hsel Hsave. unfold save, handleSave in Hsave. rewrite Hsel in Hsave.
  assert (Hnode : path (updated_node (form st) nd) = path nd
                  /\ map key (text_ (updated_node (form st) nd)) = map key (text_ nd)
                  /\ map type (text_ (updated_node (form st) nd)) = map type (text_ nd)).
  { unfold updated_node. cbn [path text_]. split; [reflexivity|].
    rewrite !map_map. split; apply map_ext; intros r; apply new_row_key_type. }
  destruct (persist (json_text st) nd (form st) (text_ (updated_node (form st) nd)) [])
    as [[t| |] h'] eqn:Hp; cbn in Hsave; [| |discriminate]; injection Hsave as <-; cbn.
  - split; [reflexivity|]. split; [reflexivity|]. split; [eauto|].
    right. eapply persist_writes_json. exact Hp.
  - split; [reflexivity|]. split; [reflexivity|]. split; [eauto|]. left. reflexivity.
Qed.

Lemma save_ends_editing_witness :
  exists st' : state,
    save (handleChange "a" "5" (startEditing (viewing two_rows TextMalformed))) = Some st'
    /\ isEditing st' = false
    /\ form st' = []
    /\ (exists nd', selectedNode st' = Some nd'
                    /\ path nd' = path two_rows
                    /\ map key (text_ nd') = map key (text_ two_rows)
                    /\ map type (text_ nd') = map type (text_ two_rows))
    /\ (json_text st' = TextMalformed \/ exists j, json_text st' = TextJson j).
Proof.
  eexists. split; [vm_compute; reflexivity|].
  apply (save_ends_editing
           (handleChange "a" "5" (startEditing (viewing two_rows TextMalformed))) _ two_rows).
  - reflexivity.
  - vm_compute. reflexivity.
Defined.

(** *** Documents without the path *)

(** X20: with an empty document text and a path that starts with a
    key, the save starts from the empty object and stores the containers
    of the path around the replacement. *)
Theorem save_on_empty_document (st : state) (nd : NodeData) (k : string)
    (rest : list segment) :
  selectedNode st = Some nd ->
  json_text st = TextEmpty ->
  path nd = Some (SegStr k :: rest) ->
  Forall plain_segment (SegStr k :: rest) ->
  NoDup (form st).*1 ->
  Forall (fun k => k <> proto_key) (form st).*1 ->
  exists st' : state,
    save st = Some st'
    /\ json_text st'
       = TextJson (nest_path (SegStr k :: rest) (replacement_json nd (form st)))
    /\ trace st'
       = trace st ++ [UpdateSelectedNode (updated_node (form st) nd); GetJson;
                      SetJson (TextJson (nest_path (SegStr k :: rest)
                                           (replacement_json nd (form st))));
                      SetIsEditing false].
Proof.
  intros Hsel Htext Hpath Hplain Hdup Hproto.
  assert (Hown : Forall (fun seg => seg <> SegStr proto_key) (SegStr k :: rest)).
  { eapply Forall_impl; [exact Hplain|]. intros seg [Hkey _] ->. apply Hkey. reflexivity. }
  assert (Hpersist :
    exists h', persist TextEmpty nd (form st) (text_ (updated_node (form st) nd)) []
               = (Ok (TextJson (nest_path (SegStr k :: rest)
                                  (replacement_json nd (form st)))), h')).
  { destruct (form_replacement nd (form st) [Obj []] Hdup Hproto)
      as (repl & hj & fpr & Hrepl & Hdenr & Hfpr).
    set (h1 := [Obj []] ++ hj) in *.
    assert (Hroot : denotes h1 (VObject 0) (JObject []) ({[0]} ∪ ∅)).
    { econstructor; [reflexivity | reflexivity | constructor | set_solver]. }
    set (h2 := h1 ++ [Obj []]).
    assert (Hnew : h2 !! length h1 = Some (container_for (SegStr k)))
      by (apply list_lookup_middle; reflexivity).
    destruct (walk_builds_path h2 (length h1) (SegStr k) rest repl
                (replacement_json nd (form st)) fpr Hown Hnew
                (denotes_extend _ [Obj []] _ _ _ Hdenr))
      as (h3 & Hwalk & Hstr & _).
    { intros Hin. eapply denotes_dom in Hin; [|exact Hdenr]. lia. }
    exists h3. unfold persist. cbn [load_root].
    rewrite (bind_Ok _ _ [] [Obj []] (VObject 0) eq_refl).
    unfold persist_from. rewrite (bind_Ok _ _ _ _ _ Hrepl).
    rewrite (bind_Ok _ _ _ _ _ (denotes_stringify _ _ _ _ Hroot)).
    cbn [parse_opt parse].
    rewrite (bind_Ok _ _ h1 h2 (VObject (length h1)) eq_refl).
    rewrite Hpath.
    assert (Hset : setValueAtPath (VObject (length h1)) (Some (SegStr k :: rest)) repl h2
                   = (Ok (VObject (length h1)), h3)).
    { unfold setValueAtPath. rewrite (bind_Ok _ _ _ _ _ Hwalk). reflexivity. }
    rewrite (bind_Ok _ _ _ _ _ Hset). cbn [nonempty_path].
    rewrite (bind_Ok _ _ _ _ _ Hstr). reflexivity. }
  destruct Hpersist as (h' & Hpersist).
  unfold save, handleSave. rewrite Hsel, Htext, Hpersist. cbn.
  eexists. split; [reflexivity|]. split; [reflexivity|].
  rewrite <- app_assoc. reflexivity.
Qed.

Lemma save_on_empty_document_witness :
  exists st' : state,
    save (handleChange "age" "43" (startEditing (viewing user_age TextEmpty))) = Some st'
    /\ json_text st'
       = TextJson (nest_path [SegStr "user"] (replacement_json user_age [("age", "43")]))
    /\ trace st'
       = [SetIsEditing true]
           ++ [UpdateSelectedNode (updated_node [("age", "43")] user_age); GetJson;
               SetJson (TextJson (nest_path [SegStr "user"]
                                    (replacement_json user_age [("age", "43")])));
               SetIsEditing false].
Proof.
  apply (save_on_empty_document
           (handleChange "age" "43" (startEditing (viewing user_age TextEmpty)))
           user_age "user" []).
  - reflexivity.
  - reflexivity.
  - reflexivity.
  - repeat constructor; discriminate.
  - cbn. apply NoDup_singleton.
  - cbn. repeat constructor. discriminate.
Defined.

(** X21: when the document is a scalar and the path of the node starts
    with a key other than [__proto__] (or is one segment long, other than
    [__proto__]), the save, with a form without the key [__proto__], logs
    a [TypeError], calls no [setJson] and leaves the document text as it
    is. *)
Theorem save_into_scalar_document (st : state) (nd : NodeData) (j : json) (seg : segment)
    (rest : list segment) :
  selectedNode st = Some nd ->
  json_text st = TextJson j ->
  scalar_json j = true ->
  path nd = Some (seg :: rest) ->
  seg <> SegStr proto_key ->
  is_number seg = false \/ rest = [] ->
  Forall (fun k => k <> proto_key) (form st).*1 ->
  exists st' : state,
    save st = Some st'
    /\ json_text st' = json_text st
    /\ trace st' = trace st ++ [UpdateSelectedNode (updated_node (form st) nd); GetJson;
                                ConsoleError TypeError; SetIsEditing false].
Proof.
  intros Hsel Htext Hscalar Hpath [Hkey _]%segment_key Hseg Hproto.
  assert (Hpersist : exists h', persist (TextJson j) nd (form st)
                                  (text_ (updated_node (form st) nd)) []
                                = (Throw TypeError, h')).
  { destruct (alloc_fresh_tree j []) as (root & h0 & Hroot & hj0 & fp0 & -> & Hden0 & _).
    cbn [app] in *.
    destruct (build_replacement_total nd (form st) (text_ (updated_node (form st) nd)) hj0
                Hproto) as (repl & hj & Hrepl).
    destruct (alloc_fresh_tree (normalize j) (hj0 ++ hj))
      as (newRoot & h2 & Hclone & hj2 & fp2 & -> & Hden2 & _).
    destruct (denotes_scalar _ _ _ _ Hden2) as (p & ->).
    { rewrite !scalar_json_normalize. exact Hscalar. }
    destruct (walk_into_primitive p seg rest repl ((hj0 ++ hj) ++ hj2) Hkey Hseg)
      as (hj3 & Hwalk).
    assert (Hset : setValueAtPath (VPrim p) (Some (seg :: rest)) repl ((hj0 ++ hj) ++ hj2)
                   = (Throw TypeError, ((hj0 ++ hj) ++ hj2) ++ hj3)).
    { unfold setValueAtPath, bind. rewrite Hwalk. reflexivity. }
    eexists. unfold persist. cbn [load_root parse]. rewrite (bind_Ok _ _ _ _ _ Hroot).
    unfold persist_from. rewrite (bind_Ok _ _ _ _ _ Hrepl).
    rewrite (bind_Ok _ _ _ _ _ (denotes_stringify _ _ _ _ (denotes_extend _ hj _ _ _ Hden0))).
    cbn [parse_opt parse]. rewrite (bind_Ok _ _ _ _ _ Hclone).
    rewrite Hpath. unfold bind at 1. rewrite Hset. reflexivity. }
  destruct Hpersist as (h' & Hpersist).
  unfold save, handleSave. rewrite Hsel, Htext, Hpersist. cbn.
  eexists. split; [reflexivity|]. split; [reflexivity|].
  rewrite <- app_assoc. reflexivity.
Qed.

Lemma save_into_scalar_document_witness :
  exists st' : state,
    save (handleChange "a" "5" (startEditing
            (viewing {| text_ := text_ two_rows; path := Some [SegStr "user"] |}
               (TextJson (JNumber (of_N 5))))))
      = Some st'
    /\ json_text st' = TextJson (JNumber (of_N 5))
    /\ trace st'
       = [SetIsEditing true]
           ++ [UpdateSelectedNode
                 (updated_node [("a", "5")]
                    {| text_ := text_ two_rows; path := Some [SegStr "user"] |});
               GetJson; ConsoleError TypeError; SetIsEditing false].
Proof.
  apply (save_into_scalar_document
           (handleChange "a" "5" (startEditing
              (viewing {| text_ := text_ two_rows; path := Some [SegStr "user"] |}
                 (TextJson (JNumber (of_N 5))))))
           {| text_ := text_ two_rows; path := Some [SegStr "user"] |}
           (JNumber (of_N 5)) (SegStr "user") []).
  - reflexivity.
  - reflexivity.
  - reflexivity.
  - reflexivity.
  - discriminate.
  - left. reflexivity.
  - cbn. repeat constructor. discriminate.
Defined.

(** X22: when the path of the node starts with a numeric segment and
    has further segments, none of them the key [__proto__], and the
    document is no array, the save, with a form without the key
    [__proto__], drops the edit without an error: the text stored is the
    old document, as [JSON.stringify] writes it (a negative zero as [0],
    a number that is not finite as [null]). *)
Theorem save_detached_edit_is_lost (st : state) (nd : NodeData) (j : json) (n : N)
    (nextSeg : segment) (rest : list segment) :
  selectedNode st = Some nd ->
  json_text st = TextJson j ->
  (forall items, j <> JArray items) ->
  path nd = Some (SegNum n :: nextSeg :: rest) ->
  Forall (fun seg => seg <> SegStr proto_key) (nextSeg :: rest) ->
  Forall (fun k => k <> proto_key) (form st).*1 ->
  exists st' : state,
    save st = Some st'
    /\ json_text st' = TextJson (normalize j)
    /\ (exact_numbers j = true -> json_text st' = json_text st)
    /\ trace st' = trace st ++ [UpdateSelectedNode (updated_node (form st) nd); GetJson;
                                SetJson (TextJson (normalize j)); SetIsEditing false].
Proof.
  intros Hsel Htext Hnoarr Hpath Hplain Hproto.
  assert (Hpersist : exists h', persist (TextJson j) nd (form st)
                                  (text_ (updated_node (form st) nd)) []
                                = (Ok (TextJson (normalize j)), h')).
  { destruct (alloc_fresh_tree j []) as (root & h0 & Hroot & hj0 & fp0 & -> & Hden0 & _).
    cbn [app] in *.
    destruct (build_replacement_total nd (form st) (text_ (updated_node (form st) nd)) hj0
                Hproto) as (repl & hj & Hrepl).
    destruct (alloc_fresh_tree (normalize j) (hj0 ++ hj))
      as (newRoot & h2 & Hclone & hj2 & fp2 & -> & Hden2 & _).
    rewrite normalize_idem in Hden2.
    assert (Harr : isArray newRoot ((hj0 ++ hj) ++ hj2) = (Ok false, (hj0 ++ hj) ++ hj2)).
    { remember (normalize j) as nj eqn:Hnj.
      destruct Hden2 as [p j' _ | l es ps js fp Hl _ _ | l ps fs fp Hl _ _ _].
      - reflexivity.
      - destruct j as [ | | k | | items | ]; try discriminate.
        + destruct k; discriminate.
        + exfalso. eapply Hnoarr. reflexivity.
      - unfold isArray. rewrite Hl. reflexivity. }
    destruct (walk_detaches _ newRoot repl n nextSeg rest Harr Hplain) as (h3 & Hwalk & Hkeep).
    assert (Hden3 : denotes h3 newRoot (normalize j) fp2).
    { eapply denotes_frame; [exact Hden2|]. intros l Hl.
      eapply denotes_dom in Hl; [|exact Hden2].
      destruct (lookup_lt_is_Some_2 _ _ Hl) as [o Ho]. rewrite Ho. apply Hkeep. exact Ho. }
    exists h3. unfold persist. cbn [load_root parse]. rewrite (bind_Ok _ _ _ _ _ Hroot).
    unfold persist_from. rewrite (bind_Ok _ _ _ _ _ Hrepl).
    rewrite (bind_Ok _ _ _ _ _ (denotes_stringify _ _ _ _ (denotes_extend _ hj _ _ _ Hden0))).
    cbn [parse_opt parse]. rewrite (bind_Ok _ _ _ _ _ Hclone).
    rewrite Hpath.
    assert (Hset : setValueAtPath newRoot (Some (SegNum n :: nextSeg :: rest)) repl
                     ((hj0 ++ hj) ++ hj2) = (Ok newRoot, h3)).
    { unfold setValueAtPath. rewrite (bind_Ok _ _ _ _ _ Hwalk). reflexivity. }
    rewrite (bind_Ok _ _ _ _ _ Hset). cbn [nonempty_path].
    rewrite (bind_Ok _ _ _ _ _ (denotes_stringify _ _ _ _ Hden3)). reflexivity. }
  destruct Hpersist as (h' & Hpersist).
  unfold save, handleSave. rewrite Hsel, Htext, Hpersist. cbn.
  eexists. split; [reflexivity|]. split; [reflexivity|]. split.
  - intros Hexact. apply normalize_exact in Hexact. rewrite Hexact. reflexivity.
  - rewrite <- app_assoc. reflexivity.
Qed.

Lemma save_detached_edit_is_lost_witness :
  exists st' : state,
    save (handleChange "a" "5" (startEditing
            (viewing {| text_ := text_ two_rows; path := Some [SegNum 0; SegStr "a"] |}
               (TextJson user_doc))))
      = Some st'
    /\ json_text st' = TextJson (normalize user_doc)
    /\ (exact_numbers user_doc = true
        -> json_text st'
           = json_text (handleChange "a" "5" (startEditing
                          (viewing {| text_ := text_ two_rows;
                                      path := Some [SegNum 0; SegStr "a"] |}
                             (TextJson user_doc)))))
    /\ trace st'
       = [SetIsEditing true]
           ++ [UpdateSelectedNode
                 (updated_node [("a", "5")]
                    {| text_ := text_ two_rows; path := Some [SegNum 0; SegStr "a"] |});
               GetJson; SetJson (TextJson (normalize user_doc)); SetIsEditing false].
Proof.
  apply (save_detached_edit_is_lost
           (handleChange "a" "5" (startEditing
              (viewing {| text_ := text_ two_rows; path := Some [SegNum 0; SegStr "a"] |}
                 (TextJson user_doc))))
           {| text_ := text_ two_rows; path := Some [SegNum 0; SegStr "a"] |}
           user_doc 0 (SegStr "a") []).
  - reflexivity.
  - reflexivity.
  - discriminate.
  - reflexivity.
  - repeat constructor; discriminate.
  - cbn. repeat constructor. discriminate.
Defined.
